(** * back-valorreal: plate lookup, cache-or-fetch and OLX price scraping

    A shallow embedding of
      - [src/services/olxService.js]        (module [Olx]),
      - [src/services/apiPlacasService.js]  (module [ApiPlacas]),
      - [src/models/Vehicle.js] and [src/controllers/consultaController.js]
        together with the error middleware of the server file
        (module [Consulta]).

    JavaScript strings are sequences of UTF-16 code units.  The prices that
    the scraper reads and adds are IEEE 754 binary64 numbers, with the
    operations of [SpecFloat]; the match scores of the provider, which are
    only compared, are rationals.  Built-ins whose behaviour depends on
    Unicode tables
    ([toLowerCase], [toUpperCase], [normalize('NFD')]) and the outside world
    (HTTP, the HTML document, the document store, the clock) are parameters. *)

From Stdlib Require Import List ZArith NArith QArith Qminmax String Ascii Bool Lia.
From Stdlib Require Import Permutation Sorted SetoidList DecimalString DecimalN.
From Corelib Require Import SpecFloat.
Import ListNotations.

(* ================================================================== *)
(** ** JavaScript strings *)
(* ================================================================== *)

Module JS.

Local Open Scope N_scope.

(** A string is the list of its UTF-16 code units. *)
Definition jsstring := list N.

(** ASCII literals. *)
Definition js (s : string) : jsstring :=
  map N_of_ascii (list_ascii_of_string s).

Definition jsstring_eqb (a b : jsstring) : bool :=
  if list_eq_dec N.eq_dec a b then true else false.

(** Character classes of the regular expressions in the sources. *)
Definition is_digit (c : N) : bool := (48 <=? c) && (c <=? 57).   (* \d, [0-9] *)
Definition is_lower (c : N) : bool := (97 <=? c) && (c <=? 122).  (* [a-z] *)
Definition is_upper (c : N) : bool := (65 <=? c) && (c <=? 90).   (* [A-Z] *)

Definition hyphen : N := 45.
Definition comma : N := 44.
Definition period : N := 46.
Definition slash : N := 47.

(** [\s] of an ECMAScript regular expression, which is also the set that
    [String.prototype.trim] strips: WhiteSpace and LineTerminator. *)
Definition is_space (c : N) : bool :=
  ((9 <=? c) && (c <=? 13)) || (c =? 32) || (c =? 160) || (c =? 5760)
  || ((8192 <=? c) && (c <=? 8202)) || (c =? 8232) || (c =? 8233)
  || (c =? 8239) || (c =? 8287) || (c =? 12288) || (c =? 65279).

(** Combining diacritical marks, U+0300 to U+036F. *)
Definition is_diacritic (c : N) : bool := (768 <=? c) && (c <=? 879).

(** [s.replace(/[cls]/g, '')] for a character class [cls]. *)
Definition remove_class (cls : N -> bool) (s : jsstring) : jsstring :=
  filter (fun c => negb (cls c)) s.

(** The text without its leading, or trailing, run of [p]-characters. *)
Fixpoint drop_start (p : N -> bool) (s : jsstring) : jsstring :=
  match s with
  | c :: r => if p c then drop_start p r else s
  | [] => []
  end.

Definition drop_end (p : N -> bool) (s : jsstring) : jsstring :=
  rev (drop_start p (rev s)).

(** [s.trim()] *)
Definition trimStart (s : jsstring) : jsstring := drop_start is_space s.

Definition trimEnd (s : jsstring) : jsstring := drop_end is_space s.

Definition trim (s : jsstring) : jsstring := trimEnd (trimStart s).

(** [s.includes(t)] *)
Fixpoint starts_with (t s : jsstring) : bool :=
  match t, s with
  | [], _ => true
  | a :: t', b :: s' => (a =? b) && starts_with t' s'
  | _ :: _, [] => false
  end.

Fixpoint includes (s t : jsstring) : bool :=
  starts_with t s ||
  match s with
  | [] => false
  | _ :: r => includes r t
  end.

(** JavaScript truthiness of a value that is a string, [null] or
    [undefined]: only a non-empty string is truthy. *)
Definition truthy (v : option jsstring) : bool :=
  match v with
  | Some (_ :: _) => true
  | _ => false
  end.

(** [v || null] for such a value. *)
Definition or_null (v : option jsstring) : option jsstring :=
  if truthy v then v else None.

(** Decimal value of a run of digits. *)
Definition digit_val (c : N) : N := c - 48.

Definition digits_val (ds : jsstring) : N :=
  fold_left (fun acc c => 10 * acc + digit_val c) ds 0.

Fixpoint span (p : N -> bool) (s : jsstring) : jsstring * jsstring :=
  match s with
  | c :: r => if p c then let (a, b) := span p r in (c :: a, b) else ([], s)
  | [] => ([], [])
  end.

(** *** Numbers

    A JavaScript number is a binary64 value: 53 bits of precision, and
    exponents below 1024. *)
Definition number : Type := spec_float.

Definition prec : Z := 53.
Definition emax : Z := 1024.

Definition mais_zero : number := S754_zero false.

(** The number nearest to the fraction [n / d], ties to even: the value of
    a decimal literal.  The quotient is taken with enough bits for the
    rounding of [binary_round_aux] to be that of the exact fraction. *)
Definition numero_de (n : N) (d : positive) : number :=
  match n with
  | N0 => mais_zero
  | Npos p =>
      let '(mz, ez, lz) :=
        SFdiv_core_binary prec emax (Zpos p) 0 (Zpos d) 0 in
      binary_round_aux prec emax false mz ez lz
  end.

Definition inteiro (n : N) : number := numero_de n 1.

(** [a + b], [a / b], [a < b], [a <= b] *)
Definition num_add (a b : number) : number := SFadd prec emax a b.
Definition num_div (a b : number) : number := SFdiv prec emax a b.
Definition menor (a b : number) : bool := SFltb a b.
Definition menor_ou_igual (a b : number) : bool := SFleb a b.

(** Truthiness of a number: every number but the zeros and [NaN]. *)
Definition verdadeiro (x : number) : bool :=
  match x with
  | S754_zero _ | S754_nan => false
  | _ => true
  end.

(** SameValueZero, the equality of [Set]: that of [===], and [NaN] equal
    to itself. *)
Definition mesmo_valor_zero (a b : number) : bool :=
  match a, b with
  | S754_nan, S754_nan => true
  | _, _ => SFeqb a b
  end.

(** The rational that a finite number is. *)
Definition valor (x : number) : option Q :=
  match x with
  | S754_zero _ => Some 0%Q
  | S754_finite s m e =>
      let q := match e with
               | Zneg k => (Zpos m # Pos.pow 2 k)%Q
               | _ => inject_Z (Zpos m * 2 ^ e)
               end in
      Some (Qred (if s then Qopp q else q))
  | _ => None
  end.

(** [parseFloat(s)] on the decimal literals that reach it in this program:
    a run of digits, optionally followed by a period and more digits.
    Without a digit it is [NaN]; otherwise it is the number nearest to the
    value of the literal. *)
Definition parseFloat (s : jsstring) : number :=
  let (ip, r) := span is_digit s in
  let fp := match r with
            | c :: r' => if c =? period then fst (span is_digit r') else []
            | [] => []
            end in
  match ip, fp with
  | [], [] => S754_nan
  | _, _ =>
      let scale := 10 ^ N.of_nat (List.length fp) in
      numero_de (digits_val ip * scale + digits_val fp)
                (Z.to_pos (Z.of_N scale))
  end.

(** The outcome of a call that may throw (or of a promise that may
    reject). *)
Inductive result (E A : Type) : Type :=
| Ok (a : A)
| Throw (e : E).

Arguments Ok {E A} a.
Arguments Throw {E A} e.

Definition bind {E A B} (m : result E A) (k : A -> result E B) : result E B :=
  match m with
  | Ok a => k a
  | Throw e => Throw e
  end.

End JS.

Import JS.

Declare Scope js_scope.
Notation "x <- m ;; k" := (bind m (fun x => k))
  (at level 61, m at next level, right associativity) : js_scope.

(* ================================================================== *)
(** ** [olxService.js]: price extractor *)
(* ================================================================== *)

Module Olx.

Local Open Scope N_scope.

(** [/[^\d,.-]/] : what [extrairPreco] strips first. *)
Definition fora_de_preco (c : N) : bool :=
  negb (is_digit c || (c =? comma) || (c =? period) || (c =? hyphen)).

(** The pattern [(\d{1,3}(?:\.\d{3})*(?:,\d{2})?)], piece by piece.  Every
    piece after the first is optional and greedy, so the backtracking
    matcher never revisits a choice: at a given start it either fails on
    the first character or returns the greedy match. *)

(** [\d{1,3}] : up to [n] digits, greedily. *)
Fixpoint ate_n_digitos (n : nat) (s : jsstring) : jsstring * jsstring :=
  match n, s with
  | S n', c :: r =>
      if is_digit c then let (a, b) := ate_n_digitos n' r in (c :: a, b)
      else ([], s)
  | _, _ => ([], s)
  end.

(** [(?:\.\d{3})*] *)
Fixpoint grupos_milhar (s : jsstring) : jsstring * jsstring :=
  match s with
  | p :: d1 :: d2 :: d3 :: r =>
      if (p =? period) && is_digit d1 && is_digit d2 && is_digit d3
      then let (a, b) := grupos_milhar r in (p :: d1 :: d2 :: d3 :: a, b)
      else ([], s)
  | _ => ([], s)
  end.

(** [(?:,\d{2})?] *)
Definition centavos (s : jsstring) : jsstring :=
  match s with
  | v :: d1 :: d2 :: _ =>
      if (v =? comma) && is_digit d1 && is_digit d2 then [v; d1; d2] else []
  | _ => []
  end.

(** The match that starts at the head of [s], if any. *)
Definition casa_aqui (s : jsstring) : option jsstring :=
  let (d, r1) := ate_n_digitos 3 s in
  match d with
  | [] => None
  | _ =>
      let (g, r2) := grupos_milhar r1 in
      Some (d ++ g ++ centavos r2)
  end.

(** [limpo.match(/(...)/)] : leftmost match; [match[1]] is the whole match. *)
Fixpoint casa_preco (s : jsstring) : option jsstring :=
  match casa_aqui s with
  | Some m => Some m
  | None =>
      match s with
      | [] => None
      | _ :: r => casa_preco r
      end
  end.

(** [.replace(',', '.')] : a string pattern replaces the first occurrence. *)
Fixpoint troca_primeira_virgula (s : jsstring) : jsstring :=
  match s with
  | c :: r => if c =? comma then period :: r else c :: troca_primeira_virgula r
  | [] => []
  end.

(** [extrairPreco(texto)].  [None] is [null]. *)
Definition extrairPreco (texto : jsstring) : option number :=
  match texto with
  | [] => None                                   (* if (!texto) return null *)
  | _ =>
      let limpo := remove_class fora_de_preco texto in
      match casa_preco limpo with
      | Some m =>
          let numero :=
            troca_primeira_virgula (remove_class (fun c => c =? period) m) in
          Some (parseFloat numero)
      | None =>
          let numeros := remove_class (fun c => negb (is_digit c)) texto in
          if (4 <=? List.length numeros)%nat then Some (parseFloat numeros)
          else None
      end
  end.

(** *** URL builder *)

(** [s.replace(/[p]+/g, por)] : every maximal run of [p]-characters becomes
    one [por].  A [p]-character followed by another one is dropped; the last
    of the run is replaced. *)
Fixpoint troca_runs (p : N -> bool) (por : N) (s : jsstring) : jsstring :=
  match s with
  | [] => []
  | c :: r =>
      if p c then
        match r with
        | d :: _ => if p d then troca_runs p por r else por :: troca_runs p por r
        | [] => [por]
        end
      else c :: troca_runs p por r
  end.

Definition is_hyphen (c : N) : bool := c =? hyphen.

(** [s.replace(/^-|-$/g, '')] : one hyphen off the front, one off the end. *)
Definition tira_hifen_inicio (s : jsstring) : jsstring :=
  match s with
  | c :: r => if is_hyphen c then r else s
  | [] => []
  end.

Definition tira_hifen_fim (s : jsstring) : jsstring :=
  rev (tira_hifen_inicio (rev s)).

Definition tira_hifens_pontas (s : jsstring) : jsstring :=
  tira_hifen_fim (tira_hifen_inicio s).

(** [/[^a-z0-9\s-]/] *)
Definition fora_de_slug (c : N) : bool :=
  negb (is_lower c || is_digit c || is_space c || is_hyphen c).

(** [s.split(/[\s-]/)[0]] : the text before the first separator. *)
Definition is_sep (c : N) : bool := is_space c || is_hyphen c.

Definition primeiro_segmento (s : jsstring) : jsstring :=
  fst (span (fun c => negb (is_sep c)) s).

Record Veiculo : Type := {
  marca : option jsstring;
  modelo : option jsstring;
  anoModelo : option jsstring
}.

Definition olx_base : jsstring :=
  js "https://www.olx.com.br/autos-e-pecas/carros-vans-e-utilitarios/".

Section Builtins.

(** [String.prototype.toLowerCase] and [String.prototype.normalize('NFD')]. *)
Variable toLowerCase : jsstring -> jsstring.
Variable normalizeNFD : jsstring -> jsstring.

(** [normalizarTexto(texto)] *)
Definition normalizarTexto (texto : jsstring) : jsstring :=
  match texto with
  | [] => []                                       (* if (!texto) return '' *)
  | _ =>
      let s1 := toLowerCase texto in
      let s2 := normalizeNFD s1 in
      let s3 := remove_class is_diacritic s2 in
      let s4 := remove_class fora_de_slug s3 in
      let s5 := trim s4 in
      let s6 := troca_runs is_space hyphen s5 in
      let s7 := troca_runs is_hyphen hyphen s6 in
      tira_hifens_pontas s7
  end.

(** [gerarUrlOlx(veiculoData)] *)
Definition gerarUrlOlx (v : Veiculo) : option jsstring :=
  match marca v, modelo v, anoModelo v with
  | Some ((_ :: _) as ma), Some ((_ :: _) as mo), Some ((_ :: _) as an) =>
      let marcaNormalizada := normalizarTexto ma in
      let modeloNormalizado := normalizarTexto mo in
      let ano := primeiro_segmento (trim an) in
      Some (olx_base ++ marcaNormalizada ++ [slash] ++ modeloNormalizado
              ++ [slash] ++ ano)
  | _, _, _ => None
  end.

End Builtins.

(** *** Scraper *)

Record Resumo : Type := {
  menorPreco : jsstring;
  maiorPreco : jsstring;
  mediaPreco : jsstring;
  quantidadeAnuncios : nat;
  urlOlx : jsstring
}.

(** JavaScript truthiness of the value [extrairPreco] returns: a number
    other than zero and [NaN]. *)
Definition preco_valido (p : option number) : option number :=
  match p with
  | Some q => if verdadeiro q then Some q else None
  | None => None
  end.

(** [[...new Set(precos)]] : first occurrences, in order. *)
Fixpoint unicos (l : list number) : list number :=
  match l with
  | [] => []
  | x :: r => x :: filter (fun y => negb (mesmo_valor_zero x y)) (unicos r)
  end.

(** [Math.min] and [Math.max] of two numbers: [NaN] if one is, the
    negative zero below the positive. *)
Definition Math_min2 (a b : number) : number :=
  match a, b with
  | S754_nan, _ | _, S754_nan => S754_nan
  | S754_zero sa, S754_zero sb => S754_zero (sa || sb)
  | _, _ => if menor b a then b else a
  end.

Definition Math_max2 (a b : number) : number :=
  match a, b with
  | S754_nan, _ | _, S754_nan => S754_nan
  | S754_zero sa, S754_zero sb => S754_zero (sa && sb)
  | _, _ => if menor a b then b else a
  end.

(** [Math.min(...)] and [Math.max(...)] of a list with head [p]. *)
Definition Math_min (p : number) (ps : list number) : number :=
  fold_left Math_min2 ps p.
Definition Math_max (p : number) (ps : list number) : number :=
  fold_left Math_max2 ps p.

(** [l.reduce((sum, p) => sum + p, 0)] *)
Definition soma (l : list number) : number := fold_left num_add l mais_zero.

(** [soma / l.length] *)
Definition media (l : list number) : number :=
  num_div (soma l) (inteiro (N.of_nat (List.length l))).

Section Scraper.

Variable toLowerCase : jsstring -> jsstring.
Variable normalizeNFD : jsstring -> jsstring.

(** Whatever is thrown by [axios] or by [cheerio]. *)
Variable Exn : Type.

(** [response.data] of a successful [axios.get(urlOlx, ...)]: a completed
    request whose status passes [validateStatus]; anything else rejects. *)
Variable Html : Type.
Variable axios_get : jsstring -> result Exn Html.

(** What the three selector passes read off the document.
    - [cartoes]: for each [[data-ds-component="DS-AdCard-Link"]] element, the
      text of its [DS-AdCard-Price] descendants;
    - [links]: for each [a[href*="/autos-e-pecas/"]] element, the text of its
      [.olx-text] descendants, of its [[class*="price"]] descendants, and its
      own text;
    - [elementos]: the text of every element, in document order.
    Each may throw; a throwing [cheerio.load] is a throwing [cartoes]. *)
Variable cartoes : Html -> result Exn (list jsstring).
Variable links : Html -> result Exn (list (jsstring * jsstring * jsstring)).
Variable elementos : Html -> result Exn (list jsstring).

(** [Intl.NumberFormat('pt-BR', {style:'currency', currency:'BRL'}).format] *)
Variable formatarPreco : number -> jsstring.

Local Open Scope js_scope.

(** First pass. *)
Definition passo_cartoes (textos : list jsstring) : list number :=
  flat_map (fun t =>
    let precoTexto := trim t in
    match precoTexto with
    | [] => []
    | _ => match preco_valido (extrairPreco precoTexto) with
           | Some preco => [preco]
           | None => []
           end
    end) textos.

(** [a || b || c] on strings. *)
Definition primeiro_nao_vazio (t : jsstring * jsstring * jsstring) : jsstring :=
  let '(a, b, c) := t in
  match a with
  | _ :: _ => a
  | [] => match b with
          | _ :: _ => b
          | [] => c
          end
  end.

(** Second pass. *)
Definition passo_links (els : list (jsstring * jsstring * jsstring))
  : list number :=
  flat_map (fun el =>
    let precoTexto := primeiro_nao_vazio el in
    match preco_valido (extrairPreco precoTexto) with
    | Some preco => [preco]
    | None => []
    end) els.

(** Third pass: [count++ > 500] stops the loop at the element of index 501,
    so the elements of index 0 to 500 are examined. *)
Definition passo_elementos (els : list jsstring) : list number :=
  flat_map (fun texto =>
    if negb (jsstring_eqb texto []) && includes texto (js "R$")
       && (List.length texto <? 100)%nat
    then match preco_valido (extrairPreco texto) with
         | Some preco =>
             if menor (inteiro 1000) preco && menor preco (inteiro 10000000)
             then [preco] else []
         | None => []
         end
    else []) (firstn 501 els).

(** The three passes, each tried only when the ones before found nothing. *)
Definition coletar (html : Html) : result Exn (list number) :=
  cs <- cartoes html ;;
  let precos1 := passo_cartoes cs in
  match precos1 with
  | _ :: _ => Ok precos1
  | [] =>
      ls <- links html ;;
      let precos2 := passo_links ls in
      match precos2 with
      | _ :: _ => Ok precos2
      | [] =>
          es <- elementos html ;;
          Ok (passo_elementos es)
      end
  end.

Definition precosUnicos (precos : list number) : list number :=
  filter (fun p => menor mais_zero p) (unicos precos).

(** The body of the [try] block. *)
Definition buscarPrecosOlx_try (v : Veiculo) : result Exn (option Resumo) :=
  match gerarUrlOlx toLowerCase normalizeNFD v with
  | None => Ok None
  | Some url =>
      html <- axios_get url ;;
      precos <- coletar html ;;
      match precosUnicos precos with
      | [] => Ok None
      | p :: ps =>
          Ok (Some {| menorPreco := formatarPreco (Math_min p ps);
                      maiorPreco := formatarPreco (Math_max p ps);
                      mediaPreco := formatarPreco (media (p :: ps));
                      quantidadeAnuncios := List.length (p :: ps);
                      urlOlx := url |})
      end
  end.

(** [buscarPrecosOlx(veiculoData)] : the [catch] turns anything thrown into
    [null]. *)
Definition buscarPrecosOlx (v : Veiculo) : option Resumo :=
  match buscarPrecosOlx_try v with
  | Ok r => r
  | Throw _ => None
  end.

End Scraper.

Arguments coletar {Exn Html} cartoes links elementos html.
Arguments buscarPrecosOlx_try toLowerCase normalizeNFD {Exn Html}
  axios_get cartoes links elementos formatarPreco v.
Arguments buscarPrecosOlx toLowerCase normalizeNFD {Exn Html}
  axios_get cartoes links elementos formatarPreco v.

End Olx.

(* ================================================================== *)
(** ** [apiPlacasService.js]: plate lookup client *)
(* ================================================================== *)

Module ApiPlacas.

Local Open Scope Q_scope.

(** One entry of [data.fipe.dados].  Only [score] and [texto_valor] are read
    by the service; [demais] stands for the entry's other fields. *)
Record Candidato : Type := {
  texto_valor : option jsstring;
  score : option Q;
  demais : jsstring
}.

(** [response.data] when it is an object.  [fipe_dados] is [None] when
    [data.fipe] or [data.fipe.dados] is missing. *)
Record Dados : Type := {
  d_placa : option jsstring;
  d_marca : option jsstring;
  d_modelo : option jsstring;
  d_ano : option jsstring;
  d_anoModelo : option jsstring;
  d_cor : option jsstring;
  d_chassi : option jsstring;
  d_renavam : option jsstring;
  d_uf : option jsstring;
  d_municipio : option jsstring;
  d_situacao : option jsstring;
  d_mensagemRetorno : option jsstring;
  fipe_dados : option (list Candidato)
}.

(** [data.fipe.dados = l], every other field untouched. *)
Definition com_fipe_dados (data : Dados) (l : list Candidato) : Dados :=
  {| d_placa := d_placa data; d_marca := d_marca data;
     d_modelo := d_modelo data; d_ano := d_ano data;
     d_anoModelo := d_anoModelo data; d_cor := d_cor data;
     d_chassi := d_chassi data; d_renavam := d_renavam data;
     d_uf := d_uf data; d_municipio := d_municipio data;
     d_situacao := d_situacao data;
     d_mensagemRetorno := d_mensagemRetorno data;
     fipe_dados := Some l |}.

(** The object [consultarPlaca] returns. *)
Record VeiculoData : Type := {
  placa : jsstring;
  marca : option jsstring;
  modelo : option jsstring;
  ano : option jsstring;
  anoModelo : option jsstring;
  cor : option jsstring;
  chassi : option jsstring;
  renavam : option jsstring;
  uf : option jsstring;
  municipio : option jsstring;
  situacao : option jsstring;
  valorFipe : option jsstring;
  valorFipeScore : option Q;
  dadosFipe : option (list Candidato);
  mensagemRetorno : option jsstring;
  dadosCompletos : Dados
}.

(** [c.score || 0] *)
Definition score_ou_zero (c : Candidato) : Q :=
  match score c with
  | Some q => q
  | None => 0
  end.

(** [c.score || null] : zero is falsy. *)
Definition score_ou_null (c : Candidato) : option Q :=
  match score c with
  | Some q => if Qeq_bool q 0 then None else Some q
  | None => None
  end.

(** The comparator [(a, b) => (b.score || 0) - (a.score || 0)] is not
    positive: [a] may stay in front of [b]. *)
Definition nao_depois (a b : Candidato) : bool :=
  Qle_bool (score_ou_zero b) (score_ou_zero a).

(** [Array.prototype.sort] with that comparator.  The built-in is a stable
    sort, and the comparator is a consistent ordering (the sign of a
    difference of numbers), so its result is the one stable arrangement in
    descending score order; insertion from the right computes it. *)
Fixpoint insere (a : Candidato) (l : list Candidato) : list Candidato :=
  match l with
  | [] => [a]
  | b :: r => if nao_depois a b then a :: l else b :: insere a r
  end.

Fixpoint sort (l : list Candidato) : list Candidato :=
  match l with
  | [] => []
  | a :: r => insere a (sort r)
  end.

(** [/^[A-Z]{3}[0-9]{4}$/] *)
Definition formatoAntigo (s : jsstring) : bool :=
  match s with
  | [l1; l2; l3; n1; n2; n3; n4] =>
      is_upper l1 && is_upper l2 && is_upper l3
      && is_digit n1 && is_digit n2 && is_digit n3 && is_digit n4
  | _ => false
  end.

(** [/^[A-Z]{3}[0-9][A-Z0-9][0-9]{2}$/] *)
Definition formatoNovo (s : jsstring) : bool :=
  match s with
  | [l1; l2; l3; n1; x; n2; n3] =>
      is_upper l1 && is_upper l2 && is_upper l3
      && is_digit n1 && (is_upper x || is_digit x)
      && is_digit n2 && is_digit n3
  | _ => false
  end.

(** [validarPlaca(placa)] *)
Definition validarPlaca (placa : jsstring) : bool :=
  formatoAntigo placa || formatoNovo placa.

(** How [axios.get] rejects: with [error.response], with [error.request]
    only, or with neither. *)
Inductive FalhaAxios : Type :=
| ComResposta (status : N) (statusText : jsstring)
| SemResposta
| Outra (message : jsstring) (status : option Z).

(** What [consultarPlaca] throws, one constructor for each place it throws
    from; [mensagem] is the [message] of the [Error]. *)
Inductive Erro : Type :=
| InvalidFormat                                   (* validation *)
| ProviderRejected (mensagemRetorno : jsstring)   (* data.mensagemRetorno *)
| ProviderError (status : N) (statusText : jsstring)
| ProviderUnreachable
| Repassado (message : jsstring) (status : option Z).

(** The [message] of the [TypeError] that reading [mensagemRetorno] off
    [null] throws. *)
Definition msg_corpo_nulo : jsstring :=
  js "Cannot read properties of null (reading 'mensagemRetorno')".

Definition msg_formato : jsstring :=
  js "Formato de placa inv" ++ [225%N]             (* a with acute accent *)
    ++ js "lido. Use o formato AAA0X00 ou AAA9999".

Definition decimal (n : N) : jsstring :=
  js (NilZero.string_of_uint (N.to_uint n)).

Definition mensagem (e : Erro) : jsstring :=
  match e with
  | InvalidFormat => msg_formato
  | ProviderRejected m => m
  | ProviderError st txt =>
      js "Erro na API Placas: " ++ decimal st ++ js " - " ++ txt
  | ProviderUnreachable =>
      js "Erro ao conectar com a API Placas. Tente novamente."
  | Repassado m _ => m
  end.

(** [err.status] : only an error passed on from [axios] can carry one. *)
Definition status_do_erro (e : Erro) : option Z :=
  match e with
  | Repassado _ st => st
  | _ => None
  end.

Section Cliente.

(** [String.prototype.toUpperCase] *)
Variable toUpperCase : jsstring -> jsstring.

(** [this.baseURL], [this.token] and the provider behind [axios.get]:
    [response.data] of a request that succeeds is an object, or [null]
    ([None]) when the body is the JSON value [null]. *)
Variable baseURL : jsstring.
Variable token : jsstring.
Variable axios_get : jsstring -> result FalhaAxios (option Dados).

Local Open Scope js_scope.

(** [placa.replace(/\s/g, '').toUpperCase()] *)
Definition formatar (placa : jsstring) : jsstring :=
  toUpperCase (remove_class is_space placa).

Definition url_consulta (placaFormatada : jsstring) : jsstring :=
  baseURL ++ js "/consulta/" ++ placaFormatada ++ [slash] ++ token.

(** Lines 45 to 60: the best candidate and the list kept.  The sort is in
    place, so [data] itself holds the sorted array afterwards. *)
Definition processaFipe (data : Dados)
  : option jsstring * option Q * option (list Candidato) * Dados :=
  match fipe_dados data with
  | Some ((_ :: _) as dados) =>
      let fipeOrdenado := sort dados in
      let data' := com_fipe_dados data fipeOrdenado in
      match fipeOrdenado with
      | melhorFipe :: _ =>
          (or_null (texto_valor melhorFipe), score_ou_null melhorFipe,
           fipe_dados data', data')
      | [] => (None, None, fipe_dados data', data')   (* fipeOrdenado[0] of a non-empty array *)
      end
  | _ => (None, None, None, data)
  end.

Definition montar (placaFormatada : jsstring) (data : Dados) : VeiculoData :=
  let '(vf, vfs, df, data') := processaFipe data in
  {| placa := match or_null (d_placa data') with
              | Some p => p
              | None => placaFormatada
              end;
     marca := or_null (d_marca data');
     modelo := or_null (d_modelo data');
     ano := or_null (d_ano data');
     anoModelo := or_null (d_anoModelo data');
     cor := or_null (d_cor data');
     chassi := or_null (d_chassi data');
     renavam := or_null (d_renavam data');
     uf := or_null (d_uf data');
     municipio := or_null (d_municipio data');
     situacao := or_null (d_situacao data');
     valorFipe := vf;
     valorFipeScore := vfs;
     dadosFipe := df;
     mensagemRetorno := or_null (d_mensagemRetorno data');
     dadosCompletos := data' |}.

(** What is thrown inside the [try] block: an [Error] of the service, a
    rejection of [axios.get], or the [TypeError] of line 41 when
    [response.data] is [null]. *)
Inductive Lancado : Type :=
| DoServico (e : Erro)
| DoAxios (f : FalhaAxios)
| DeTipo.

Definition axios_get_try (url : jsstring) : result Lancado (option Dados) :=
  match axios_get url with
  | Ok d => Ok d
  | Throw f => Throw (DoAxios f)
  end.

Definition consultarPlaca_try (placa : jsstring) : result Lancado VeiculoData :=
  let placaFormatada := formatar placa in
  if negb (validarPlaca placaFormatada) then Throw (DoServico InvalidFormat)
  else
    corpo <- axios_get_try (url_consulta placaFormatada) ;;
    match corpo with
    | None => Throw DeTipo                    (* data.mensagemRetorno of null *)
    | Some data =>
        match d_mensagemRetorno data with
        | Some ((_ :: _) as m) =>
            if jsstring_eqb m (js "Sem erros.")
            then Ok (montar placaFormatada data)
            else Throw (DoServico (ProviderRejected m))
        | _ => Ok (montar placaFormatada data)
        end
    end.

(** The [catch] block: an error with neither [response] nor [request],
    such as a [TypeError], is thrown again as it is. *)
Definition traduz (l : Lancado) : Erro :=
  match l with
  | DoAxios (ComResposta st txt) => ProviderError st txt
  | DoAxios SemResposta => ProviderUnreachable
  | DoAxios (Outra m st) => Repassado m st
  | DoServico e => e
  | DeTipo => Repassado msg_corpo_nulo None
  end.

(** [consultarPlaca(placa)] *)
Definition consultarPlaca (placa : jsstring) : result Erro VeiculoData :=
  match consultarPlaca_try placa with
  | Ok v => Ok v
  | Throw l => Throw (traduz l)
  end.

End Cliente.

End ApiPlacas.

(* ================================================================== *)
(** ** [Vehicle.js], [consultaController.js] and the error middleware *)
(* ================================================================== *)

Module Consulta.

Import ApiPlacas.

Local Open Scope Z_scope.

(** A stored [Vehicle] document: the fields of the record and its
    [dataConsulta], in milliseconds. *)
Record Documento : Type := {
  veiculo : VeiculoData;
  dataConsulta : Z
}.

Inductive Fonte : Type := cache | api.

(** The [data] of a successful response: the record, its [dataConsulta]
    when it comes out of the store, and the [fonte] tag. *)
Record Registro : Type := {
  r_veiculo : VeiculoData;
  r_dataConsulta : option Z;
  fonte : Fonte
}.

Inductive Corpo : Type :=
| Falha (error : jsstring) (message : option jsstring)
| Sucesso (data : Registro) (timestamp : jsstring).

Record Resposta : Type := {
  status : Z;
  corpo : Corpo
}.

(** What the handler does besides answering. *)
Inductive Evento : Type :=
| EvAviso (texto : jsstring)            (* console.warn *)
| EvConsultaApi (placa : jsstring)      (* apiPlacasService.consultarPlaca *)
| EvGravacao (d : Documento).           (* a document was saved *)

(** The world one request runs in. *)
Record Mundo : Type := {
  colecao : list Documento;             (* the Vehicle collection *)
  falha_leitura : option jsstring;      (* the read rejects, with this message *)
  falha_escrita : option jsstring;      (* the save rejects, with this message *)
  agora : Z;                            (* new Date() of line 29 *)
  agora_gravacao : Z;                   (* Date.now of the new document *)
  carimbo : jsstring;                   (* new Date().toISOString() *)
  provedor : jsstring -> result FalhaAxios (option Dados)
}.

Definition msg_obrigatoria : jsstring :=
  js "Placa " ++ [233%N] ++ js " obrigat" ++ [243%N] ++ js "ria".

Definition msg_orientacao : jsstring :=
  js "Informe a placa do ve" ++ [237%N]
    ++ js "culo no formato AAA0X00 ou AAA9999".

Definition aviso_leitura : jsstring :=
  js "Aviso: N" ++ [227%N] ++ js "o foi poss" ++ [237%N]
    ++ js "vel consultar o cache do MongoDB:".

Definition aviso_escrita : jsstring :=
  js "Aviso: N" ++ [227%N] ++ js "o foi poss" ++ [237%N]
    ++ js "vel salvar no MongoDB:".

(** The [message] of the validation error of a document without [placa]. *)
Definition msg_placa_requerida : jsstring :=
  js "Vehicle validation failed: placa: Path `placa` is required.".

Definition um_dia : Z := 24 * 60 * 60 * 1000.

Section Controlador.

Variable toUpperCase : jsstring -> jsstring.
Variable baseURL : jsstring.
Variable token : jsstring.

(** [sort({ dataConsulta: -1 })] then [findOne]: the latest of the matching
    documents. *)
Definition mais_recente (a b : Documento) : Documento :=
  if dataConsulta a <? dataConsulta b then b else a.

(** The schema declares [placa] with [uppercase: true] and [trim: true]:
    the store passes a value of that path through both setters, the one
    declared last first, when a document is built and when the filter of a
    query is cast. *)
Definition placa_do_esquema (s : jsstring) : jsstring := toUpperCase (trim s).

(** What a query given [{ placa: placa.toUpperCase() }] searches for. *)
Definition chave (p : jsstring) : jsstring :=
  placa_do_esquema (toUpperCase p).

(** [Vehicle.findLatestByPlaca(placa)] *)
Definition findLatestByPlaca (col : list Documento) (p : jsstring)
  : option Documento :=
  match filter (fun d => jsstring_eqb (placa (veiculo d)) (chave p)) col with
  | [] => None
  | d :: r => Some (fold_left mais_recente r d)
  end.

(** The error middleware:
    [res.status(err.status || 500).json({ error: err.message || ... })]. *)
Definition middleware (err : Erro) : Resposta :=
  {| status := match status_do_erro err with
               | Some st => if st =? 0 then 500 else st
               | None => 500
               end;
     corpo := Falha (match mensagem err with
                     | [] => js "Erro interno do servidor"
                     | m => m
                     end) None |}.

(** Lines 20 to 27: the read of the cache, with its [catch]. *)
Definition ler_cache (m : Mundo) (p : jsstring)
  : option Documento * list Evento :=
  match falha_leitura m with
  | Some msg => (None, [EvAviso (aviso_leitura ++ msg)])
  | None => (findLatestByPlaca (colecao m) p, [])
  end.

(** Line 34: [consultaRecente && consultaRecente.dataConsulta > umDiaAtras]. *)
Definition recente (m : Mundo) (consultaRecente : option Documento)
  : option Documento :=
  let umDiaAtras := agora m - um_dia in
  match consultaRecente with
  | Some d => if umDiaAtras <? dataConsulta d then Some d else None
  | None => None
  end.

(** [new Vehicle(veiculoData)]: the schema uppercases and trims [placa] and
    stamps [dataConsulta]; [fonte] is not a field of the schema. *)
Definition novo_documento (v : VeiculoData) (t : Z) : Documento :=
  {| veiculo :=
       {| placa := placa_do_esquema (placa v);
          marca := marca v; modelo := modelo v; ano := ano v;
          anoModelo := anoModelo v; cor := cor v; chassi := chassi v;
          renavam := renavam v; uf := uf v; municipio := municipio v;
          situacao := situacao v; valorFipe := valorFipe v;
          valorFipeScore := valorFipeScore v; dadosFipe := dadosFipe v;
          mensagemRetorno := mensagemRetorno v;
          dadosCompletos := dadosCompletos v |};
     dataConsulta := t |}.

(** Lines 43 to 50: the save, with its [catch].  [placa] is [required]:
    a document whose plate is empty after the setters fails validation,
    before anything is written. *)
Definition gravar (m : Mundo) (v : VeiculoData)
  : list Documento * list Evento :=
  let d := novo_documento v (agora_gravacao m) in
  match placa (veiculo d) with
  | [] => (colecao m, [EvAviso (aviso_escrita ++ msg_placa_requerida)])
  | _ :: _ =>
      match falha_escrita m with
      | Some msg => (colecao m, [EvAviso (aviso_escrita ++ msg)])
      | None => (colecao m ++ [d], [EvGravacao d])
      end
  end.

(** [consultar(req, res, next)], with [req.params.placa] as [p]: the
    response, the collection afterwards and what happened on the way. *)
Definition consultar (m : Mundo) (p : option jsstring)
  : Resposta * list Documento * list Evento :=
  match p with
  | Some ((_ :: _) as placa) =>
      let (consultaRecente, log1) := ler_cache m placa in
      match recente m consultaRecente with
      | Some d =>
          ({| status := 200;
              corpo := Sucesso {| r_veiculo := veiculo d;
                                  r_dataConsulta := Some (dataConsulta d);
                                  fonte := cache |} (carimbo m) |},
           colecao m, log1)
      | None =>
          match consultarPlaca toUpperCase baseURL token (provedor m) placa with
          | Ok veiculoData =>
              let (col, log2) := gravar m veiculoData in
              ({| status := 200;
                  corpo := Sucesso {| r_veiculo := veiculoData;
                                      r_dataConsulta := None;
                                      fonte := api |} (carimbo m) |},
               col, log1 ++ [EvConsultaApi placa] ++ log2)
          | Throw err =>
              (middleware err, colecao m, log1 ++ [EvConsultaApi placa])
          end
      end
  | _ =>
      ({| status := 400; corpo := Falha msg_obrigatoria (Some msg_orientacao) |},
       colecao m, [])
  end.

(** [forcarConsulta(req, res, next)] : the store is not read. *)
Definition forcarConsulta (m : Mundo) (p : option jsstring)
  : Resposta * list Documento * list Evento :=
  match p with
  | Some ((_ :: _) as placa) =>
      match consultarPlaca toUpperCase baseURL token (provedor m) placa with
      | Ok veiculoData =>
          let (col, log2) := gravar m veiculoData in
          ({| status := 200;
              corpo := Sucesso {| r_veiculo := veiculoData;
                                  r_dataConsulta := None;
                                  fonte := api |} (carimbo m) |},
           col, [EvConsultaApi placa] ++ log2)
      | Throw err =>
          (middleware err, colecao m, [EvConsultaApi placa])
      end
  | _ =>
      ({| status := 400; corpo := Falha msg_obrigatoria None |}, colecao m, [])
  end.

(** *** Listings *)

(** A document under [select('-dadosCompletos -dadosFipe')]. *)
Record Item : Type := {
  i_placa : jsstring;
  i_marca : option jsstring;
  i_modelo : option jsstring;
  i_ano : option jsstring;
  i_anoModelo : option jsstring;
  i_cor : option jsstring;
  i_chassi : option jsstring;
  i_renavam : option jsstring;
  i_uf : option jsstring;
  i_municipio : option jsstring;
  i_situacao : option jsstring;
  i_valorFipe : option jsstring;
  i_valorFipeScore : option Q;
  i_mensagemRetorno : option jsstring;
  i_dataConsulta : Z
}.

Definition resumir (d : Documento) : Item :=
  {| i_placa := placa (veiculo d); i_marca := marca (veiculo d);
     i_modelo := modelo (veiculo d); i_ano := ano (veiculo d);
     i_anoModelo := anoModelo (veiculo d); i_cor := cor (veiculo d);
     i_chassi := chassi (veiculo d); i_renavam := renavam (veiculo d);
     i_uf := uf (veiculo d); i_municipio := municipio (veiculo d);
     i_situacao := situacao (veiculo d); i_valorFipe := valorFipe (veiculo d);
     i_valorFipeScore := valorFipeScore (veiculo d);
     i_mensagemRetorno := mensagemRetorno (veiculo d);
     i_dataConsulta := dataConsulta d |}.

(** The numbers of the [pagination] object: an integer, [NaN] or
    [Infinity]. *)
Inductive Numero : Type :=
| Num (z : Z)
| NaN
| Infinity.

Record Paginacao : Type := {
  page : Numero;
  limit : Numero;
  total : nat;
  totalPages : Numero
}.

Inductive RespostaLista : Type :=
| ListaFalha (r : Resposta)
| ListaSucesso (data : list Item) (pagination : Paginacao).

(** [parseInt] on a query parameter; [None] is [NaN]. *)
Variable parseInt : jsstring -> option Z.

(** The order in which the store hands out documents under
    [sort({ dataConsulta: -1 })]. *)
Variable ordenar : list Documento -> list Documento.

(** What the store does with a limit below 1, a negative skip or [NaN]. *)
Variable cursor_irregular :
  list Documento -> option Z -> option Z -> result jsstring (list Documento).

Definition numero (n : option Z) : Numero :=
  match n with
  | Some z => Num z
  | None => NaN
  end.

(** [Math.ceil(total / limitNum)] *)
Definition Math_ceil_div (t : nat) (limitNum : option Z) : Numero :=
  match limitNum with
  | None => NaN
  | Some l =>
      if l =? 0 then (if Nat.eqb t 0 then NaN else Infinity)
      else Num (- ((- Z.of_nat t) / l))
  end.

(** [Vehicle.find(query).sort({ dataConsulta: -1 }).limit(limitNum).skip(skip)]:
    the store skips first and limits after, however the calls are chained. *)
Definition buscar_pagina (m : Mundo) (filtro : Documento -> bool)
  (limitNum skip : option Z) : result jsstring (list Documento) :=
  match falha_leitura m with
  | Some msg => Throw msg
  | None =>
      let achados := ordenar (filter filtro (colecao m)) in
      match limitNum, skip with
      | Some l, Some k =>
          if (1 <=? l) && (0 <=? k)
          then Ok (firstn (Z.to_nat l) (skipn (Z.to_nat k) achados))
          else cursor_irregular achados limitNum skip
      | _, _ => cursor_irregular achados limitNum skip
      end
  end.

(** The common body of [historico] and [listarConsultas]; [padrao] is the
    default of [limit].  A store error goes to [next(error)]. *)
Definition listar (m : Mundo) (filtro : Documento -> bool) (padrao : Z)
  (limit_q page_q : option jsstring) : RespostaLista :=
  let limitNum := match limit_q with
                  | Some s => parseInt s
                  | None => Some padrao
                  end in
  let pageNum := match page_q with
                 | Some s => parseInt s
                 | None => Some 1
                 end in
  let skip := match pageNum, limitNum with
              | Some pg, Some l => Some ((pg - 1) * l)
              | _, _ => None
              end in
  match buscar_pagina m filtro limitNum skip with
  | Throw msg => ListaFalha (middleware (Repassado msg None))
  | Ok consultas =>
      let total := List.length (filter filtro (colecao m)) in
      ListaSucesso (map resumir consultas)
        {| page := numero pageNum; limit := numero limitNum; total := total;
           totalPages := Math_ceil_div total limitNum |}
  end.

(** The filter [{ placa: placa.toUpperCase() }] of [find] and
    [countDocuments], cast by the schema. *)
Definition da_placa (p : jsstring) (d : Documento) : bool :=
  jsstring_eqb (placa (veiculo d)) (chave p).

(** [historico(req, res, next)] *)
Definition historico (m : Mundo) (p : jsstring)
  (limit_q page_q : option jsstring) : RespostaLista :=
  listar m (da_placa p) 10 limit_q page_q.

(** [listarConsultas(req, res, next)] *)
Definition listarConsultas (m : Mundo)
  (limit_q page_q placa_q : option jsstring) : RespostaLista :=
  let filtro := match placa_q with
                | Some ((_ :: _) as p) => da_placa p
                | _ => fun _ => true
                end in
  listar m filtro 20 limit_q page_q.

(** *** Statistics *)

Record Estatisticas : Type := {
  totalConsultas : nat;
  placasUnicas : nat;
  consultasHoje : nat;
  consultasUltimos7Dias : nat
}.

Inductive RespostaEstatisticas : Type :=
| EstatisticasFalha (r : Resposta)
| EstatisticasSucesso (data : Estatisticas).

(** [estatisticas(req, res, next)].  [meia_noite] is
    [new Date().setHours(0, 0, 0, 0)], the local midnight before the
    request, and [agora7] the [Date.now()] of line 195. *)
Definition estatisticas (m : Mundo) (meia_noite agora7 : Z)
  : RespostaEstatisticas :=
  match falha_leitura m with
  | Some msg => EstatisticasFalha (middleware (Repassado msg None))
  | None =>
      let col := colecao m in
      EstatisticasSucesso
        {| totalConsultas := List.length col;
           placasUnicas :=
             List.length (nodup (list_eq_dec N.eq_dec)
                            (map (fun d => placa (veiculo d)) col));
           consultasHoje :=
             List.length (filter (fun d => meia_noite <=? dataConsulta d) col);
           consultasUltimos7Dias :=
             List.length (filter (fun d => agora7 - 7 * um_dia <=? dataConsulta d)
                            col) |}
  end.

End Controlador.

End Consulta.

(* ================================================================== *)
(** ** Reference definitions and concrete inputs *)
(* ================================================================== *)

Module Referencia.

Import Olx.

Local Open Scope N_scope.

(** The built-ins on ASCII text: case mapping moves the 26 letters,
    canonical decomposition changes nothing. *)
Definition is_ascii (c : N) : bool := c <? 128.

Definition lower_unit (c : N) : N := if is_upper c then c + 32 else c.
Definition upper_unit (c : N) : N := if is_lower c then c - 32 else c.

Definition ascii_lower (s : jsstring) : jsstring := map lower_unit s.
Definition ascii_upper (s : jsstring) : jsstring := map upper_unit s.
Definition ascii_nfd (s : jsstring) : jsstring := s.

Definition lowercase_em_ascii (f : jsstring -> jsstring) : Prop :=
  forall s, forallb is_ascii s = true -> f s = ascii_lower s.

Definition nfd_em_ascii (f : jsstring -> jsstring) : Prop :=
  forall s, forallb is_ascii s = true -> f s = s.

(** [s] ends with [suf]. *)
Definition termina_com (s suf : jsstring) : bool :=
  starts_with (rev suf) (rev s).

(** The normalisation as the specification words it: lowercase, decompose,
    drop the marks, drop what is outside [[a-z0-9\s-]], whitespace to single
    hyphens, repeated hyphens to one, hyphens trimmed at both ends. *)
Definition apara_hifens (s : jsstring) : jsstring :=
  drop_end is_hyphen (drop_start is_hyphen s).

Definition normalizar_spec (lower nfd : jsstring -> jsstring) (texto : jsstring)
  : jsstring :=
  apara_hifens
    (troca_runs is_hyphen hyphen
       (troca_runs is_space hyphen
          (remove_class fora_de_slug
             (remove_class is_diacritic (nfd (lower texto)))))).

Definition gerarUrlOlx_spec (lower nfd : jsstring -> jsstring) (v : Veiculo)
  : option jsstring :=
  if truthy (marca v) && truthy (modelo v) && truthy (anoModelo v) then
    match marca v, modelo v, anoModelo v with
    | Some ma, Some mo, Some an =>
        Some (olx_base ++ normalizar_spec lower nfd ma ++ [slash]
                ++ normalizar_spec lower nfd mo ++ [slash]
                ++ primeiro_segmento (trim an))
    | _, _, _ => None
    end
  else None.

(** Whether the first, or the last, character is a [p]-character. *)
Definition comeca_com (p : N -> bool) (s : jsstring) : bool :=
  match s with
  | c :: _ => p c
  | [] => false
  end.

Fixpoint acaba_com (p : N -> bool) (s : jsstring) : bool :=
  match s with
  | [] => false
  | c :: r =>
      match r with
      | [] => p c
      | _ :: _ => acaba_com p r
      end
  end.

(** The alphabet of a normalised text, and its shape. *)
Definition de_slug (c : N) : bool := is_lower c || is_digit c || is_hyphen c.

Fixpoint sem_hifen_duplo (s : jsstring) : bool :=
  match s with
  | c :: r =>
      match r with
      | d :: _ => negb (is_hyphen c && is_hyphen d) && sem_hifen_duplo r
      | [] => true
      end
  | [] => true
  end.

(** The vehicle of the specification's example. *)
Definition gol : Veiculo :=
  {| marca := Some (js "Volkswagen Gol");
     modelo := Some (js "1.0");
     anoModelo := Some (js "2015 Flex") |}.

(** *** Numbers *)

(** A number that is +0, a positive finite number or +Infinity; and one
    that is above zero. *)
Definition nao_negativo (x : number) : bool :=
  match x with
  | S754_zero false | S754_finite false _ _ | S754_infinity false => true
  | _ => false
  end.

Definition positivo (x : number) : bool :=
  match x with
  | S754_finite false _ _ | S754_infinity false => true
  | _ => false
  end.

Definition todos_positivos (l : list number) : Prop :=
  forall x, In x l -> positivo x = true.

(** The representative of a number among those equal to it: the two
    zeros are one value. *)
Definition canonico (x : number) : number :=
  match x with
  | S754_zero _ => mais_zero
  | _ => x
  end.

(** The prices of a summary as the specification words them: the positive
    prices, each kept where it first occurs. *)
Definition ja_visto (x : number) (vistos : list number) : bool :=
  existsb (mesmo_valor_zero x) vistos.

Definition acrescenta (vistos : list number) (x : number) : list number :=
  if ja_visto x vistos then vistos else vistos ++ [x].

Definition distintos (l : list number) : list number :=
  fold_left acrescenta l [].

Definition precos_do_resumo (precos : list number) : list number :=
  distintos (filter (fun p => menor mais_zero p) precos).

(** The sum of a list as a program takes it: from zero, one price after
    the other. *)
Inductive soma_ate : list number -> number -> Prop :=
| soma_nada : soma_ate [] mais_zero
| soma_mais l s x : soma_ate l s -> soma_ate (l ++ [x]) (num_add s x).

(** The arithmetic mean of a list on binary64 numbers. *)
Definition media_de (l : list number) (m : number) : Prop :=
  exists s, soma_ate l s /\ m = num_div s (inteiro (N.of_nat (List.length l))).

(** An amount as Brazilian currency text writes it: one to three digits,
    groups of a period and three digits, a comma and two digits; and the
    number nearest to the amount it denotes. *)
Definition grupos_texto (gs : list (N * N * N)) : jsstring :=
  flat_map (fun g => let '(a, b, c) := g in [period; a; b; c]) gs.

Definition grupos_digitos (gs : list (N * N * N)) : jsstring :=
  flat_map (fun g => let '(a, b, c) := g in [a; b; c]) gs.

Definition grupo_de_digitos (g : N * N * N) : bool :=
  let '(a, b, c) := g in is_digit a && is_digit b && is_digit c.

Definition quantia_br (cabeca : jsstring) (gs : list (N * N * N)) (c1 c2 : N)
  : jsstring :=
  cabeca ++ grupos_texto gs ++ [comma; c1; c2].

Definition valor_br (cabeca : jsstring) (gs : list (N * N * N)) (c1 c2 : N)
  : number :=
  numero_de (digits_val (cabeca ++ grupos_digitos gs) * 100
             + digits_val [c1; c2]) 100.

Definition uppercase_em_ascii (f : jsstring -> jsstring) : Prop :=
  forall s, forallb is_ascii s = true -> f s = ascii_upper s.

(** *** Plates *)

(** The two plate patterns as the specification words them: three letters
    and four digits; three letters, a digit, a letter or digit, and two
    digits. *)
Definition letra (c : N) : Prop := 65 <= c <= 90.         (* A to Z *)
Definition algarismo (c : N) : Prop := 48 <= c <= 57.     (* 0 to 9 *)

Inductive padrao_antigo : jsstring -> Prop :=
| placa_antiga l1 l2 l3 n1 n2 n3 n4 :
    letra l1 -> letra l2 -> letra l3 ->
    algarismo n1 -> algarismo n2 -> algarismo n3 -> algarismo n4 ->
    padrao_antigo [l1; l2; l3; n1; n2; n3; n4].

Inductive padrao_atual : jsstring -> Prop :=
| placa_atual l1 l2 l3 n1 x n2 n3 :
    letra l1 -> letra l2 -> letra l3 -> algarismo n1 ->
    letra x \/ algarismo x -> algarismo n2 -> algarismo n3 ->
    padrao_atual [l1; l2; l3; n1; x; n2; n3].

(** A text without its whitespace. *)
Fixpoint sem_espacos (s : jsstring) : jsstring :=
  match s with
  | [] => []
  | c :: r => if is_space c then sem_espacos r else c :: sem_espacos r
  end.

(** A plate is well-formed when, stripped of whitespace and uppercased, it
    matches one of the two patterns. *)
Definition bem_formada (upper : jsstring -> jsstring) (placa : jsstring) : Prop :=
  padrao_antigo (upper (sem_espacos placa))
  \/ padrao_atual (upper (sem_espacos placa)).

(** The same shapes with letters of either case. *)
Definition letra_qualquer (c : N) : Prop := letra c \/ 97 <= c <= 122.

Inductive forma_antiga : jsstring -> Prop :=
| de_forma_antiga l1 l2 l3 n1 n2 n3 n4 :
    letra_qualquer l1 -> letra_qualquer l2 -> letra_qualquer l3 ->
    algarismo n1 -> algarismo n2 -> algarismo n3 -> algarismo n4 ->
    forma_antiga [l1; l2; l3; n1; n2; n3; n4].

Inductive forma_atual : jsstring -> Prop :=
| de_forma_atual l1 l2 l3 n1 x n2 n3 :
    letra_qualquer l1 -> letra_qualquer l2 -> letra_qualquer l3 ->
    algarismo n1 -> letra_qualquer x \/ algarismo x ->
    algarismo n2 -> algarismo n3 ->
    forma_atual [l1; l2; l3; n1; x; n2; n3].

End Referencia.

(** *** Valuation candidates *)

Module ReferenciaFipe.

Import ApiPlacas.

Local Open Scope Q_scope.

(** [c] is the best candidate of [dados]: none scores more, and those in
    front of it score less. *)
Definition melhor_candidato (dados : list Candidato) (c : Candidato) : Prop :=
  exists antes depois,
    dados = antes ++ c :: depois
    /\ (forall x, In x antes -> score_ou_zero x < score_ou_zero c)
    /\ (forall x, In x depois -> score_ou_zero x <= score_ou_zero c).

(** The score of a candidate as the specification reads it: an absent
    score counts as 0. *)
Definition pontos (c : Candidato) : Q :=
  match score c with
  | Some q => q
  | None => 0
  end.

(** Descending score order. *)
Definition decrescente (l : list Candidato) : Prop :=
  StronglySorted (fun a b => pontos b <= pontos a) l.

(** The candidates of a given score, in the order they stand in. *)
Definition com_score (q : Q) (l : list Candidato) : list Candidato :=
  filter (fun c => Qeq_bool (pontos c) q) l.

Definition candidato (texto : string) (s : option Q) (resto : string)
  : Candidato :=
  {| texto_valor := Some (js texto); score := s; demais := js resto |}.

(** A provider response for plate ABC1234 with the given candidates. *)
Definition resposta (l : option (list Candidato)) : Dados :=
  {| d_placa := Some (js "ABC1234");
     d_marca := Some (js "VW");
     d_modelo := Some (js "GOL 1.0");
     d_ano := Some (js "2015");
     d_anoModelo := Some (js "2015");
     d_cor := Some (js "Prata");
     d_chassi := None;
     d_renavam := None;
     d_uf := Some (js "GO");
     d_municipio := None;
     d_situacao := None;
     d_mensagemRetorno := Some (js "Sem erros.");
     fipe_dados := l |}.

Definition tres_candidatos : list Candidato :=
  [ candidato "R$ 30.000,00" (Some (70 # 1)) "a";
    candidato "R$ 32.000,00" (Some (95 # 1)) "b";
    candidato "R$ 31.000,00" (Some (95 # 1)) "c" ].

Definition candidato_zero : Candidato :=
  candidato "R$ 10.000,00" (Some 0) "z".

Definition candidato_sem_texto : Candidato :=
  {| texto_valor := Some []; score := None; demais := js "v" |}.

Definition registro_tres : VeiculoData :=
  montar (js "ABC1234") (resposta (Some tres_candidatos)).

Definition sem_score : list Candidato := [candidato_sem_texto; candidato_zero].

(** Two candidates that the provider sends best first. *)
Definition ja_ordenados : list Candidato :=
  [ candidato "R$ 32.000,00" (Some (95 # 1)) "b";
    candidato "R$ 30.000,00" (Some (70 # 1)) "a" ].

Definition registro_sem_score : VeiculoData :=
  montar (js "ABC1234") (resposta (Some sem_score)).

(** A provider that answers every request with [d]. *)
Definition provedor_fixo (d : Dados)
  : jsstring -> result FalhaAxios (option Dados) :=
  fun _ => Ok (Some d).

Definition base_exemplo : jsstring := js "https://wdapi2.com.br".
Definition token_exemplo : jsstring := js "segredo".

End ReferenciaFipe.

(** *** Requests *)

Module ReferenciaConsulta.

Import ApiPlacas Consulta ReferenciaFipe.

Local Open Scope Z_scope.

Definition resposta_de (r : Resposta * list Documento * list Evento) : Resposta :=
  fst (fst r).

Definition log_de (r : Resposta * list Documento * list Evento) : list Evento :=
  snd r.

(** The lookup client was invoked. *)
Definition chamou_api (log : list Evento) : bool :=
  existsb (fun e => match e with EvConsultaApi _ => true | _ => false end) log.

(** The same world with another store behaviour. *)
Definition com_leitura (m : Mundo) (f : option jsstring) : Mundo :=
  {| colecao := colecao m; falha_leitura := f;
     falha_escrita := falha_escrita m; agora := agora m;
     agora_gravacao := agora_gravacao m; carimbo := carimbo m;
     provedor := provedor m |}.

Definition com_escrita (m : Mundo) (f : option jsstring) : Mundo :=
  {| colecao := colecao m; falha_leitura := falha_leitura m;
     falha_escrita := f; agora := agora m;
     agora_gravacao := agora_gravacao m; carimbo := carimbo m;
     provedor := provedor m |}.

Definition com_colecao (m : Mundo) (col : list Documento) : Mundo :=
  {| colecao := col; falha_leitura := falha_leitura m;
     falha_escrita := falha_escrita m; agora := agora m;
     agora_gravacao := agora_gravacao m; carimbo := carimbo m;
     provedor := provedor m |}.

(** The three kinds of answer. *)
Definition resposta_cache (m : Mundo) (d : Documento) : Resposta :=
  {| status := 200;
     corpo := Sucesso {| r_veiculo := veiculo d;
                         r_dataConsulta := Some (dataConsulta d);
                         fonte := cache |} (carimbo m) |}.

Definition resposta_api (m : Mundo) (v : VeiculoData) : Resposta :=
  {| status := 200;
     corpo := Sucesso {| r_veiculo := v; r_dataConsulta := None; fonte := api |}
                      (carimbo m) |}.

Definition resposta_sem_placa : Resposta :=
  {| status := 400; corpo := Falha msg_obrigatoria (Some msg_orientacao) |}.

Definition resposta_formato_invalido : Resposta :=
  {| status := 500; corpo := Falha msg_formato None |}.

(** [d] is the most recent document of the collection for a plate. *)
Definition o_mais_recente (col : list Documento) (p : jsstring) (d : Documento)
  : Prop :=
  In d col /\ placa (veiculo d) = p
  /\ (forall d', In d' col -> placa (veiculo d') = p ->
                 dataConsulta d' <= dataConsulta d).

Definition hora : Z := 60 * 60 * 1000.

(** A world at time [t] whose store holds one record for ABC1234, queried
    at [quando], and whose provider answers with a candidate-free response. *)
Definition registro_antigo : VeiculoData :=
  montar (js "ABC1234") (resposta None).

Definition mundo_com_registro (t quando : Z) : Mundo :=
  {| colecao := [ {| veiculo := registro_antigo; dataConsulta := quando |} ];
     falha_leitura := None;
     falha_escrita := None;
     agora := t;
     agora_gravacao := t;
     carimbo := js "2024-01-02T00:00:00.000Z";
     provedor := provedor_fixo (resposta (Some tres_candidatos)) |}.

Definition mundo_vazio : Mundo :=
  com_colecao (mundo_com_registro 1704153600000 0) [].

Definition colecao_de (r : Resposta * list Documento * list Evento)
  : list Documento :=
  snd (fst r).

(** The tag of a successful answer. *)
Definition fonte_de (r : Resposta) : option Fonte :=
  match corpo r with
  | Sucesso data _ => Some (fonte data)
  | Falha _ _ => None
  end.

(** The same world at another time. *)
Definition com_agora (m : Mundo) (t : Z) : Mundo :=
  {| colecao := colecao m; falha_leitura := falha_leitura m;
     falha_escrita := falha_escrita m; agora := t;
     agora_gravacao := t; carimbo := carimbo m;
     provedor := provedor m |}.

(** *** Listings *)

Definition dados_da (r : RespostaLista) : list Item :=
  match r with
  | ListaSucesso d _ => d
  | ListaFalha _ => []
  end.

Definition paginas_da (r : RespostaLista) : nat :=
  match r with
  | ListaSucesso _ pg =>
      match totalPages pg with
      | Num z => Z.to_nat z
      | _ => O
      end
  | ListaFalha _ => O
  end.

(** [parseInt] on a text of decimal digits, and [NaN] on the rest of the
    texts it is used on here. *)
Definition parseInt_decimal (s : jsstring) : option Z :=
  if forallb (fun c => c <? 256)%N s then
    match NilZero.uint_of_string (string_of_list_ascii (map ascii_of_N s)) with
    | Some u => Some (Z.of_N (N.of_uint u))
    | None => None
    end
  else None.

(** Latest first, documents of the same date in the order they were
    stored. *)
Fixpoint insere_por_data (d : Documento) (l : list Documento) : list Documento :=
  match l with
  | [] => [d]
  | e :: r =>
      if dataConsulta e <=? dataConsulta d then d :: l
      else e :: insere_por_data d r
  end.

Fixpoint ordenar_por_data (l : list Documento) : list Documento :=
  match l with
  | [] => []
  | d :: r => insere_por_data d (ordenar_por_data r)
  end.

Definition sem_cursor_irregular
  : list Documento -> option Z -> option Z -> result jsstring (list Documento) :=
  fun _ _ _ => Throw (js "cursor").

(** A store with 25 records of ABC1234, queried at the instants 1 to 25. *)
Definition mundo_de_25 : Mundo :=
  com_colecao (mundo_com_registro (30 * hora) 0)
    (map (fun k => {| veiculo := registro_antigo; dataConsulta := Z.of_nat k |})
         (seq 1 25)).

(** The empty-store world one hour after a plain lookup of abc1234 in it. *)
Definition mundo_uma_hora_depois : Mundo :=
  com_agora
    (com_colecao mundo_vazio
       (colecao_de (consultar Referencia.ascii_upper base_exemplo token_exemplo
                      mundo_vazio (Some (js "abc1234")))))
    (agora mundo_vazio + hora).

End ReferenciaConsulta.

(* ================================================================== *)
(** ** Facts: numbers *)
(* ================================================================== *)

Module NumeroFatos.

Import Referencia.

Local Open Scope Z_scope.

Lemma iter_pos_inv {A} (P : A -> Prop) (f : A -> A) :
  (forall x, P x -> P (f x)) -> forall n x, P x -> P (SpecFloat.iter_pos f n x).
Proof.
  intros Hf. induction n as [n IH|n IH|]; intros x Hx; cbn [SpecFloat.iter_pos].
  - apply IH, IH, Hf, Hx.
  - apply IH, IH, Hx.
  - apply Hf, Hx.
Qed.

Lemma shr_1_nao_negativo mrs : 0 <= shr_m mrs -> 0 <= shr_m (shr_1 mrs).
Proof.
  destruct mrs as [m r s]. cbn [shr_m]. intros H.
  destruct m as [|[p|p|]|p]; cbn; lia.
Qed.

Lemma shr_nao_negativo mrs e n : 0 <= shr_m mrs -> 0 <= shr_m (fst (shr mrs e n)).
Proof.
  intros H. unfold shr. destruct n as [|p|p]; cbn [fst]; try exact H.
  apply (iter_pos_inv (fun x => 0 <= shr_m x)); [apply shr_1_nao_negativo|exact H].
Qed.

Lemma shr_fexp_nao_negativo m e l :
  0 <= m -> 0 <= shr_m (fst (shr_fexp prec emax m e l)).
Proof.
  intros H. unfold shr_fexp. apply shr_nao_negativo.
  destruct l as [|[| |]]; exact H.
Qed.

Lemma round_nearest_even_nao_negativo m l : 0 <= m -> 0 <= round_nearest_even m l.
Proof.
  intros H. unfold round_nearest_even.
  destruct l as [|[| |]]; try destruct (Z.even m); lia.
Qed.

Lemma binary_round_aux_nao_negativo m e l :
  0 <= m -> nao_negativo (binary_round_aux prec emax false m e l) = true.
Proof.
  intros H. unfold binary_round_aux.
  pose proof (shr_fexp_nao_negativo m e l H) as H1.
  destruct (shr_fexp prec emax m e l) as [mrs' e']. cbn [fst] in H1.
  pose proof (shr_fexp_nao_negativo _ e' loc_Exact
                (round_nearest_even_nao_negativo _ (loc_of_shr_record mrs') H1)) as H2.
  destruct (shr_fexp prec emax _ e' loc_Exact) as [mrs'' e'']. cbn [fst] in H2.
  destruct (shr_m mrs'') as [|p|p]; [reflexivity| |lia].
  destruct (e'' <=? emax - prec); reflexivity.
Qed.

Lemma numero_de_nao_negativo n d : nao_negativo (numero_de n d) = true.
Proof.
  unfold numero_de. destruct n as [|p]; [reflexivity|].
  unfold SFdiv_core_binary.
  set (m' := match _ with Z0 => Zpos p | Zpos _ => _ | Zneg _ => 0 end).
  assert (Hm : 0 <= m').
  { unfold m'. destruct (_ - _ - _) as [|s|s]; try lia.
    apply Z.shiftl_nonneg. lia. }
  pose proof (Z.div_pos m' (Zpos d) Hm eq_refl) as Hq.
  unfold Z.div in Hq. destruct (Z.div_eucl m' (Zpos d)) as [q r].
  apply binary_round_aux_nao_negativo, Hq.
Qed.

Lemma nao_negativo_verdadeiro x :
  nao_negativo x = true -> verdadeiro x = true -> positivo x = true.
Proof. destruct x as [[|]|[|]| |[|] m e]; cbn; congruence. Qed.

Lemma positivo_menor x : positivo x = true <-> menor mais_zero x = true.
Proof. destruct x as [[|]|[|]| |[|] m e]; cbn; split; congruence. Qed.

(** The order on positive numbers. *)
Lemma compara_positivos a b :
  positivo a = true -> positivo b = true ->
  exists c, SFcompare a b = Some c.
Proof.
  destruct a as [[|]|[|]| |[|] m e]; cbn; try discriminate;
  destruct b as [[|]|[|]| |[|] m' e']; cbn; try discriminate; eauto.
Qed.

Lemma nao_menor_positivos a b :
  positivo a = true -> positivo b = true ->
  menor b a = false -> menor_ou_igual a b = true.
Proof.
  unfold menor, menor_ou_igual, SFltb, SFleb.
  destruct a as [[|]|[|]| |[|] m e]; cbn; try discriminate;
  destruct b as [[|]|[|]| |[|] m' e']; cbn; try discriminate; try reflexivity.
  intros _ _. rewrite (Z.compare_antisym e e').
  destruct (e ?= e') eqn:E; cbn; try reflexivity; try discriminate.
  rewrite !Pos.compare_cont_spec. cbn. rewrite (Pos.compare_antisym m m').
  destruct (m ?= m')%positive; cbn; congruence.
Qed.

Lemma menor_menor_ou_igual a b : menor a b = true -> menor_ou_igual a b = true.
Proof.
  unfold menor, menor_ou_igual, SFltb, SFleb.
  destruct (SFcompare a b) as [[| |]|]; congruence.
Qed.

Lemma menor_ou_igual_refl a : positivo a = true -> menor_ou_igual a a = true.
Proof.
  unfold menor_ou_igual, SFleb.
  destruct a as [[|]|[|]| |[|] m e]; cbn; try discriminate; try reflexivity.
  intros _. rewrite Z.compare_refl, Pos.compare_cont_spec. cbn.
  rewrite Pos.compare_refl. reflexivity.
Qed.

Lemma menor_ou_igual_trans a b c :
  positivo a = true -> positivo b = true -> positivo c = true ->
  menor_ou_igual a b = true -> menor_ou_igual b c = true ->
  menor_ou_igual a c = true.
Proof.
  unfold menor_ou_igual, SFleb.
  destruct a as [[|]|[|]| |[|] m1 e1]; cbn; try discriminate;
  destruct b as [[|]|[|]| |[|] m2 e2]; cbn; try discriminate;
  destruct c as [[|]|[|]| |[|] m3 e3]; cbn; try discriminate; try reflexivity.
  intros _ _ _. rewrite !Pos.compare_cont_spec. cbn.
  destruct (Z.compare_spec e1 e2), (Z.compare_spec e2 e3), (Z.compare_spec e1 e3);
    try discriminate; try reflexivity; try lia;
  destruct (Pos.compare_spec m1 m2), (Pos.compare_spec m2 m3), (Pos.compare_spec m1 m3);
    try discriminate; try reflexivity; try lia.
Qed.

Lemma positivo_nao_negativo x : positivo x = true -> nao_negativo x = true.
Proof. destruct x as [[|]|[|]| |[|] m e]; cbn; congruence. Qed.

(** SameValueZero is the equality of the representatives. *)
Lemma mesmo_valor_zero_canonico a b :
  mesmo_valor_zero a b = true <-> canonico a = canonico b.
Proof.
  unfold mesmo_valor_zero, SFeqb.
  destruct a as [[|]|[|]| |[|] m e]; destruct b as [[|]|[|]| |[|] m' e'];
    cbn; try (split; (reflexivity || discriminate));
    change (PosDef.Pos.compare_cont Eq m m') with (Pos.compare_cont Eq m m');
    rewrite Pos.compare_cont_spec; unfold Pos.switch_Eq;
    (destruct (Z.compare_spec e e') as [->|H|H];
     [destruct (Pos.compare_spec m m') as [->|H|H]|..]);
    cbn; split; try reflexivity; try discriminate;
    intros E; injection E; intros; subst; lia.
Qed.

Lemma mesmo_valor_zero_sim a b : mesmo_valor_zero a b = mesmo_valor_zero b a.
Proof.
  destruct (mesmo_valor_zero a b) eqn:E1, (mesmo_valor_zero b a) eqn:E2;
    try reflexivity.
  - apply mesmo_valor_zero_canonico in E1. symmetry in E1.
    apply mesmo_valor_zero_canonico in E1. congruence.
  - apply mesmo_valor_zero_canonico in E2. symmetry in E2.
    apply mesmo_valor_zero_canonico in E2. congruence.
Qed.

Lemma mesmo_valor_zero_positivo a b :
  positivo b = true -> mesmo_valor_zero a b = true -> a = b.
Proof.
  intros Hb H. apply mesmo_valor_zero_canonico in H.
  destruct a as [[|]|[|]| |[|] m e]; destruct b as [[|]|[|]| |[|] m' e'];
    unfold canonico, mais_zero in *; cbn in *; congruence.
Qed.

Lemma mesmo_valor_zero_refl a : mesmo_valor_zero a a = true.
Proof. apply mesmo_valor_zero_canonico. reflexivity. Qed.

Lemma menor_zero_canonico a b :
  canonico a = canonico b -> menor mais_zero a = menor mais_zero b.
Proof.
  destruct a as [[|]|[|]| |[|] m e]; destruct b as [[|]|[|]| |[|] m' e'];
    unfold canonico, mais_zero; cbn; intros H; try reflexivity; discriminate.
Qed.

End NumeroFatos.

(* ================================================================== *)
(** ** Facts: the price extractor *)
(* ================================================================== *)

Module OlxFatos.

Import Olx Referencia NumeroFatos.

Local Open Scope N_scope.

Lemma ate_n_digitos_cabeca n c r :
  is_digit c = true ->
  exists a b, ate_n_digitos (S n) (c :: r) = (c :: a, b).
Proof.
  intros Hc. simpl. rewrite Hc.
  destruct (ate_n_digitos n r) as [a b]. eauto.
Qed.

Lemma casa_aqui_digito c r :
  is_digit c = true -> exists m, casa_aqui (c :: r) = Some (c :: m).
Proof.
  intros Hc. unfold casa_aqui.
  destruct (ate_n_digitos_cabeca 2 c r Hc) as (a & b & E). rewrite E.
  destruct (grupos_milhar b) as [g r2]. simpl. eauto.
Qed.

Lemma casa_aqui_sem_digito s :
  match s with c :: _ => is_digit c = false | [] => True end ->
  casa_aqui s = None.
Proof.
  destruct s as [|c r]; intros H; unfold casa_aqui; simpl.
  - reflexivity.
  - rewrite H. reflexivity.
Qed.

Lemma casa_preco_sem_digito s :
  existsb is_digit s = false -> casa_preco s = None.
Proof.
  induction s as [|c r IH]; intros H.
  - reflexivity.
  - simpl in H. apply orb_false_iff in H. destruct H as [Hc Hr].
    cbn [casa_preco]. rewrite (casa_aqui_sem_digito (c :: r) Hc). auto.
Qed.

Lemma casa_preco_com_digito s :
  existsb is_digit s = true ->
  exists c m, casa_preco s = Some (c :: m) /\ is_digit c = true.
Proof.
  induction s as [|c r IH]; intros H.
  - discriminate.
  - simpl in H. destruct (is_digit c) eqn:Hc.
    + destruct (casa_aqui_digito c r Hc) as (m & E).
      exists c, m. cbn [casa_preco]. rewrite E. auto.
    + simpl in H. cbn [casa_preco].
      rewrite (casa_aqui_sem_digito (c :: r) Hc). auto.
Qed.

Lemma digito_nao_pontua c :
  is_digit c = true -> (c =? period) = false /\ (c =? comma) = false.
Proof.
  unfold is_digit, period, comma. intros H.
  apply andb_true_iff in H. destruct H as [H1 H2].
  apply N.leb_le in H1. split; apply N.eqb_neq; lia.
Qed.

Lemma parseFloat_digito c r :
  is_digit c = true -> exists n d, parseFloat (c :: r) = numero_de n d.
Proof.
  intros Hc. unfold parseFloat. simpl. rewrite Hc.
  destruct (span is_digit r) as [a b]. eauto.
Qed.

(** Whenever the grouped pattern matches, [parseFloat] is given a string
    that starts with a digit: it returns the number nearest to a fraction,
    never [NaN]. *)
Lemma extrairPreco_numero c m :
  is_digit c = true ->
  exists n d, parseFloat (troca_primeira_virgula
                            (remove_class (fun x => x =? period) (c :: m)))
              = numero_de n d.
Proof.
  intros Hc. destruct (digito_nao_pontua c Hc) as [Hp Hv].
  unfold remove_class. simpl. rewrite Hp. simpl. rewrite Hv.
  apply parseFloat_digito, Hc.
Qed.

Lemma limpo_mesmos_digitos t :
  existsb is_digit (remove_class fora_de_preco t) = existsb is_digit t.
Proof.
  unfold remove_class. induction t as [|c r IH]; simpl.
  - reflexivity.
  - unfold fora_de_preco at 1. rewrite negb_involutive.
    destruct (is_digit c) eqn:Hc; simpl.
    + rewrite Hc. reflexivity.
    + destruct ((c =? comma) || (c =? period) || (c =? hyphen)); simpl;
        rewrite ?Hc; simpl; exact IH.
Qed.

Lemma so_digitos_vazio t :
  existsb is_digit t = false ->
  remove_class (fun c => negb (is_digit c)) t = [].
Proof.
  unfold remove_class. induction t as [|c r IH]; simpl; intros H.
  - reflexivity.
  - apply orb_false_iff in H. destruct H as [Hc Hr]. rewrite Hc. simpl. auto.
Qed.

(** The extractor answers with a number exactly when the text holds a
    digit, and that number is not [NaN]; the plain-digits fallback of lines
    174 to 178 never yields one. *)
Lemma extrairPreco_total texto :
  match extrairPreco texto with
  | Some q => existsb is_digit texto = true /\ q <> S754_nan
  | None => existsb is_digit texto = false
  end.
Proof.
  destruct texto as [|c0 r0]; [reflexivity|].
  unfold extrairPreco. remember (c0 :: r0) as texto eqn:Et.
  pose proof (limpo_mesmos_digitos texto) as Hl.
  destruct (existsb is_digit texto) eqn:Hd.
  - destruct (casa_preco_com_digito _ Hl) as (c & m & E & Hc).
    rewrite E. destruct (extrairPreco_numero c m Hc) as (n & d & Eq).
    rewrite Eq. split; [reflexivity|].
    pose proof (numero_de_nao_negativo n d) as Hn.
    intros En. rewrite En in Hn. discriminate.
  - rewrite (casa_preco_sem_digito _ Hl), (so_digitos_vazio _ Hd). reflexivity.
Qed.

(** C1. On the specification's four inputs the extractor gives 50000 for
    "R$ 50.000,00" and no price for the empty text, but 500 for "5000000"
    and 123 for "R$ 123": the grouped pattern matches the first one to
    three digits of any text that holds a digit.  For every text the result
    is a number, and not [NaN], when the text holds a digit and no price
    otherwise. *)
Theorem extrairPreco_entradas_da_spec :
  (extrairPreco (js "R$ 50.000,00") = Some (inteiro 50000)
   /\ valor (inteiro 50000) = Some (50000 # 1))
  /\ (extrairPreco (js "5000000") = Some (inteiro 500)
      /\ valor (inteiro 500) = Some (500 # 1))
  /\ (extrairPreco (js "R$ 123") = Some (inteiro 123)
      /\ valor (inteiro 123) = Some (123 # 1))
  /\ extrairPreco (js "") = None
  /\ (forall texto,
        match extrairPreco texto with
        | Some q => existsb is_digit texto = true /\ q <> S754_nan
        | None => existsb is_digit texto = false
        end).
Proof.
  repeat split; try (vm_compute; reflexivity).
  apply extrairPreco_total.
Qed.

End OlxFatos.

(* ================================================================== *)
(** ** Facts: the URL builder *)
(* ================================================================== *)

Module UrlFatos.

Import Olx Referencia.

Local Open Scope N_scope.

(** *** Runs and reversal *)

Section Runs.

Variable p : N -> bool.
Variable por : N.

Lemma acaba_com_snoc s c : acaba_com p (s ++ [c]) = p c.
Proof.
  induction s as [|a r IH]; [reflexivity|].
  cbn [app acaba_com]. destruct (r ++ [c]) eqn:E.
  - destruct r; discriminate.
  - exact IH.
Qed.

Lemma acaba_com_rev s : acaba_com p (rev s) = comeca_com p s.
Proof.
  destruct s as [|a r]; [reflexivity|].
  cbn [rev comeca_com]. apply acaba_com_snoc.
Qed.

Lemma troca_runs_snoc s c :
  troca_runs p por (s ++ [c])
  = if p c then
      if acaba_com p s then troca_runs p por s else troca_runs p por s ++ [por]
    else troca_runs p por s ++ [c].
Proof.
  induction s as [|a r IH].
  - cbn. destruct (p c); reflexivity.
  - destruct r as [|d r'].
    + cbn. destruct (p a), (p c); reflexivity.
    + change ((a :: d :: r') ++ [c]) with (a :: (d :: r') ++ [c]).
      change (acaba_com p (a :: d :: r')) with (acaba_com p (d :: r')).
      change (troca_runs p por (a :: (d :: r') ++ [c]))
        with (if p a
              then if p d then troca_runs p por ((d :: r') ++ [c])
                   else por :: troca_runs p por ((d :: r') ++ [c])
              else a :: troca_runs p por ((d :: r') ++ [c])).
      change (troca_runs p por (a :: d :: r'))
        with (if p a
              then if p d then troca_runs p por (d :: r')
                   else por :: troca_runs p por (d :: r')
              else a :: troca_runs p por (d :: r')).
      rewrite IH.
      destruct (p a), (p d), (p c), (acaba_com p (d :: r')); reflexivity.
Qed.

Lemma troca_runs_rev s : troca_runs p por (rev s) = rev (troca_runs p por s).
Proof.
  induction s as [|a r IH]; [reflexivity|].
  cbn [rev]. rewrite troca_runs_snoc, acaba_com_rev, IH.
  destruct r as [|d r']; cbn [comeca_com troca_runs].
  - destruct (p a); reflexivity.
  - destruct (p a), (p d); cbn [rev]; reflexivity.
Qed.

(** *** Dropping at both ends *)

Lemma drop_start_vazio s : drop_start p s = [] <-> forallb p s = true.
Proof.
  induction s as [|a r IH]; cbn.
  - split; reflexivity.
  - destruct (p a); cbn; [exact IH|]. split; discriminate.
Qed.

Lemma drop_start_snoc s c :
  drop_start p (s ++ [c])
  = match drop_start p s with
    | [] => if p c then [] else [c]
    | t => t ++ [c]
    end.
Proof.
  induction s as [|a r IH]; cbn.
  - destruct (p c); reflexivity.
  - destruct (p a); [exact IH | reflexivity].
Qed.

Lemma drop_end_cons c s :
  drop_end p (c :: s)
  = match drop_end p s with
    | [] => if p c then [] else [c]
    | t => c :: t
    end.
Proof.
  unfold drop_end. cbn [rev]. rewrite drop_start_snoc.
  destruct (drop_start p (rev s)) as [|x t].
  - destruct (p c); reflexivity.
  - cbn [rev]. rewrite rev_app_distr. cbn.
    destruct (rev t ++ [x]) eqn:E; [destruct (rev t); discriminate|reflexivity].
Qed.

Lemma drop_end_vazio s : drop_end p s = [] -> drop_start p s = [].
Proof.
  unfold drop_end. intros H.
  assert (H' : drop_start p (rev s) = []).
  { destruct (drop_start p (rev s)) as [|x t]; [reflexivity|].
    cbn in H. destruct (rev t); discriminate. }
  apply drop_start_vazio in H'. apply drop_start_vazio.
  rewrite forallb_forall in *. intros x Hx. apply H', in_rev.
  rewrite rev_involutive. exact Hx.
Qed.

(** The two ends can be dropped in either order. *)
Lemma drop_comuta s :
  drop_start p (drop_end p s) = drop_end p (drop_start p s).
Proof.
  induction s as [|a r IH]; [reflexivity|].
  rewrite drop_end_cons. cbn [drop_start].
  destruct (p a) eqn:Ea.
  - destruct (drop_end p r) as [|x t] eqn:Er.
    + rewrite (drop_end_vazio r Er). reflexivity.
    + cbn [drop_start]. rewrite Ea. exact IH.
  - rewrite drop_end_cons.
    destruct (drop_end p r) as [|x t]; cbn [drop_start]; rewrite Ea; reflexivity.
Qed.

End Runs.

(** *** Hyphens *)

Local Notation "'H'" := (troca_runs is_hyphen hyphen).
Local Notation "'S'" := (troca_runs is_space hyphen).

(** Collapsing hyphen runs and dropping the leading hyphens commute, and
    after the collapse there is at most one hyphen to take off. *)
Lemma colapsa_apara_inicio w :
  drop_start is_hyphen (H w) = H (drop_start is_hyphen w)
  /\ tira_hifen_inicio (H w) = H (drop_start is_hyphen w).
Proof.
  induction w as [|c r [IH1 IH2]]; [split; reflexivity|].
  destruct r as [|d r'].
  - cbn. destruct (is_hyphen c) eqn:Ec; cbn; rewrite ?Ec; split; reflexivity.
  - change (H (c :: d :: r'))
      with (if is_hyphen c
            then if is_hyphen d then H (d :: r') else hyphen :: H (d :: r')
            else c :: H (d :: r')).
    cbn [drop_start]. destruct (is_hyphen c) eqn:Ec.
    + destruct (is_hyphen d) eqn:Ed.
      * cbn [drop_start] in IH1, IH2. rewrite Ed in IH1, IH2. split; assumption.
      * change (is_hyphen hyphen) with true. cbn [drop_start tira_hifen_inicio].
        change (is_hyphen hyphen) with true. cbn iota.
        cbn [drop_start] in IH1. rewrite Ed in IH1. split; [exact IH1|reflexivity].
    + cbn [drop_start tira_hifen_inicio]. rewrite Ec.
      change (H (c :: d :: r'))
        with (if is_hyphen c
              then if is_hyphen d then H (d :: r') else hyphen :: H (d :: r')
              else c :: H (d :: r')).
      rewrite Ec. split; reflexivity.
Qed.

Lemma colapsa_apara_fim w :
  drop_end is_hyphen (H w) = H (drop_end is_hyphen w)
  /\ tira_hifen_fim (H w) = H (drop_end is_hyphen w).
Proof.
  unfold drop_end, tira_hifen_fim.
  rewrite <- (troca_runs_rev is_hyphen hyphen w).
  destruct (colapsa_apara_inicio (rev w)) as [E1 E2].
  rewrite E1, E2, troca_runs_rev. split; reflexivity.
Qed.

(** A leading whitespace run only adds a leading hyphen. *)
Lemma espaco_na_frente c r :
  is_space c = true ->
  drop_start is_hyphen (S (c :: r)) = drop_start is_hyphen (S r).
Proof.
  intros Hc. destruct r as [|d r'].
  - cbn. rewrite Hc. reflexivity.
  - change (S (c :: d :: r'))
      with (if is_space c
            then if is_space d then S (d :: r') else hyphen :: S (d :: r')
            else c :: S (d :: r')).
    rewrite Hc. destruct (is_space d); reflexivity.
Qed.

Lemma trimStart_redundante x :
  drop_start is_hyphen (S (trimStart x)) = drop_start is_hyphen (S x).
Proof.
  unfold trimStart. induction x as [|c r IH]; [reflexivity|].
  cbn [drop_start]. destruct (is_space c) eqn:Ec; [|reflexivity].
  rewrite IH. symmetry. apply espaco_na_frente, Ec.
Qed.

Lemma trimEnd_redundante x :
  drop_end is_hyphen (S (trimEnd x)) = drop_end is_hyphen (S x).
Proof.
  unfold trimEnd, drop_end.
  rewrite <- !troca_runs_rev, rev_involutive.
  f_equal. apply (trimStart_redundante (rev x)).
Qed.

(** The [trim()] of line 50 changes nothing in the end. *)
Lemma trim_redundante x :
  apara_hifens (S (trim x)) = apara_hifens (S x).
Proof.
  unfold apara_hifens, trim.
  rewrite <- drop_comuta, trimEnd_redundante, drop_comuta, trimStart_redundante.
  reflexivity.
Qed.

Lemma pontas_do_colapso w : tira_hifens_pontas (H w) = H (apara_hifens w).
Proof.
  unfold tira_hifens_pontas, apara_hifens.
  rewrite (proj2 (colapsa_apara_inicio w)).
  apply (proj2 (colapsa_apara_fim _)).
Qed.

Lemma apara_do_colapso w : apara_hifens (H w) = H (apara_hifens w).
Proof.
  unfold apara_hifens.
  rewrite (proj1 (colapsa_apara_inicio w)).
  apply (proj1 (colapsa_apara_fim _)).
Qed.

(** *** The shape of a normalised text *)

Lemma comeca_colapso u : comeca_com is_hyphen (H u) = comeca_com is_hyphen u.
Proof.
  induction u as [|c r IH]; [reflexivity|].
  destruct r as [|d r'].
  - cbn. destruct (is_hyphen c) eqn:Ec; cbn; [reflexivity|exact Ec].
  - change (H (c :: d :: r'))
      with (if is_hyphen c
            then if is_hyphen d then H (d :: r') else hyphen :: H (d :: r')
            else c :: H (d :: r')).
    cbn [comeca_com] in *. destruct (is_hyphen c) eqn:Ec; [|exact Ec].
    destruct (is_hyphen d) eqn:Ed; [exact IH|reflexivity].
Qed.

Lemma sem_hifen_duplo_cons c s :
  sem_hifen_duplo (c :: s)
  = negb (is_hyphen c && comeca_com is_hyphen s) && sem_hifen_duplo s.
Proof.
  destruct s as [|d r]; cbn [sem_hifen_duplo comeca_com].
  - rewrite andb_false_r. reflexivity.
  - reflexivity.
Qed.

Lemma colapso_sem_duplo u : sem_hifen_duplo (H u) = true.
Proof.
  induction u as [|c r IH]; [reflexivity|].
  destruct r as [|d r'].
  - cbn. destruct (is_hyphen c); reflexivity.
  - change (H (c :: d :: r'))
      with (if is_hyphen c
            then if is_hyphen d then H (d :: r') else hyphen :: H (d :: r')
            else c :: H (d :: r')).
    destruct (is_hyphen c) eqn:Ec; [destruct (is_hyphen d) eqn:Ed|].
    + exact IH.
    + rewrite sem_hifen_duplo_cons, comeca_colapso, IH. cbn [comeca_com].
      rewrite Ed, andb_false_r. reflexivity.
    + rewrite sem_hifen_duplo_cons, IH, Ec. reflexivity.
Qed.

Lemma comeca_apos_drop q s : comeca_com q (drop_start q s) = false.
Proof.
  induction s as [|c r IH]; [reflexivity|].
  cbn [drop_start]. destruct (q c) eqn:E; [exact IH|]. cbn. exact E.
Qed.

Lemma pontas_aparadas w :
  comeca_com is_hyphen (apara_hifens w) = false
  /\ acaba_com is_hyphen (apara_hifens w) = false.
Proof.
  unfold apara_hifens. split.
  - rewrite <- drop_comuta. apply comeca_apos_drop.
  - unfold drop_end. rewrite acaba_com_rev. apply comeca_apos_drop.
Qed.

Lemma acaba_colapso u : acaba_com is_hyphen (H u) = acaba_com is_hyphen u.
Proof.
  rewrite <- (rev_involutive u) at 1.
  rewrite troca_runs_rev, !acaba_com_rev, comeca_colapso.
  rewrite <- acaba_com_rev, rev_involutive. reflexivity.
Qed.

Lemma forallb_drop_start (Q q : N -> bool) s :
  forallb Q s = true -> forallb Q (drop_start q s) = true.
Proof.
  induction s as [|c r IH]; [reflexivity|].
  intros Hs. cbn [drop_start]. destruct (q c); [|exact Hs].
  cbn in Hs. apply andb_true_iff in Hs. apply IH, Hs.
Qed.

Lemma forallb_rev (Q : N -> bool) s : forallb Q (rev s) = forallb Q s.
Proof.
  induction s as [|c r IH]; [reflexivity|].
  cbn [rev]. rewrite forallb_app, IH. cbn. rewrite andb_true_r. apply andb_comm.
Qed.

Lemma forallb_drop_end (Q q : N -> bool) s :
  forallb Q s = true -> forallb Q (drop_end q s) = true.
Proof.
  intros Hs. unfold drop_end. rewrite forallb_rev.
  apply forallb_drop_start. rewrite forallb_rev. exact Hs.
Qed.

Lemma forallb_troca_runs (Q q : N -> bool) por s :
  Q por = true ->
  forallb (fun c => q c || Q c) s = true ->
  forallb Q (troca_runs q por s) = true.
Proof.
  intros Hpor. induction s as [|c r IH]; [reflexivity|].
  intros Hs. cbn in Hs. apply andb_true_iff in Hs. destruct Hs as [Hc Hr].
  specialize (IH Hr). cbn [troca_runs]. destruct (q c) eqn:Eq.
  - destruct r as [|d r']; [cbn; rewrite Hpor; reflexivity|].
    destruct (q d); [exact IH|]. cbn [forallb]. rewrite Hpor. exact IH.
  - cbn [forallb]. cbn in Hc. rewrite Hc. exact IH.
Qed.

Lemma forallb_filtro_slug s :
  forallb (fun c => is_space c || de_slug c) (remove_class fora_de_slug s) = true.
Proof.
  unfold remove_class. apply forallb_forall. intros c Hc.
  apply filter_In in Hc. destruct Hc as [_ Hc].
  unfold fora_de_slug in Hc. rewrite negb_involutive in Hc.
  unfold de_slug.
  destruct (is_lower c), (is_digit c), (is_space c), (is_hyphen c);
    cbn in *; congruence.
Qed.

Section Normalizacao.

Variable toLowerCase : jsstring -> jsstring.
Variable normalizeNFD : jsstring -> jsstring.

(** The code's normalisation is the specification's. *)
Lemma normalizarTexto_spec c r :
  normalizarTexto toLowerCase normalizeNFD (c :: r)
  = normalizar_spec toLowerCase normalizeNFD (c :: r).
Proof.
  unfold normalizarTexto, normalizar_spec.
  rewrite pontas_do_colapso, apara_do_colapso, trim_redundante. reflexivity.
Qed.

Lemma forallb_enfraquece (Q q : N -> bool) s :
  forallb Q s = true -> forallb (fun c => q c || Q c) s = true.
Proof.
  intros Hs. apply forallb_forall. intros c Hc.
  rewrite forallb_forall in Hs. rewrite (Hs c Hc). apply orb_true_r.
Qed.

(** A normalised text is made of [[a-z0-9-]], without two hyphens in a row
    and without a hyphen at either end. *)
Lemma normalizarTexto_forma texto :
  forallb de_slug (normalizarTexto toLowerCase normalizeNFD texto) = true
  /\ sem_hifen_duplo (normalizarTexto toLowerCase normalizeNFD texto) = true
  /\ comeca_com is_hyphen (normalizarTexto toLowerCase normalizeNFD texto) = false
  /\ acaba_com is_hyphen (normalizarTexto toLowerCase normalizeNFD texto) = false.
Proof.
  destruct texto as [|c r]; [repeat split|].
  unfold normalizarTexto. rewrite pontas_do_colapso.
  set (t := trim _).
  destruct (pontas_aparadas (S t)) as [Hi Hf].
  split; [|split; [|split]].
  - apply forallb_troca_runs; [reflexivity|].
    apply forallb_enfraquece. unfold apara_hifens.
    apply forallb_drop_end, forallb_drop_start.
    apply forallb_troca_runs; [reflexivity|].
    subst t. unfold trim, trimEnd, trimStart.
    apply forallb_drop_end, forallb_drop_start, forallb_filtro_slug.
  - apply colapso_sem_duplo.
  - rewrite comeca_colapso. exact Hi.
  - rewrite acaba_colapso. exact Hf.
Qed.

Lemma gerarUrlOlx_refina v :
  gerarUrlOlx toLowerCase normalizeNFD v
  = gerarUrlOlx_spec toLowerCase normalizeNFD v.
Proof.
  unfold gerarUrlOlx, gerarUrlOlx_spec.
  destruct (marca v) as [[|c1 r1]|]; try reflexivity.
  destruct (modelo v) as [[|c2 r2]|]; try reflexivity.
  destruct (anoModelo v) as [[|c3 r3]|]; try reflexivity.
  cbn [truthy andb]. rewrite !normalizarTexto_spec. reflexivity.
Qed.

Lemma ascii_lower_ascii s :
  forallb is_ascii s = true -> forallb is_ascii (ascii_lower s) = true.
Proof.
  unfold ascii_lower. rewrite !forallb_forall. intros Hs c Hc.
  apply in_map_iff in Hc. destruct Hc as (x & <- & Hx).
  specialize (Hs x Hx). unfold lower_unit, is_upper, is_ascii in *.
  destruct ((65 <=? x) && (x <=? 90)) eqn:E; [|exact Hs].
  apply andb_true_iff in E. destruct E as [_ E]. apply N.leb_le in E.
  apply N.ltb_lt. lia.
Qed.

(** On ASCII text the built-ins can be replaced by their ASCII behaviour. *)
Lemma normalizarTexto_ascii texto :
  lowercase_em_ascii toLowerCase -> nfd_em_ascii normalizeNFD ->
  forallb is_ascii texto = true ->
  normalizarTexto toLowerCase normalizeNFD texto
  = normalizarTexto ascii_lower ascii_nfd texto.
Proof.
  intros Hl Hn Ha. destruct texto as [|c r]; [reflexivity|].
  unfold normalizarTexto, ascii_nfd.
  rewrite (Hl _ Ha), (Hn _ (ascii_lower_ascii _ Ha)). reflexivity.
Qed.

End Normalizacao.

Lemma span_spec (q : N -> bool) s :
  s = fst (span q s) ++ snd (span q s)
  /\ forallb q (fst (span q s)) = true
  /\ comeca_com q (snd (span q s)) = false.
Proof.
  induction s as [|c r (IH1 & IH2 & IH3)]; [repeat split|].
  cbn [span]. destruct (q c) eqn:E.
  - destruct (span q r) as [a b]. cbn [fst snd] in *.
    repeat split; [rewrite IH1 at 1; reflexivity | cbn; rewrite E; exact IH2 | exact IH3].
  - repeat split. cbn. exact E.
Qed.

(** C2, amended.  For make "Volkswagen Gol", model "1.0" and model-year
    "2015 Flex" the URL is the marketplace path followed by
    volkswagen-gol/10/2015: the period of the model is dropped.  In general
    the URL is built as the specification words it (lowercase, decompose,
    drop the marks, drop what is outside [[a-z0-9\s-]], whitespace to single
    hyphens, repeated hyphens to one, hyphens trimmed at both ends); make
    and model come out as [[a-z0-9-]] text without two hyphens in a row or a
    hyphen at an end; and the year is the text of the trimmed model-year
    field before its first whitespace or hyphen. *)
Theorem gerarUrlOlx_caminho (toLowerCase normalizeNFD : jsstring -> jsstring)
  (Hl : lowercase_em_ascii toLowerCase) (Hn : nfd_em_ascii normalizeNFD) :
  gerarUrlOlx toLowerCase normalizeNFD gol
  = Some (olx_base ++ js "volkswagen-gol/10/2015")
  /\ (forall v, gerarUrlOlx toLowerCase normalizeNFD v
               = gerarUrlOlx_spec toLowerCase normalizeNFD v)
  /\ (forall texto,
        forallb de_slug (normalizarTexto toLowerCase normalizeNFD texto) = true
        /\ sem_hifen_duplo (normalizarTexto toLowerCase normalizeNFD texto) = true
        /\ comeca_com is_hyphen (normalizarTexto toLowerCase normalizeNFD texto) = false
        /\ acaba_com is_hyphen (normalizarTexto toLowerCase normalizeNFD texto) = false)
  /\ (forall an,
        exists resto,
          trim an = primeiro_segmento (trim an) ++ resto
          /\ forallb (fun c => negb (is_sep c)) (primeiro_segmento (trim an)) = true
          /\ comeca_com (fun c => negb (is_sep c)) resto = false).
Proof.
  split; [|split; [|split]].
  - change (gerarUrlOlx toLowerCase normalizeNFD gol)
      with (Some (olx_base
                    ++ normalizarTexto toLowerCase normalizeNFD (js "Volkswagen Gol")
                    ++ [slash]
                    ++ normalizarTexto toLowerCase normalizeNFD (js "1.0")
                    ++ [slash] ++ primeiro_segmento (trim (js "2015 Flex")))).
    rewrite !(normalizarTexto_ascii toLowerCase normalizeNFD _ Hl Hn)
      by reflexivity.
    vm_compute. reflexivity.
  - apply gerarUrlOlx_refina.
  - apply normalizarTexto_forma.
  - intros an. exists (snd (span (fun c => negb (is_sep c)) (trim an))).
    apply span_spec.
Qed.

(** The URL of the specification's example, the built-ins taken on ASCII. *)
Lemma gerarUrlOlx_do_gol :
  gerarUrlOlx ascii_lower ascii_nfd gol
  = Some (olx_base ++ js "volkswagen-gol/10/2015")
  /\ (forall v, gerarUrlOlx ascii_lower ascii_nfd v
               = gerarUrlOlx_spec ascii_lower ascii_nfd v)
  /\ (forall texto,
        forallb de_slug (normalizarTexto ascii_lower ascii_nfd texto) = true
        /\ sem_hifen_duplo (normalizarTexto ascii_lower ascii_nfd texto) = true
        /\ comeca_com is_hyphen (normalizarTexto ascii_lower ascii_nfd texto) = false
        /\ acaba_com is_hyphen (normalizarTexto ascii_lower ascii_nfd texto) = false)
  /\ (forall an,
        exists resto,
          trim an = primeiro_segmento (trim an) ++ resto
          /\ forallb (fun c => negb (is_sep c)) (primeiro_segmento (trim an)) = true
          /\ comeca_com (fun c => negb (is_sep c)) resto = false).
Proof.
  apply (gerarUrlOlx_caminho ascii_lower ascii_nfd).
  - intros s _. reflexivity.
  - intros s _. reflexivity.
Defined.

(** C2 as stated fails on its own example: the URL does not end in
    volkswagen-gol/1-0/2015. *)
Lemma url_do_gol_nao_tem_1_0 :
  gerarUrlOlx ascii_lower ascii_nfd gol
  = Some (olx_base ++ js "volkswagen-gol/10/2015")
  /\ termina_com (olx_base ++ js "volkswagen-gol/10/2015")
                 (js "volkswagen-gol/1-0/2015") = false
  /\ termina_com (olx_base ++ js "volkswagen-gol/10/2015")
                 (js "volkswagen-gol/10/2015") = true.
Proof.
  repeat split; vm_compute; reflexivity.
Qed.

End UrlFatos.

(* ================================================================== *)
(** ** Facts: the price summary *)
(* ================================================================== *)

Module ResumoFatos.

Import Olx Referencia NumeroFatos.

Lemma filter_todos {A} (f : A -> bool) l :
  (forall x, In x l -> f x = true) -> filter f l = l.
Proof.
  induction l as [|a r IH]; intros H; [reflexivity|].
  cbn. rewrite (H a (or_introl eq_refl)). f_equal. apply IH.
  intros x Hx. apply H. now right.
Qed.

Lemma filter_comuta {A} (f g : A -> bool) l :
  filter f (filter g l) = filter g (filter f l).
Proof.
  induction l as [|a r IH]; [reflexivity|].
  cbn. destruct (g a) eqn:G, (f a) eqn:F; cbn; rewrite ?G, ?F, IH; reflexivity.
Qed.

Lemma filter_absorve {A} (f g : A -> bool) l :
  (forall y, f y = true -> g y = true) -> filter f (filter g l) = filter f l.
Proof.
  intros H. induction l as [|a r IH]; [reflexivity|].
  cbn. destruct (g a) eqn:G; cbn.
  - rewrite IH. reflexivity.
  - destruct (f a) eqn:F; [|exact IH]. rewrite (H a F) in G. discriminate.
Qed.

Lemma filter_e {A} (f g : A -> bool) l :
  filter f (filter g l) = filter (fun y => g y && f y) l.
Proof.
  induction l as [|a r IH]; [reflexivity|].
  cbn. destruct (g a); cbn; [destruct (f a)|]; rewrite IH; reflexivity.
Qed.

(** *** The array of a [Set] *)

Lemma unicos_In x l : In x (unicos l) -> In x l.
Proof.
  revert x. induction l as [|a r IH]; simpl; intros x H.
  - exact H.
  - destruct H as [H|H]; [now left|].
    apply filter_In in H. right. apply IH, H.
Qed.

Lemma unicos_NoDup l : NoDup (unicos l).
Proof.
  induction l as [|a r IH]; cbn [unicos]; constructor.
  - intros H. apply filter_In in H. destruct H as [_ H].
    rewrite mesmo_valor_zero_refl in H. discriminate.
  - apply NoDup_filter, IH.
Qed.

(** Every number of the list is in the array, up to the equality of the
    set. *)
Lemma unicos_cobre x l :
  In x l -> exists y, In y (unicos l) /\ canonico y = canonico x.
Proof.
  induction l as [|a r IH]; intros H; [destruct H|].
  destruct H as [->|H].
  - exists x. split; [now left|reflexivity].
  - destruct (IH H) as (y & Hy & Ey). cbn [unicos].
    destruct (mesmo_valor_zero a y) eqn:E.
    + exists a. split; [now left|].
      apply mesmo_valor_zero_canonico in E. congruence.
    + exists y. split; [|exact Ey]. right. apply filter_In.
      split; [exact Hy|]. rewrite E. reflexivity.
Qed.

(** A test that does not tell equal numbers apart can be made before or
    after the set. *)
Lemma unicos_filter (f : number -> bool) l :
  (forall a b, canonico a = canonico b -> f a = f b) ->
  unicos (filter f l) = filter f (unicos l).
Proof.
  intros Hf. induction l as [|x r IH]; [reflexivity|].
  cbn [filter unicos]. destruct (f x) eqn:Fx.
  - cbn [unicos]. rewrite IH. f_equal. apply filter_comuta.
  - rewrite IH. symmetry. apply filter_absorve.
    intros y Fy. destruct (mesmo_valor_zero x y) eqn:E; [|reflexivity].
    apply mesmo_valor_zero_canonico in E. rewrite (Hf x y E) in Fx. congruence.
Qed.

Lemma ja_visto_canonico x y acc :
  canonico x = canonico y -> ja_visto x acc = ja_visto y acc.
Proof.
  intros E. unfold ja_visto. induction acc as [|a r IH]; [reflexivity|].
  cbn. rewrite IH. f_equal.
  destruct (mesmo_valor_zero x a) eqn:E1, (mesmo_valor_zero y a) eqn:E2;
    try reflexivity.
  - apply mesmo_valor_zero_canonico in E1.
    assert (H : mesmo_valor_zero y a = true)
      by (apply mesmo_valor_zero_canonico; congruence).
    congruence.
  - apply mesmo_valor_zero_canonico in E2.
    assert (H : mesmo_valor_zero x a = true)
      by (apply mesmo_valor_zero_canonico; congruence).
    congruence.
Qed.

(** Adding the numbers to a set one by one keeps the first occurrences. *)
Lemma distintos_acumulado l : forall acc,
  fold_left acrescenta l acc
  = acc ++ filter (fun y => negb (ja_visto y acc)) (unicos l).
Proof.
  induction l as [|x r IH]; intros acc.
  - cbn. rewrite app_nil_r. reflexivity.
  - cbn [fold_left unicos filter]. unfold acrescenta at 2.
    destruct (ja_visto x acc) eqn:Ex; cbn [negb].
    + rewrite IH. f_equal. symmetry. apply filter_absorve.
      intros y Hy. destruct (mesmo_valor_zero x y) eqn:E; [|reflexivity].
      apply mesmo_valor_zero_canonico in E.
      rewrite (ja_visto_canonico x y acc E) in Ex. rewrite Ex in Hy. discriminate.
    + rewrite IH, <- app_assoc. cbn [app]. do 2 f_equal.
      rewrite filter_e. apply filter_ext. intros y.
      unfold ja_visto. rewrite existsb_app. cbn [existsb].
      rewrite orb_false_r, negb_orb, (mesmo_valor_zero_sim y x).
      apply andb_comm.
Qed.

Lemma distintos_unicos l : distintos l = unicos l.
Proof.
  unfold distintos. rewrite distintos_acumulado. cbn [app].
  apply filter_todos. reflexivity.
Qed.

(** The array the code builds is the list of the specification: the set
    first and the test after, or the test first and the set after. *)
Lemma precosUnicos_refina precos : precosUnicos precos = precos_do_resumo precos.
Proof.
  unfold precosUnicos, precos_do_resumo.
  rewrite distintos_unicos. symmetry. apply unicos_filter.
  intros a b. apply menor_zero_canonico.
Qed.

(** The prices of a summary are the positive prices, each once. *)
Lemma precos_do_resumo_spec precos :
  NoDup (precos_do_resumo precos)
  /\ (forall x, In x (precos_do_resumo precos)
                <-> In x precos /\ menor mais_zero x = true).
Proof.
  rewrite <- precosUnicos_refina. unfold precosUnicos. split.
  - apply NoDup_filter, unicos_NoDup.
  - intros x. rewrite filter_In. split.
    + intros [H1 H2]. split; [apply unicos_In, H1 | exact H2].
    + intros [H1 H2]. split; [|exact H2].
      destruct (unicos_cobre x precos H1) as (y & Hy & E).
      apply mesmo_valor_zero_canonico in E.
      apply positivo_menor in H2.
      rewrite (mesmo_valor_zero_positivo y x H2 E) in Hy. exact Hy.
Qed.

(** *** Least and greatest *)

Lemma Math_min2_positivos a b :
  positivo a = true -> positivo b = true ->
  Math_min2 a b = if menor b a then b else a.
Proof.
  destruct a as [[|]|[|]| |[|] m e]; try discriminate;
    destruct b as [[|]|[|]| |[|] m' e']; try discriminate; reflexivity.
Qed.

Lemma Math_max2_positivos a b :
  positivo a = true -> positivo b = true ->
  Math_max2 a b = if menor a b then b else a.
Proof.
  destruct a as [[|]|[|]| |[|] m e]; try discriminate;
    destruct b as [[|]|[|]| |[|] m' e']; try discriminate; reflexivity.
Qed.

(** [Math.min] returns a price of the list that is below all of them. *)
Lemma Math_min_spec ps : forall p,
  todos_positivos (p :: ps) ->
  In (Math_min p ps) (p :: ps)
  /\ (forall x, In x (p :: ps) -> menor_ou_igual (Math_min p ps) x = true).
Proof.
  unfold Math_min. induction ps as [|a r IH]; intros p Hpos; cbn [fold_left].
  - split; [now left|]. intros x [<-|[]].
    apply menor_ou_igual_refl, Hpos. now left.
  - assert (Hp : positivo p = true) by (apply Hpos; now left).
    assert (Ha : positivo a = true) by (apply Hpos; right; now left).
    assert (Hr : todos_positivos r) by (intros x Hx; apply Hpos; right; now right).
    rewrite (Math_min2_positivos p a Hp Ha).
    destruct (menor a p) eqn:E.
    + destruct (IH a) as [Hin Hle].
      { intros x [<-|Hx]; [exact Ha | apply Hr, Hx]. }
      split.
      * destruct Hin as [H|H]; [right; left; exact H | right; right; exact H].
      * assert (Hm : positivo (fold_left Math_min2 r a) = true).
        { destruct Hin as [<-|H]; [exact Ha | apply Hr, H]. }
        intros x [<-|[<-|H]].
        -- apply menor_ou_igual_trans with a; try assumption.
           ++ apply Hle. now left.
           ++ apply menor_menor_ou_igual, E.
        -- apply Hle. now left.
        -- apply Hle. now right.
    + destruct (IH p) as [Hin Hle].
      { intros x [<-|Hx]; [exact Hp | apply Hr, Hx]. }
      split.
      * destruct Hin as [H|H]; [left; exact H | right; right; exact H].
      * assert (Hm : positivo (fold_left Math_min2 r p) = true).
        { destruct Hin as [<-|H]; [exact Hp | apply Hr, H]. }
        intros x [<-|[<-|H]].
        -- apply Hle. now left.
        -- apply menor_ou_igual_trans with p; try assumption.
           ++ apply Hle. now left.
           ++ apply nao_menor_positivos; assumption.
        -- apply Hle. now right.
Qed.

Lemma Math_max_spec ps : forall p,
  todos_positivos (p :: ps) ->
  In (Math_max p ps) (p :: ps)
  /\ (forall x, In x (p :: ps) -> menor_ou_igual x (Math_max p ps) = true).
Proof.
  unfold Math_max. induction ps as [|a r IH]; intros p Hpos; cbn [fold_left].
  - split; [now left|]. intros x [<-|[]].
    apply menor_ou_igual_refl, Hpos. now left.
  - assert (Hp : positivo p = true) by (apply Hpos; now left).
    assert (Ha : positivo a = true) by (apply Hpos; right; now left).
    assert (Hr : todos_positivos r) by (intros x Hx; apply Hpos; right; now right).
    rewrite (Math_max2_positivos p a Hp Ha).
    destruct (menor p a) eqn:E.
    + destruct (IH a) as [Hin Hle].
      { intros x [<-|Hx]; [exact Ha | apply Hr, Hx]. }
      split.
      * destruct Hin as [H|H]; [right; left; exact H | right; right; exact H].
      * assert (Hm : positivo (fold_left Math_max2 r a) = true).
        { destruct Hin as [<-|H]; [exact Ha | apply Hr, H]. }
        intros x [<-|[<-|H]].
        -- apply menor_ou_igual_trans with a; try assumption.
           ++ apply menor_menor_ou_igual, E.
           ++ apply Hle. now left.
        -- apply Hle. now left.
        -- apply Hle. now right.
    + destruct (IH p) as [Hin Hle].
      { intros x [<-|Hx]; [exact Hp | apply Hr, Hx]. }
      split.
      * destruct Hin as [H|H]; [left; exact H | right; right; exact H].
      * assert (Hm : positivo (fold_left Math_max2 r p) = true).
        { destruct Hin as [<-|H]; [exact Hp | apply Hr, H]. }
        intros x [<-|[<-|H]].
        -- apply Hle. now left.
        -- apply menor_ou_igual_trans with p; try assumption.
           ++ apply nao_menor_positivos; assumption.
           ++ apply Hle. now left.
        -- apply Hle. now right.
Qed.

(** *** The mean *)

Lemma soma_snoc l x : soma (l ++ [x]) = num_add (soma l) x.
Proof. unfold soma. rewrite fold_left_app. reflexivity. Qed.

Lemma soma_ate_soma l : soma_ate l (soma l).
Proof.
  induction l as [|x l IH] using rev_ind.
  - constructor.
  - rewrite soma_snoc. constructor. exact IH.
Qed.

Lemma media_de_media l : media_de l (media l).
Proof. exists (soma l). split; [apply soma_ate_soma | reflexivity]. Qed.

(** The sum of a list is determined. *)
Lemma soma_ate_unica l : forall s, soma_ate l s -> s = soma l.
Proof.
  intros s H. induction H as [|l s x H IH]; [reflexivity|].
  rewrite soma_snoc, IH. reflexivity.
Qed.

Section Resumo.

Variable toLowerCase : jsstring -> jsstring.
Variable normalizeNFD : jsstring -> jsstring.
Variable Exn : Type.
Variable Html : Type.
Variable axios_get : jsstring -> result Exn Html.
Variable cartoes : Html -> result Exn (list jsstring).
Variable links : Html -> result Exn (list (jsstring * jsstring * jsstring)).
Variable elementos : Html -> result Exn (list jsstring).
Variable formatarPreco : number -> jsstring.

Local Notation "'url_de'" := (gerarUrlOlx toLowerCase normalizeNFD).
Local Notation "'coleta'" := (coletar cartoes links elementos).
Local Notation "'buscar'" :=
  (buscarPrecosOlx toLowerCase normalizeNFD axios_get cartoes links elementos
     formatarPreco).

(** C3. [buscarPrecosOlx] answers [null] or a summary and throws nothing.
    It answers [null] exactly when no URL can be built, when the request or
    the reading of the page throws, or when none of the prices read is
    positive.  Otherwise the summary is that of the positive prices, each
    taken once where it first occurs: the formatted least and greatest of
    them, their formatted mean (the prices added one after the other from
    zero, the sum divided by their number, on binary64 numbers), their
    number, and the URL that was fetched. *)
Theorem buscarPrecosOlx_resumo (v : Veiculo) :
  match buscar v with
  | None =>
      url_de v = None
      \/ (exists url, url_de v = Some url
           /\ ((exists e, axios_get url = Throw e)
               \/ (exists html, axios_get url = Ok html
                    /\ ((exists e, coleta html = Throw e)
                        \/ (exists precos, coleta html = Ok precos
                             /\ forall x, In x precos ->
                                          menor mais_zero x = false)))))
  | Some r =>
      exists url html precos l,
        url_de v = Some url /\ axios_get url = Ok html
        /\ coleta html = Ok precos
        /\ l = precos_do_resumo precos
        /\ l <> []
        /\ NoDup l
        /\ (forall x, In x l <-> In x precos /\ menor mais_zero x = true)
        /\ (exists menor_de_todos, In menor_de_todos l
             /\ (forall x, In x l -> menor_ou_igual menor_de_todos x = true)
             /\ menorPreco r = formatarPreco menor_de_todos)
        /\ (exists maior_de_todos, In maior_de_todos l
             /\ (forall x, In x l -> menor_ou_igual x maior_de_todos = true)
             /\ maiorPreco r = formatarPreco maior_de_todos)
        /\ (exists m, media_de l m /\ mediaPreco r = formatarPreco m)
        /\ quantidadeAnuncios r = List.length l
        /\ urlOlx r = url
  end.
Proof.
  unfold buscarPrecosOlx, buscarPrecosOlx_try.
  destruct (url_de v) as [url|] eqn:Eu; [|now left].
  destruct (axios_get url) as [html|e] eqn:Eg; simpl.
  2:{ right. exists url. split; [reflexivity|]. left. eauto. }
  destruct (coleta html) as [precos|e] eqn:Ec; simpl.
  2:{ right. exists url. split; [reflexivity|]. right. exists html.
      split; [exact Eg|]. left. eauto. }
  destruct (precos_do_resumo_spec precos) as (Hnd & Hin).
  rewrite precosUnicos_refina.
  destruct (precos_do_resumo precos) as [|p ps] eqn:Ep.
  - right. exists url. split; [reflexivity|]. right. exists html.
    split; [exact Eg|]. right. exists precos. split; [exact Ec|].
    intros x Hx. destruct (menor mais_zero x) eqn:E; [|reflexivity].
    destruct (proj2 (Hin x) (conj Hx E)).
  - exists url, html, precos, (p :: ps).
    assert (Hpos : todos_positivos (p :: ps)).
    { intros x Hx. apply positivo_menor, (proj1 (Hin x) Hx). }
    destruct (Math_min_spec ps p Hpos) as [Hmi Hml].
    destruct (Math_max_spec ps p Hpos) as [Hxi Hxl].
    split; [reflexivity|]. split; [exact Eg|]. split; [exact Ec|].
    split; [symmetry; exact Ep|]. split; [discriminate|]. split; [exact Hnd|].
    split; [exact Hin|]. split; [|split; [|split; [|split]]].
    + exists (Math_min p ps). auto.
    + exists (Math_max p ps). auto.
    + exists (media (p :: ps)). split; [apply media_de_media|reflexivity].
    + reflexivity.
    + reflexivity.
Qed.

End Resumo.

(** Two pages of two prices each with the same exact mean, 86352.395: the
    sums round differently, and so do the means. *)
Example media_de_duas_paginas :
  media [numero_de 8878154 100; numero_de 8392325 100]
  = S754_finite false 5934091399300382 (-36)
  /\ media [numero_de 1000079 100; inteiro 162704]
     = S754_finite false 5934091399300383 (-36).
Proof. split; vm_compute; reflexivity. Qed.

End ResumoFatos.

(* ================================================================== *)
(** ** Facts: the plate lookup client *)
(* ================================================================== *)

Module ApiPlacasFatos.

Import ApiPlacas Referencia ReferenciaFipe.

Local Open Scope Q_scope.

(** The key of the comparator is the score as the specification reads
    it. *)
Lemma score_ou_zero_pontos c : score_ou_zero c = pontos c.
Proof. reflexivity. Qed.

Lemma nao_depois_iff a b :
  nao_depois a b = true <-> score_ou_zero b <= score_ou_zero a.
Proof. apply Qle_bool_iff. Qed.

Lemma nao_depois_falso a b :
  nao_depois a b = false <-> score_ou_zero a < score_ou_zero b.
Proof.
  unfold nao_depois. split; intros H.
  - apply Qnot_le_lt. intros Hle. apply Qle_bool_iff in Hle. congruence.
  - destruct (Qle_bool _ _) eqn:E; [|reflexivity].
    apply Qle_bool_iff in E. exfalso. exact (Qlt_not_le _ _ H E).
Qed.

Lemma insere_perm a l : Permutation (a :: l) (insere a l).
Proof.
  induction l as [|b r IH]; simpl.
  - apply Permutation_refl.
  - destruct (nao_depois a b).
    + apply Permutation_refl.
    + apply perm_trans with (b :: a :: r); [apply perm_swap|].
      apply perm_skip, IH.
Qed.

Lemma sort_perm l : Permutation l (sort l).
Proof.
  induction l as [|a r IH]; simpl.
  - apply perm_nil.
  - apply perm_trans with (a :: sort r); [apply perm_skip, IH | apply insere_perm].
Qed.

Lemma insere_decrescente a l : decrescente l -> decrescente (insere a l).
Proof.
  unfold decrescente. induction 1 as [|b r Hr IH Hb]; simpl.
  - repeat constructor.
  - destruct (nao_depois a b) eqn:E.
    + apply nao_depois_iff in E. constructor; [constructor; assumption|].
      constructor; [exact E|].
      rewrite Forall_forall in *. intros x Hx.
      apply Qle_trans with (score_ou_zero b); [apply Hb, Hx | exact E].
    + apply nao_depois_falso in E. constructor; [exact IH|].
      rewrite Forall_forall in *. intros x Hx.
      apply (Permutation_in _ (Permutation_sym (insere_perm a r))) in Hx.
      destruct Hx as [<-|Hx]; [apply Qlt_le_weak, E | apply Hb, Hx].
Qed.

Lemma sort_decrescente l : decrescente (sort l).
Proof.
  induction l as [|a r IH]; simpl.
  - constructor.
  - apply insere_decrescente, IH.
Qed.

(** A list already in descending order is left as it is, and only such a
    list is. *)
Lemma sort_fixo l : sort l = l <-> decrescente l.
Proof.
  split.
  - intros <-. apply sort_decrescente.
  - unfold decrescente. induction 1 as [|a r Hr IH Ha]; simpl.
    + reflexivity.
    + rewrite IH. destruct r as [|b r']; [reflexivity|].
      simpl. inversion Ha as [|? ? Hab _]; subst.
      apply nao_depois_iff in Hab. rewrite Hab. reflexivity.
Qed.

(** The sort is stable: candidates of equal score keep their order. *)
Lemma insere_com_score q a l :
  com_score q (insere a l) = com_score q (a :: l).
Proof.
  unfold com_score. induction l as [|b r IH]; [reflexivity|].
  cbn [insere]. destruct (nao_depois a b) eqn:E; [reflexivity|].
  apply nao_depois_falso in E. rewrite !score_ou_zero_pontos in E.
  cbn [filter] in *. rewrite IH.
  destruct (Qeq_bool (pontos a) q) eqn:Ea;
    destruct (Qeq_bool (pontos b) q) eqn:Eb; try reflexivity.
  apply Qeq_bool_iff in Ea, Eb. rewrite Ea, Eb in E.
  exfalso. exact (Qlt_irrefl _ E).
Qed.

Lemma sort_estavel q l : com_score q (sort l) = com_score q l.
Proof.
  induction l as [|a r IH]; [reflexivity|].
  cbn [sort]. rewrite insere_com_score. unfold com_score in *.
  cbn [filter]. rewrite IH. reflexivity.
Qed.

(** The head of the sorted array is the best candidate. *)
Lemma sort_cabeca antes : forall c depois,
  (forall x, In x antes -> score_ou_zero x < score_ou_zero c) ->
  (forall x, In x depois -> score_ou_zero x <= score_ou_zero c) ->
  exists r, sort (antes ++ c :: depois) = c :: r.
Proof.
  induction antes as [|a l1 IH]; intros c depois H1 H2.
  - cbn [app sort].
    pose proof (sort_perm depois) as Hp.
    destruct (sort depois) as [|x r] eqn:E; [now exists []|].
    cbn [insere].
    assert (Hx : nao_depois c x = true).
    { apply nao_depois_iff, H2.
      apply (Permutation_in _ (Permutation_sym Hp)). now left. }
    rewrite Hx. eauto.
  - cbn [app sort].
    destruct (IH c depois) as (r & E).
    + intros x Hx. apply H1. now right.
    + exact H2.
    + rewrite E. cbn [insere].
      assert (Ha : nao_depois a c = false).
      { apply nao_depois_falso, H1. now left. }
      rewrite Ha. eauto.
Qed.

Lemma melhor_candidato_existe l :
  l <> [] -> exists c, melhor_candidato l c.
Proof.
  induction l as [|a r IH]; intros Hne; [congruence|].
  destruct r as [|b r'].
  - exists a, [], []. repeat split; intros x [].
  - destruct IH as (c & l1 & l2 & E & H1 & H2); [discriminate|].
    destruct (nao_depois a c) eqn:Eac.
    + apply nao_depois_iff in Eac.
      exists a, [], (b :: r'). split; [reflexivity|]. split; [intros x []|].
      intros x Hx. rewrite E in Hx. apply in_app_or in Hx.
      destruct Hx as [Hx|[<-|Hx]].
      * apply Qle_trans with (score_ou_zero c); [apply Qlt_le_weak, H1, Hx | exact Eac].
      * exact Eac.
      * apply Qle_trans with (score_ou_zero c); [apply H2, Hx | exact Eac].
    + apply nao_depois_falso in Eac.
      exists c, (a :: l1), l2. split; [rewrite E; reflexivity|].
      split; [|exact H2].
      intros x [<-|Hx]; [exact Eac | apply H1, Hx].
Qed.

Lemma melhor_candidato_cabeca l c :
  melhor_candidato l c -> exists r, sort l = c :: r.
Proof.
  intros (l1 & l2 & -> & H1 & H2). apply sort_cabeca; assumption.
Qed.

(** What [montar] reads off a response with candidates. *)
Lemma montar_com_candidatos pf data dados c r :
  fipe_dados data = Some dados -> sort dados = c :: r ->
  valorFipe (montar pf data) = or_null (texto_valor c)
  /\ valorFipeScore (montar pf data) = score_ou_null c
  /\ dadosFipe (montar pf data) = Some (sort dados)
  /\ fipe_dados (dadosCompletos (montar pf data)) = Some (sort dados).
Proof.
  intros Hd Hs. unfold montar, processaFipe. rewrite Hd.
  destruct dados as [|d0 ds]; [discriminate|].
  rewrite Hs. cbn. rewrite <- Hs. auto.
Qed.

(** *** The plate patterns *)

Lemma is_upper_letra c : is_upper c = true <-> letra c.
Proof.
  unfold is_upper, letra. rewrite andb_true_iff, !N.leb_le. reflexivity.
Qed.

Lemma is_digit_algarismo c : is_digit c = true <-> algarismo c.
Proof.
  unfold is_digit, algarismo. rewrite andb_true_iff, !N.leb_le. reflexivity.
Qed.

Lemma formatoAntigo_padrao s : formatoAntigo s = true <-> padrao_antigo s.
Proof.
  split.
  - destruct s as [|l1 [|l2 [|l3 [|n1 [|n2 [|n3 [|n4 [|x r]]]]]]]];
      try discriminate.
    cbn. rewrite !andb_true_iff.
    intros [[[[[[H1 H2] H3] H4] H5] H6] H7].
    constructor; (apply is_upper_letra || apply is_digit_algarismo); assumption.
  - intros H. destruct H as [l1 l2 l3 n1 n2 n3 n4 H1 H2 H3 H4 H5 H6 H7].
    cbn. apply is_upper_letra in H1, H2, H3.
    apply is_digit_algarismo in H4, H5, H6, H7.
    rewrite H1, H2, H3, H4, H5, H6, H7. reflexivity.
Qed.

Lemma formatoNovo_padrao s : formatoNovo s = true <-> padrao_atual s.
Proof.
  split.
  - destruct s as [|l1 [|l2 [|l3 [|n1 [|x [|n2 [|n3 [|y r]]]]]]]];
      try discriminate.
    cbn. rewrite !andb_true_iff, orb_true_iff.
    intros [[[[[[H1 H2] H3] H4] H5] H6] H7].
    constructor;
      try ((apply is_upper_letra || apply is_digit_algarismo); assumption).
    destruct H5 as [H5|H5];
      [left; apply is_upper_letra | right; apply is_digit_algarismo]; exact H5.
  - intros H. destruct H as [l1 l2 l3 n1 x n2 n3 H1 H2 H3 H4 H5 H6 H7].
    cbn. apply is_upper_letra in H1, H2, H3.
    apply is_digit_algarismo in H4, H6, H7.
    rewrite H1, H2, H3, H4, H6, H7.
    destruct H5 as [H5|H5];
      [apply is_upper_letra in H5 | apply is_digit_algarismo in H5];
      rewrite H5; cbn; rewrite ?orb_true_r; reflexivity.
Qed.

(** The validator accepts the texts of the two patterns, and no other. *)
Lemma validarPlaca_padroes s :
  validarPlaca s = true <-> padrao_antigo s \/ padrao_atual s.
Proof.
  unfold validarPlaca.
  rewrite orb_true_iff, formatoAntigo_padrao, formatoNovo_padrao. reflexivity.
Qed.

Lemma remove_espacos s : remove_class is_space s = sem_espacos s.
Proof.
  unfold remove_class. induction s as [|c r IH]; [reflexivity|].
  cbn. destruct (is_space c); cbn; rewrite IH; reflexivity.
Qed.

Lemma sem_espacos_ascii s :
  forallb is_ascii s = true -> forallb is_ascii (sem_espacos s) = true.
Proof.
  induction s as [|c r IH]; [reflexivity|].
  cbn. intros H. apply andb_true_iff in H. destruct H as [Hc Hr].
  destruct (is_space c); cbn; rewrite ?Hc; auto.
Qed.

Lemma letra_upper_unit c : letra (upper_unit c) <-> letra_qualquer c.
Proof.
  unfold upper_unit, letra_qualquer, letra, is_lower.
  destruct ((97 <=? c) && (c <=? 122))%N eqn:E.
  - apply andb_true_iff in E. destruct E as [E1 E2].
    apply N.leb_le in E1, E2. split; [intros _; right|]; lia.
  - apply andb_false_iff in E.
    split; [intros H; left; exact H|]. intros [H|H]; [exact H|].
    destruct E as [E|E]; apply N.leb_gt in E; lia.
Qed.

Lemma algarismo_upper_unit c : algarismo (upper_unit c) <-> algarismo c.
Proof.
  unfold upper_unit, algarismo, is_lower.
  destruct ((97 <=? c) && (c <=? 122))%N eqn:E; [|reflexivity].
  apply andb_true_iff in E. destruct E as [E1 E2].
  apply N.leb_le in E1, E2. lia.
Qed.

Lemma padrao_antigo_ascii_upper s :
  padrao_antigo (ascii_upper s) <-> forma_antiga s.
Proof.
  unfold ascii_upper. split.
  - intros H. inversion H as [l1 l2 l3 n1 n2 n3 n4 H1 H2 H3 H4 H5 H6 H7 E].
    destruct s as [|c1 [|c2 [|c3 [|c4 [|c5 [|c6 [|c7 [|c8 r]]]]]]]];
      try discriminate E.
    cbn in E. injection E as -> -> -> -> -> -> ->.
    constructor;
      (apply letra_upper_unit || apply algarismo_upper_unit); assumption.
  - intros H. destruct H as [l1 l2 l3 n1 n2 n3 n4 H1 H2 H3 H4 H5 H6 H7].
    cbn. constructor;
      (apply letra_upper_unit || apply algarismo_upper_unit); assumption.
Qed.

Lemma padrao_atual_ascii_upper s :
  padrao_atual (ascii_upper s) <-> forma_atual s.
Proof.
  unfold ascii_upper. split.
  - intros H. inversion H as [l1 l2 l3 n1 x n2 n3 H1 H2 H3 H4 H5 H6 H7 E].
    destruct s as [|c1 [|c2 [|c3 [|c4 [|c5 [|c6 [|c7 [|c8 r]]]]]]]];
      try discriminate E.
    cbn in E. injection E as -> -> -> -> -> -> ->.
    constructor;
      try ((apply letra_upper_unit || apply algarismo_upper_unit); assumption).
    destruct H5 as [H5|H5];
      [left; apply letra_upper_unit | right; apply algarismo_upper_unit];
      exact H5.
  - intros H. destruct H as [l1 l2 l3 n1 x n2 n3 H1 H2 H3 H4 H5 H6 H7].
    cbn. constructor;
      try ((apply letra_upper_unit || apply algarismo_upper_unit); assumption).
    destruct H5 as [H5|H5];
      [left; apply letra_upper_unit | right; apply algarismo_upper_unit];
      exact H5.
Qed.

Section ClienteFatos.

Variable toUpperCase : jsstring -> jsstring.
Variable baseURL : jsstring.
Variable token : jsstring.
Variable axios_get : jsstring -> result FalhaAxios (option Dados).

Local Notation "'consulta'" :=
  (consultarPlaca toUpperCase baseURL token axios_get).
Local Notation "'url_de'" :=
  (fun placa => url_consulta baseURL token (formatar toUpperCase placa)).

(** A lookup that succeeds passed the format check and built its record
    from the provider's response. *)
Lemma consultarPlaca_ok placa v :
  consulta placa = Ok v ->
  validarPlaca (formatar toUpperCase placa) = true
  /\ exists data, axios_get (url_de placa) = Ok (Some data)
                  /\ v = montar (formatar toUpperCase placa) data.
Proof.
  unfold consultarPlaca, consultarPlaca_try, axios_get_try.
  destruct (validarPlaca (formatar toUpperCase placa)); cbn; [|discriminate].
  destruct (axios_get _) as [[data|]|f]; cbn; try discriminate.
  intros H. split; [reflexivity|]. exists data. split; [reflexivity|].
  destruct (d_mensagemRetorno data) as [[|x m]|]; cbn in H;
    try (injection H as <-; reflexivity).
  destruct (jsstring_eqb _ _); cbn in H; [|discriminate].
  injection H as <-. reflexivity.
Qed.

Lemma consultarPlaca_campos placa data dados v c :
  axios_get (url_de placa) = Ok (Some data) ->
  fipe_dados data = Some dados ->
  consulta placa = Ok v ->
  melhor_candidato dados c ->
  valorFipe v = or_null (texto_valor c)
  /\ valorFipeScore v = score_ou_null c
  /\ dadosFipe v = Some (sort dados)
  /\ fipe_dados (dadosCompletos v) = Some (sort dados).
Proof.
  intros Hget Hd Hok Hbest.
  destruct (consultarPlaca_ok placa v Hok) as (_ & data' & Hget' & ->).
  rewrite Hget in Hget'. injection Hget' as <-.
  destruct (melhor_candidato_cabeca dados c Hbest) as (r & Hs).
  exact (montar_com_candidatos _ data dados c r Hd Hs).
Qed.

(** C4, amended.  When the provider's response holds a non-empty list of
    candidates, the record shows the text and the score of the candidate of
    greatest score, an absent score counting as 0 and the first in provider
    order winning a tie; an empty text and a score of 0 are shown as absent. *)
Theorem consultarPlaca_melhor_candidato placa data dados v
  (Hget : axios_get (url_de placa) = Ok (Some data))
  (Hd : fipe_dados data = Some dados)
  (Hne : dados <> [])
  (Hok : consulta placa = Ok v) :
  exists c, melhor_candidato dados c
    /\ valorFipe v = or_null (texto_valor c)
    /\ valorFipeScore v = score_ou_null c.
Proof.
  destruct (melhor_candidato_existe dados Hne) as (c & Hbest).
  exists c. split; [exact Hbest|].
  destruct (consultarPlaca_campos placa data dados v c Hget Hd Hok Hbest)
    as (H1 & H2 & _).
  auto.
Qed.

(** The format check decides the invalid-format error. *)
Lemma erro_de_formato_sse placa :
  consulta placa = Throw InvalidFormat
  <-> validarPlaca (formatar toUpperCase placa) = false.
Proof.
  unfold consultarPlaca, consultarPlaca_try, axios_get_try.
  destruct (validarPlaca (formatar toUpperCase placa)); cbn.
  - split; [|discriminate]. intros H. exfalso.
    destruct (axios_get _) as [[data|]|[st txt| |m st]]; cbn in H;
      try discriminate.
    destruct (d_mensagemRetorno data) as [[|x m]|]; cbn in H; try discriminate.
    destruct (jsstring_eqb _ _); cbn in H; discriminate.
  - split; reflexivity.
Qed.

(** C5. The validator accepts a text exactly when it is three letters and
    four digits, or three letters, a digit, a letter or digit and two
    digits.  The lookup fails with the invalid-format error exactly when
    the plate, stripped of whitespace and uppercased, is neither; for a
    plate of ASCII characters, exactly when its characters other than
    whitespace are of neither shape, letters taken in either case.  The
    validator accepts ABC1234 and ABC1D23 and rejects AB1234, ABCD123 and
    abc-1234. *)
Theorem consultarPlaca_formato_invalido placa :
  (forall s, validarPlaca s = true <-> padrao_antigo s \/ padrao_atual s)
  /\ (consulta placa = Throw InvalidFormat <-> ~ bem_formada toUpperCase placa)
  /\ (uppercase_em_ascii toUpperCase -> forallb is_ascii placa = true ->
      (consulta placa = Throw InvalidFormat
       <-> ~ (forma_antiga (sem_espacos placa)
              \/ forma_atual (sem_espacos placa))))
  /\ validarPlaca (js "ABC1234") = true
  /\ validarPlaca (js "ABC1D23") = true
  /\ validarPlaca (js "AB1234") = false
  /\ validarPlaca (js "ABCD123") = false
  /\ validarPlaca (js "abc-1234") = false.
Proof.
  assert (Hinv : consulta placa = Throw InvalidFormat
                 <-> ~ bem_formada toUpperCase placa).
  { rewrite erro_de_formato_sse. unfold bem_formada, formatar.
    rewrite remove_espacos, <- validarPlaca_padroes.
    destruct (validarPlaca _); split; congruence. }
  split; [exact validarPlaca_padroes|]. split; [exact Hinv|].
  split; [|repeat split; vm_compute; reflexivity].
  intros Hup Hascii. rewrite Hinv. unfold bem_formada.
  rewrite (Hup _ (sem_espacos_ascii placa Hascii)).
  rewrite padrao_antigo_ascii_upper, padrao_atual_ascii_upper. reflexivity.
Qed.

(** C9. When the best candidate has no score or a score of 0, the record's
    [valorFipeScore] is [null], and only then; when its text is missing or
    empty, [valorFipe] is [null], and only then. *)
Theorem consultarPlaca_zero_e_vazio_ausentes placa data dados v c
  (Hget : axios_get (url_de placa) = Ok (Some data))
  (Hd : fipe_dados data = Some dados)
  (Hok : consulta placa = Ok v)
  (Hbest : melhor_candidato dados c) :
  (valorFipeScore v = None
   <-> score c = None \/ exists q, score c = Some q /\ q == 0)
  /\ (valorFipe v = None
      <-> texto_valor c = None \/ texto_valor c = Some []).
Proof.
  destruct (consultarPlaca_campos placa data dados v c Hget Hd Hok Hbest)
    as (H1 & H2 & _).
  rewrite H1, H2. unfold score_ou_null, or_null, truthy. split.
  - destruct (score c) as [q|]; [|split; auto].
    destruct (Qeq_bool q 0) eqn:E.
    + apply Qeq_bool_iff in E. split; [|reflexivity]. intros _. right. eauto.
    + apply Qeq_bool_neq in E. split; [discriminate|].
      intros [H|(q' & H & Hz)]; [discriminate|]. injection H as <-. contradiction.
  - destruct (texto_valor c) as [[|x t]|]; split; auto; try discriminate.
    intros [H|H]; discriminate.
Qed.

(** C10, amended.  After a successful lookup on a response with a
    non-empty list of candidates, the list kept in [dadosFipe] is the array
    of the response itself, sorted where it stands: the same candidates, in
    descending score order (an absent score counting as 0), those of equal
    score in the order the provider gave.  It is in the provider's order
    exactly when that order was descending already. *)
Theorem consultarPlaca_dadosFipe_ordenado placa data dados v
  (Hget : axios_get (url_de placa) = Ok (Some data))
  (Hd : fipe_dados data = Some dados)
  (Hne : dados <> [])
  (Hok : consulta placa = Ok v) :
  exists l, dadosFipe v = Some l
    /\ fipe_dados (dadosCompletos v) = Some l
    /\ Permutation dados l
    /\ decrescente l
    /\ (forall q, com_score q l = com_score q dados)
    /\ (l = dados <-> decrescente dados).
Proof.
  destruct (melhor_candidato_existe dados Hne) as (c & Hbest).
  destruct (consultarPlaca_campos placa data dados v c Hget Hd Hok Hbest)
    as (_ & _ & H3 & H4).
  exists (sort dados). repeat split; auto.
  - apply sort_perm.
  - apply sort_decrescente.
  - intros q. apply sort_estavel.
  - apply sort_fixo.
  - apply sort_fixo.
Qed.

End ClienteFatos.

End ApiPlacasFatos.

(* ================================================================== *)
(** ** Facts: cache-or-fetch *)
(* ================================================================== *)

Module ConsultaFatos.

Import ApiPlacas Consulta Referencia ReferenciaFipe ReferenciaConsulta.

Local Open Scope Z_scope.

Lemma jsstring_eqb_eq a b : jsstring_eqb a b = true <-> a = b.
Proof.
  unfold jsstring_eqb. destruct (list_eq_dec N.eq_dec a b); split; congruence.
Qed.

Lemma mais_recente_fold r : forall d,
  In (fold_left mais_recente r d) (d :: r)
  /\ (forall x, In x (d :: r) -> dataConsulta x <= dataConsulta (fold_left mais_recente r d)).
Proof.
  induction r as [|a r IH]; intros d; cbn [fold_left].
  - split; [now left|]. intros x [<-|[]]. lia.
  - destruct (IH (mais_recente d a)) as [Hin Hle].
    assert (Hm : (mais_recente d a = d /\ dataConsulta a <= dataConsulta d)
                 \/ (mais_recente d a = a /\ dataConsulta d <= dataConsulta a)).
    { unfold mais_recente. destruct (dataConsulta d <? dataConsulta a) eqn:E.
      - right. apply Z.ltb_lt in E. split; [reflexivity|lia].
      - left. apply Z.ltb_ge in E. auto. }
    destruct Hm as [[E Hd]|[E Hd]]; rewrite E in *.
    + split.
      * destruct Hin as [H|H]; [left; exact H | right; right; exact H].
      * intros x [<-|[<-|H]].
        -- apply Hle. now left.
        -- specialize (Hle d (or_introl eq_refl)). lia.
        -- apply Hle. now right.
    + split.
      * destruct Hin as [H|H]; [right; left; exact H | right; right; exact H].
      * intros x [<-|[<-|H]].
        -- specialize (Hle a (or_introl eq_refl)). lia.
        -- apply Hle. now left.
        -- apply Hle. now right.
Qed.

Section ControladorFatos.

Variable toUpperCase : jsstring -> jsstring.
Variable baseURL : jsstring.
Variable token : jsstring.

Local Notation "'consultar_'" := (consultar toUpperCase baseURL token).
Local Notation "'consultarPlaca_'" := (consultarPlaca toUpperCase baseURL token).
Local Notation "'findLatest'" := (findLatestByPlaca toUpperCase).

(** [findLatestByPlaca] answers with the most recent document stored for
    the plate as the schema casts it, uppercased and trimmed, and with
    nothing only when there is none. *)
Lemma findLatestByPlaca_spec col p :
  match findLatest col p with
  | Some d => o_mais_recente col (chave toUpperCase p) d
  | None => forall d, In d col -> placa (veiculo d) <> chave toUpperCase p
  end.
Proof.
  unfold findLatestByPlaca.
  set (f := fun d => jsstring_eqb (placa (veiculo d)) (chave toUpperCase p)).
  destruct (filter f col) as [|d0 r] eqn:E.
  - intros d Hd Heq.
    assert (H : In d (filter f col)).
    { apply filter_In. split; [exact Hd|]. apply jsstring_eqb_eq, Heq. }
    rewrite E in H. exact H.
  - destruct (mais_recente_fold r d0) as [Hin Hle].
    rewrite <- E in Hin, Hle.
    apply filter_In in Hin. destruct Hin as [Hc Hp].
    repeat split.
    + exact Hc.
    + apply jsstring_eqb_eq, Hp.
    + intros d' Hd' Hp'. apply Hle, filter_In. split; [exact Hd'|].
      apply jsstring_eqb_eq, Hp'.
Qed.

(** The handler on a present plate, by cases on the fresh record. *)
Lemma consultar_casos m c r :
  consultar_ m (Some (c :: r))
  = match recente m (fst (ler_cache toUpperCase m (c :: r))) with
    | Some d => (resposta_cache m d, colecao m, snd (ler_cache toUpperCase m (c :: r)))
    | None =>
        match consultarPlaca_ (provedor m) (c :: r) with
        | Ok v =>
            (resposta_api m v, fst (gravar toUpperCase m v),
             snd (ler_cache toUpperCase m (c :: r)) ++ [EvConsultaApi (c :: r)]
               ++ snd (gravar toUpperCase m v))
        | Throw err =>
            (middleware err, colecao m,
             snd (ler_cache toUpperCase m (c :: r)) ++ [EvConsultaApi (c :: r)])
        end
    end.
Proof.
  unfold consultar.
  destruct (ler_cache toUpperCase m (c :: r)) as [cr log1]. cbn [fst snd].
  destruct (recente m cr) as [d|]; [reflexivity|].
  destruct (consultarPlaca_ (provedor m) (c :: r)) as [v|err]; [|reflexivity].
  destruct (gravar toUpperCase m v) as [col log2]. reflexivity.
Qed.

(** C6. With the store readable, a plain lookup looks at the most recent
    document stored for the plate, the plate of the request taken as the
    store takes it: uppercased and trimmed.  If there is one and it was
    queried less than 24 hours before now, it is the answer, tagged
    [cache], and the lookup client is not invoked; otherwise the client is
    invoked and its record is the answer, tagged [api].  A document of 23
    hours ago is served from the cache; one of 25 hours ago is not. *)
Theorem consultar_cache_ou_api m c r
  (Hleitura : falha_leitura m = None) :
  match findLatest (colecao m) (c :: r) with
  | Some d =>
      o_mais_recente (colecao m) (toUpperCase (trim (toUpperCase (c :: r)))) d
      /\ (agora m - dataConsulta d < um_dia ->
          resposta_de (consultar_ m (Some (c :: r))) = resposta_cache m d
          /\ chamou_api (log_de (consultar_ m (Some (c :: r)))) = false)
      /\ (um_dia <= agora m - dataConsulta d ->
          chamou_api (log_de (consultar_ m (Some (c :: r)))) = true
          /\ forall v, consultarPlaca_ (provedor m) (c :: r) = Ok v ->
                       resposta_de (consultar_ m (Some (c :: r))) = resposta_api m v)
      /\ (dataConsulta d = agora m - 23 * hora ->
          resposta_de (consultar_ m (Some (c :: r))) = resposta_cache m d)
      /\ (dataConsulta d = agora m - 25 * hora ->
          chamou_api (log_de (consultar_ m (Some (c :: r)))) = true)
  | None =>
      (forall d, In d (colecao m) ->
                 placa (veiculo d) <> toUpperCase (trim (toUpperCase (c :: r))))
      /\ chamou_api (log_de (consultar_ m (Some (c :: r)))) = true
      /\ forall v, consultarPlaca_ (provedor m) (c :: r) = Ok v ->
                   resposta_de (consultar_ m (Some (c :: r))) = resposta_api m v
  end.
Proof.
  pose proof (findLatestByPlaca_spec (colecao m) (c :: r)) as Hspec.
  rewrite consultar_casos. unfold ler_cache. rewrite Hleitura. cbn [fst snd].
  destruct (findLatest (colecao m) (c :: r)) as [d|].
  - assert (Hfresco : agora m - dataConsulta d < um_dia ->
                      recente m (Some d) = Some d).
    { intros H. unfold recente.
      destruct (agora m - um_dia <? dataConsulta d) eqn:E; [reflexivity|].
      apply Z.ltb_ge in E. lia. }
    assert (Hvelho : um_dia <= agora m - dataConsulta d ->
                     recente m (Some d) = None).
    { intros H. unfold recente.
      destruct (agora m - um_dia <? dataConsulta d) eqn:E; [|reflexivity].
      apply Z.ltb_lt in E. lia. }
    assert (Hapi : recente m (Some d) = None ->
              chamou_api (log_de
                (match recente m (Some d) with
                 | Some d0 => (resposta_cache m d0, colecao m, [])
                 | None =>
                     match consultarPlaca_ (provedor m) (c :: r) with
                     | Ok v => (resposta_api m v, fst (gravar toUpperCase m v),
                                [] ++ [EvConsultaApi (c :: r)] ++ snd (gravar toUpperCase m v))
                     | Throw err => (middleware err, colecao m,
                                     [] ++ [EvConsultaApi (c :: r)])
                     end
                 end)) = true).
    { intros ->. destruct (consultarPlaca_ (provedor m) (c :: r)); reflexivity. }
    split; [exact Hspec|]. split; [|split; [|split]].
    + intros H. rewrite (Hfresco H). split; reflexivity.
    + intros H. split; [apply Hapi, Hvelho, H|].
      intros v Hv. rewrite (Hvelho H), Hv. reflexivity.
    + intros H. rewrite Hfresco; [reflexivity|].
      unfold um_dia, hora in *. lia.
    + intros H. apply Hapi, Hvelho. unfold um_dia, hora in *. lia.
  - split; [exact Hspec|]. cbn [recente]. split.
    + destruct (consultarPlaca_ (provedor m) (c :: r)); reflexivity.
    + intros v ->. reflexivity.
Qed.

(** C7. A store failure on the cache read gives the answer of a cache
    miss, with the lookup client invoked; a store failure on the save leaves
    the answer as it is; and whatever the store does, the answer is the one
    for a missing plate, a cached record, the client's record, or the
    client's error through the middleware. *)
Theorem consultar_falhas_do_banco m p msg :
  resposta_de (consultar_ (com_leitura m (Some msg)) p)
  = resposta_de (consultar_ (com_colecao (com_leitura m None) []) p)
  /\ match p with
     | Some (_ :: _) =>
         chamou_api (log_de (consultar_ (com_leitura m (Some msg)) p)) = true
     | _ => True
     end
  /\ resposta_de (consultar_ (com_escrita m (Some msg)) p)
     = resposta_de (consultar_ (com_escrita m None) p)
  /\ match p with
     | Some ((_ :: _) as placa) =>
         (exists d, In d (colecao m) /\ falha_leitura m = None
                    /\ resposta_de (consultar_ m p) = resposta_cache m d)
         \/ (exists v, consultarPlaca_ (provedor m) placa = Ok v
                       /\ resposta_de (consultar_ m p) = resposta_api m v)
         \/ (exists err, consultarPlaca_ (provedor m) placa = Throw err
                         /\ resposta_de (consultar_ m p) = middleware err)
     | _ => resposta_de (consultar_ m p) = resposta_sem_placa
     end.
Proof.
  destruct p as [[|c r]|]; try (repeat split; reflexivity).
  rewrite !consultar_casos. split; [|split; [|split]].
  - cbn. destruct (consultarPlaca_ (provedor m) (c :: r)); reflexivity.
  - cbn. destruct (consultarPlaca_ (provedor m) (c :: r)); reflexivity.
  - change (ler_cache toUpperCase (com_escrita m (Some msg)) (c :: r))
      with (ler_cache toUpperCase m (c :: r)).
    change (ler_cache toUpperCase (com_escrita m None) (c :: r))
      with (ler_cache toUpperCase m (c :: r)).
    change (recente (com_escrita m (Some msg))) with (recente m).
    change (recente (com_escrita m None)) with (recente m).
    destruct (recente m (fst (ler_cache toUpperCase m (c :: r)))); [reflexivity|].
    cbn [provedor com_escrita].
    destruct (consultarPlaca_ (provedor m) (c :: r)); reflexivity.
  - destruct (recente m (fst (ler_cache toUpperCase m (c :: r)))) as [d|] eqn:Er.
    + left. exists d. unfold ler_cache in Er.
      destruct (falha_leitura m) as [x|]; [discriminate|].
      cbn [fst] in Er. unfold recente in Er.
      pose proof (findLatestByPlaca_spec (colecao m) (c :: r)) as Hs.
      destruct (findLatest (colecao m) (c :: r)) as [d'|]; [|discriminate].
      destruct (_ <? _); [|discriminate]. injection Er as <-.
      destruct Hs as (Hin & _). auto.
    + destruct (consultarPlaca_ (provedor m) (c :: r)) as [v|err] eqn:Ec.
      * right. left. exists v. auto.
      * right. right. exists err. auto.
Qed.

(** C8, amended.  A request with no plate is answered with status 400 and
    the guidance message.  A request whose plate fails the format check is
    not: it is answered from the cache when a fresh record is found, and
    otherwise with status 500 and the invalid-format message. *)
Theorem consultar_sem_placa_ou_malformada m c r
  (Hinv : validarPlaca (formatar toUpperCase (c :: r)) = false) :
  resposta_de (consultar_ m None) = resposta_sem_placa
  /\ resposta_de (consultar_ m (Some [])) = resposta_sem_placa
  /\ match recente m (fst (ler_cache toUpperCase m (c :: r))) with
     | Some d => resposta_de (consultar_ m (Some (c :: r))) = resposta_cache m d
     | None =>
         resposta_de (consultar_ m (Some (c :: r))) = resposta_formato_invalido
     end
  /\ status (resposta_de (consultar_ m (Some (c :: r)))) <> 400.
Proof.
  assert (Hc : consultarPlaca_ (provedor m) (c :: r) = Throw InvalidFormat).
  { apply (ApiPlacasFatos.erro_de_formato_sse
             toUpperCase baseURL token (provedor m) (c :: r)), Hinv. }
  split; [reflexivity|]. split; [reflexivity|].
  rewrite consultar_casos, Hc.
  destruct (recente m (fst (ler_cache toUpperCase m (c :: r)))); split;
    try reflexivity; cbn; discriminate.
Qed.

End ControladorFatos.

End ConsultaFatos.

(* ================================================================== *)
(** ** The theorems on concrete requests *)
(* ================================================================== *)

Module Exemplos.

Import ApiPlacas Consulta Referencia ReferenciaFipe ReferenciaConsulta.

(** Of three candidates scoring 70, 95 and 95, the record shows the second. *)
Lemma melhor_candidato_de_tres :
  exists c, melhor_candidato tres_candidatos c
    /\ valorFipe registro_tres = or_null (texto_valor c)
    /\ valorFipeScore registro_tres = score_ou_null c.
Proof.
  apply (ApiPlacasFatos.consultarPlaca_melhor_candidato
           ascii_upper base_exemplo token_exemplo
           (provedor_fixo (resposta (Some tres_candidatos)))
           (js "abc 1234") (resposta (Some tres_candidatos))
           tres_candidatos registro_tres).
  - reflexivity.
  - reflexivity.
  - discriminate.
  - vm_compute. reflexivity.
Defined.

(** C4 as stated fails on a best candidate of score 0: the record shows no
    score, not 0. *)
Lemma melhor_candidato_score_zero :
  consultarPlaca ascii_upper base_exemplo token_exemplo
    (provedor_fixo (resposta (Some [candidato_zero]))) (js "ABC1234")
  = Ok (montar (js "ABC1234") (resposta (Some [candidato_zero])))
  /\ melhor_candidato [candidato_zero] candidato_zero
  /\ score candidato_zero = Some (0 # 1)
  /\ valorFipeScore (montar (js "ABC1234") (resposta (Some [candidato_zero])))
     = None.
Proof.
  split; [vm_compute; reflexivity|]. split; [|split; reflexivity].
  exists [], []. repeat split; intros x [].
Qed.

(** The best of two candidates that have no score and a score of 0 is the
    first; it has an empty text: the record shows neither score nor text. *)
Lemma zero_e_vazio_ausentes_em_dois :
  (valorFipeScore registro_sem_score = None
   <-> score candidato_sem_texto = None
       \/ exists q, score candidato_sem_texto = Some q /\ (q == 0)%Q)
  /\ (valorFipe registro_sem_score = None
      <-> texto_valor candidato_sem_texto = None
          \/ texto_valor candidato_sem_texto = Some []).
Proof.
  apply (ApiPlacasFatos.consultarPlaca_zero_e_vazio_ausentes
           ascii_upper base_exemplo token_exemplo
           (provedor_fixo (resposta (Some sem_score)))
           (js "ABC1234") (resposta (Some sem_score))
           sem_score registro_sem_score candidato_sem_texto).
  - reflexivity.
  - reflexivity.
  - vm_compute. reflexivity.
  - exists [], [candidato_zero]. split; [reflexivity|]. split.
    + intros x [].
    + intros x [<-|[]]. apply Qle_refl.
Defined.

(** The plate abc-1234 is refused for its format; " abc 1d23 " is not. *)
Lemma formato_invalido_de_abc_1234 :
  consultarPlaca ascii_upper base_exemplo token_exemplo
    (provedor_fixo (resposta None)) (js "abc-1234") = Throw InvalidFormat
  /\ consultarPlaca ascii_upper base_exemplo token_exemplo
       (provedor_fixo (resposta None)) (js " abc 1d23 ") <> Throw InvalidFormat.
Proof.
  split.
  - destruct (ApiPlacasFatos.consultarPlaca_formato_invalido
                ascii_upper base_exemplo token_exemplo
                (provedor_fixo (resposta None)) (js "abc-1234"))
      as (_ & _ & H & _).
    apply H; [intros s _; reflexivity | reflexivity |].
    intros [F|F]; inversion F.
  - destruct (ApiPlacasFatos.consultarPlaca_formato_invalido
                ascii_upper base_exemplo token_exemplo
                (provedor_fixo (resposta None)) (js " abc 1d23 "))
      as (_ & _ & H & _).
    intros E. apply H in E; [|intros s _; reflexivity | reflexivity].
    apply E. right.
    change (sem_espacos (js " abc 1d23 ")) with (js "abc1d23").
    apply (de_forma_atual 97 98 99 49 100 50 51);
      unfold letra_qualquer, letra, algarismo; lia.
Defined.

(** C10 as stated fails on a list that the provider sends best first: the
    list kept is in the provider's order. *)
Lemma dadosFipe_na_ordem_do_provedor :
  consultarPlaca ascii_upper base_exemplo token_exemplo
    (provedor_fixo (resposta (Some ja_ordenados))) (js "ABC1234")
  = Ok (montar (js "ABC1234") (resposta (Some ja_ordenados)))
  /\ fipe_dados (resposta (Some ja_ordenados)) = Some ja_ordenados
  /\ dadosFipe (montar (js "ABC1234") (resposta (Some ja_ordenados)))
     = Some ja_ordenados.
Proof. repeat split; vm_compute; reflexivity. Qed.

(** The three candidates are kept as 95, 95, 70. *)
Lemma dadosFipe_ordenado_de_tres :
  exists l, dadosFipe registro_tres = Some l
    /\ fipe_dados (dadosCompletos registro_tres) = Some l
    /\ Permutation tres_candidatos l
    /\ decrescente l
    /\ (forall q, com_score q l = com_score q tres_candidatos)
    /\ (l = tres_candidatos <-> decrescente tres_candidatos).
Proof.
  apply (ApiPlacasFatos.consultarPlaca_dadosFipe_ordenado
           ascii_upper base_exemplo token_exemplo
           (provedor_fixo (resposta (Some tres_candidatos)))
           (js "abc 1234") (resposta (Some tres_candidatos))
           tres_candidatos registro_tres).
  - reflexivity.
  - reflexivity.
  - discriminate.
  - vm_compute. reflexivity.
Defined.

Local Open Scope Z_scope.

(** A record queried 23 hours ago is the answer, also to a request that
    pads the plate with a space, and the client is not invoked; with a
    record of 25 hours ago the client is invoked. *)
Lemma consultar_23_e_25_horas :
  (resposta_de (consultar ascii_upper base_exemplo token_exemplo
                  (mundo_com_registro (30 * hora) (7 * hora))
                  (Some (js " abc1234")))
   = resposta_cache (mundo_com_registro (30 * hora) (7 * hora))
       {| veiculo := registro_antigo; dataConsulta := 7 * hora |}
   /\ chamou_api (log_de (consultar ascii_upper base_exemplo token_exemplo
                            (mundo_com_registro (30 * hora) (7 * hora))
                            (Some (js " abc1234")))) = false)
  /\ chamou_api (log_de (consultar ascii_upper base_exemplo token_exemplo
                           (mundo_com_registro (30 * hora) (5 * hora))
                           (Some (js "abc1234")))) = true.
Proof.
  split.
  - destruct (ConsultaFatos.consultar_cache_ou_api
                ascii_upper base_exemplo token_exemplo
                (mundo_com_registro (30 * hora) (7 * hora))
                (N_of_ascii " ") (js "abc1234") eq_refl) as (_ & H & _).
    apply H. vm_compute. reflexivity.
  - destruct (ConsultaFatos.consultar_cache_ou_api
                ascii_upper base_exemplo token_exemplo
                (mundo_com_registro (30 * hora) (5 * hora))
                (N_of_ascii "a") (js "bc1234") eq_refl) as (_ & _ & _ & _ & H).
    apply H. vm_compute. reflexivity.
Defined.

(** C8 as stated fails on AB1234 with an empty store: the answer has status
    500. *)
Lemma consultar_placa_malformada_500 :
  validarPlaca (formatar ascii_upper (js "AB1234")) = false
  /\ resposta_de (consultar ascii_upper base_exemplo token_exemplo
                    mundo_vazio (Some (js "AB1234")))
     = {| status := 500; corpo := Falha msg_formato None |}.
Proof.
  split; vm_compute; reflexivity.
Qed.

(** With an empty store, no plate gives 400 and AB1234 gives 500. *)
Lemma sem_placa_400_malformada_500_no_vazio :
  resposta_de (consultar ascii_upper base_exemplo token_exemplo mundo_vazio None)
  = resposta_sem_placa
  /\ resposta_de (consultar ascii_upper base_exemplo token_exemplo
                    mundo_vazio (Some []))
     = resposta_sem_placa
  /\ resposta_de (consultar ascii_upper base_exemplo token_exemplo
                    mundo_vazio (Some (js "AB1234")))
     = resposta_formato_invalido
  /\ status (resposta_de (consultar ascii_upper base_exemplo token_exemplo
                            mundo_vazio (Some (js "AB1234")))) <> 400.
Proof.
  exact (ConsultaFatos.consultar_sem_placa_ou_malformada
           ascii_upper base_exemplo token_exemplo mundo_vazio
           (N_of_ascii "A") (js "B1234") eq_refl).
Defined.

End Exemplos.

(* ================================================================== *)
(** ** More facts: the price extractor and the scraper *)
(* ================================================================== *)

Module OlxMais.

Import Olx Referencia NumeroFatos OlxFatos ResumoFatos.

Local Open Scope N_scope.

Lemma extrairPreco_sem_digito t :
  existsb is_digit t = false -> extrairPreco t = None.
Proof.
  intros H. pose proof (extrairPreco_total t) as Ht.
  destruct (extrairPreco t); [destruct Ht; congruence|reflexivity].
Qed.

Lemma casa_preco_salta a b :
  existsb is_digit a = false -> casa_preco (a ++ b) = casa_preco b.
Proof.
  induction a as [|c r IH]; intros H; [reflexivity|].
  cbn in H. apply orb_false_iff in H. destruct H as [Hc Hr].
  cbn [app casa_preco].
  rewrite (casa_aqui_sem_digito (c :: r ++ b) Hc). apply IH, Hr.
Qed.

(** The plain-digits branch never decides: the extractor is the grouped
    pattern alone. *)
Lemma extrairPreco_so_padrao t :
  extrairPreco t
  = match casa_preco (remove_class fora_de_preco t) with
    | Some m => Some (parseFloat (troca_primeira_virgula
                                    (remove_class (fun c => c =? period) m)))
    | None => None
    end.
Proof.
  destruct t as [|c r]; [reflexivity|].
  unfold extrairPreco.
  destruct (casa_preco (remove_class fora_de_preco (c :: r))) as [m|] eqn:E;
    [reflexivity|].
  destruct (existsb is_digit (c :: r)) eqn:Hd.
  - pose proof (limpo_mesmos_digitos (c :: r)) as Hl. rewrite Hd in Hl.
    destruct (casa_preco_com_digito _ Hl) as (x & m & Em & _). congruence.
  - rewrite (so_digitos_vazio _ Hd). reflexivity.
Qed.

(** X1. Whatever stands before the first digit of a text is ignored:
    currency signs, letters, and also commas, periods and minus signs. *)
Theorem extrairPreco_ignora_prefixo pre s
  (Hpre : existsb is_digit pre = false) :
  extrairPreco (pre ++ s) = extrairPreco s.
Proof.
  rewrite !extrairPreco_so_padrao.
  unfold remove_class at 1. rewrite filter_app.
  fold (remove_class fora_de_preco pre). fold (remove_class fora_de_preco s).
  rewrite casa_preco_salta by (rewrite limpo_mesmos_digitos; exact Hpre).
  reflexivity.
Qed.

Lemma extrairPreco_ignora_prefixo_em_reais :
  existsb is_digit (js "-R$ ") = false
  /\ extrairPreco (js "-R$ " ++ js "1.500,00") = extrairPreco (js "1.500,00").
Proof.
  split; [reflexivity|].
  apply (extrairPreco_ignora_prefixo (js "-R$ ") (js "1.500,00")). reflexivity.
Defined.

Lemma parseFloat_forma s :
  parseFloat s = S754_nan \/ nao_negativo (parseFloat s) = true.
Proof.
  unfold parseFloat. destruct (span is_digit s) as [ip r].
  set (fp := match r with
             | c :: r' => if c =? period then fst (span is_digit r') else []
             | [] => []
             end).
  destruct ip, fp; try (right; apply numero_de_nao_negativo). now left.
Qed.

Lemma extrairPreco_forma texto q :
  extrairPreco texto = Some q -> nao_negativo q = true.
Proof.
  intros H. pose proof (extrairPreco_total texto) as Ht. rewrite H in Ht.
  destruct Ht as [_ Hn].
  assert (Hp : exists s, q = parseFloat s).
  { unfold extrairPreco in H. destruct texto as [|c r]; [discriminate|].
    destruct (casa_preco _) as [m|].
    - injection H as <-. eauto.
    - destruct (4 <=? _)%nat; [|discriminate]. injection H as <-. eauto. }
  destruct Hp as (s & ->).
  destruct (parseFloat_forma s) as [E|E]; [contradiction|exact E].
Qed.

Lemma nao_negativo_acima_de_zero q :
  nao_negativo q = true -> menor_ou_igual mais_zero q = true.
Proof. destruct q as [[|]|[|]| |[|] m e]; cbn; congruence. Qed.

(** X2. A price that the extractor returns is never negative: a minus sign
    in the text does not reach the number. *)
Theorem extrairPreco_nao_negativo texto q
  (H : extrairPreco texto = Some q) : menor_ou_igual mais_zero q = true.
Proof. apply nao_negativo_acima_de_zero, (extrairPreco_forma texto), H. Qed.

Lemma extrairPreco_nao_negativo_com_sinal :
  extrairPreco (js "R$ -1.500,00") = Some (inteiro 1500)
  /\ menor_ou_igual mais_zero (inteiro 1500) = true.
Proof.
  split; [vm_compute; reflexivity|].
  apply (extrairPreco_nao_negativo (js "R$ -1.500,00") (inteiro 1500)).
  vm_compute. reflexivity.
Defined.

Lemma digito_fica c : is_digit c = true -> fora_de_preco c = false.
Proof. intros H. unfold fora_de_preco. rewrite H. reflexivity. Qed.

(** X3. A text that starts with four digits in a row is read as the number
    made of its first three: the grouped pattern takes at most three digits
    and the digit that follows ends the match. *)
Theorem extrairPreco_quatro_digitos d1 d2 d3 d4 resto
  (H1 : is_digit d1 = true) (H2 : is_digit d2 = true)
  (H3 : is_digit d3 = true) (H4 : is_digit d4 = true) :
  extrairPreco (d1 :: d2 :: d3 :: d4 :: resto)
  = Some (inteiro (100 * digit_val d1 + 10 * digit_val d2 + digit_val d3)).
Proof.
  destruct (digito_nao_pontua d1 H1) as [P1 V1].
  destruct (digito_nao_pontua d2 H2) as [P2 V2].
  destruct (digito_nao_pontua d3 H3) as [P3 V3].
  destruct (digito_nao_pontua d4 H4) as [P4 V4].
  rewrite extrairPreco_so_padrao. unfold remove_class at 1. cbn [filter].
  rewrite !digito_fica by assumption. cbn [negb].
  set (l := filter _ resto).
  assert (Ec : casa_preco (d1 :: d2 :: d3 :: d4 :: l) = Some [d1; d2; d3]).
  { cbn [casa_preco]. unfold casa_aqui. cbn [ate_n_digitos].
    rewrite H1, H2, H3.
    assert (Eg : grupos_milhar (d4 :: l) = ([], d4 :: l)).
    { destruct l as [|a [|b [|c l']]]; cbn; rewrite ?P4; reflexivity. }
    rewrite Eg.
    assert (Ev : centavos (d4 :: l) = []).
    { destruct l as [|a [|b l']]; cbn; rewrite ?V4; reflexivity. }
    rewrite Ev. reflexivity. }
  rewrite Ec. unfold remove_class. cbn [filter]. rewrite P1, P2, P3. cbn [negb].
  cbn [troca_primeira_virgula]. rewrite V1, V2, V3.
  unfold parseFloat. cbn [span]. rewrite H1, H2, H3. cbn [fst snd List.length].
  unfold digits_val, inteiro. cbn [fold_left N.of_nat].
  f_equal. f_equal. lia.
Qed.

Lemma extrairPreco_quatro_digitos_em_50000 :
  extrairPreco (js "50000") = Some (inteiro 500).
Proof.
  exact (extrairPreco_quatro_digitos 53 48 48 48 [48]
           eq_refl eq_refl eq_refl eq_refl).
Defined.

Lemma preco_valido_positivo t p :
  preco_valido (extrairPreco t) = Some p -> menor mais_zero p = true.
Proof.
  unfold preco_valido. destruct (extrairPreco t) as [q|] eqn:E; [|discriminate].
  destruct (verdadeiro q) eqn:Ev; [|discriminate].
  intros H. injection H as <-.
  apply positivo_menor, nao_negativo_verdadeiro; [|exact Ev].
  exact (extrairPreco_forma t q E).
Qed.

Section Passos.

Variable Exn : Type.
Variable Html : Type.
Variable cartoes : Html -> result Exn (list jsstring).
Variable links : Html -> result Exn (list (jsstring * jsstring * jsstring)).
Variable elementos : Html -> result Exn (list jsstring).

Lemma passo_cartoes_positivo cs p :
  In p (passo_cartoes cs) -> menor mais_zero p = true.
Proof.
  unfold passo_cartoes. intros H. apply in_flat_map in H.
  destruct H as (t & _ & H). destruct (trim t) as [|c r]; [destruct H|].
  destruct (preco_valido _) as [q|] eqn:E; [|destruct H].
  destruct H as [<-|[]]. exact (preco_valido_positivo _ _ E).
Qed.

Lemma passo_links_positivo ls p :
  In p (passo_links ls) -> menor mais_zero p = true.
Proof.
  unfold passo_links. intros H. apply in_flat_map in H.
  destruct H as (t & _ & H).
  destruct (preco_valido _) as [q|] eqn:E; [|destruct H].
  destruct H as [<-|[]]. exact (preco_valido_positivo _ _ E).
Qed.

Lemma passo_elementos_faixa es :
  Forall (fun p => menor mais_zero p = true
                   /\ menor (inteiro 1000) p = true
                   /\ menor p (inteiro 10000000) = true)
         (passo_elementos es).
Proof.
  apply Forall_forall. intros p H. unfold passo_elementos in H.
  apply in_flat_map in H. destruct H as (t & _ & H).
  destruct (negb _ && _ && _); [|destruct H].
  destruct (preco_valido _) as [q|] eqn:Eq; [|destruct H].
  destruct (menor (inteiro 1000) q && menor q (inteiro 10000000)) eqn:E;
    [|destruct H].
  destruct H as [<-|[]]. apply andb_true_iff in E. destruct E as [E1 E2].
  split; [exact (preco_valido_positivo _ _ Eq)|]. split; assumption.
Qed.


(** X4. Every price the three passes collect is positive, so the filter on
    positive prices removes nothing: the unique positive prices are the
    distinct collected prices. *)
Theorem coletar_positivos html precos
  (H : coletar cartoes links elementos html = Ok precos) :
  Forall (fun p => menor mais_zero p = true) precos
  /\ precosUnicos precos = unicos precos.
Proof.
  assert (Hpos : forall p, In p precos -> menor mais_zero p = true).
  { unfold coletar, bind in H.
    destruct (cartoes html) as [cs|e]; [|discriminate].
    destruct (passo_cartoes cs) as [|p1 r1] eqn:E1.
    - destruct (links html) as [ls|e]; [|discriminate].
      destruct (passo_links ls) as [|p2 r2] eqn:E2.
      + destruct (elementos html) as [es|e]; [|discriminate].
        injection H as <-. intros p Hp.
        pose proof (passo_elementos_faixa es) as Hf.
        rewrite Forall_forall in Hf. destruct (Hf p Hp) as [Hlo _]. exact Hlo.
      + injection H as <-. intros p Hp. rewrite <- E2 in Hp.
        exact (passo_links_positivo _ _ Hp).
    - injection H as <-. intros p Hp. rewrite <- E1 in Hp.
      exact (passo_cartoes_positivo _ _ Hp). }
  split; [apply Forall_forall, Hpos|].
  unfold precosUnicos. apply filter_todos. intros x Hx.
  apply Hpos, unicos_In, Hx.
Qed.

End Passos.


Lemma coletar_positivos_em_dois_cartoes :
  Forall (fun p => menor mais_zero p = true) [inteiro 50000]
  /\ precosUnicos [inteiro 50000] = unicos [inteiro 50000].
Proof.
  apply (coletar_positivos unit unit
           (fun _ => Ok [js "R$ 50.000,00"; js "R$ 0,00"])
           (fun _ => Throw tt) (fun _ => Throw tt) tt).
  vm_compute. reflexivity.
Defined.

End OlxMais.

(* ================================================================== *)
(** ** More facts: the URL builder *)
(* ================================================================== *)

Module UrlMais.

Import Olx Referencia UrlFatos.

Local Open Scope N_scope.

Lemma de_slug_faixa c :
  de_slug c = true ->
  (97 <= c /\ c <= 122) \/ (48 <= c /\ c <= 57) \/ c = 45.
Proof.
  unfold de_slug, is_lower, is_digit, is_hyphen, hyphen. intros H.
  apply orb_true_iff in H. destruct H as [H|H].
  - apply orb_true_iff in H. destruct H as [H|H];
      apply andb_true_iff in H; destruct H as [H1 H2];
      apply N.leb_le in H1, H2; auto.
  - apply N.eqb_eq in H. auto.
Qed.

Lemma de_slug_classes c :
  de_slug c = true ->
  is_ascii c = true /\ lower_unit c = c /\ is_diacritic c = false
  /\ fora_de_slug c = false /\ is_space c = false.
Proof.
  intros H. pose proof (de_slug_faixa c H) as Hf.
  repeat split.
  - unfold is_ascii. apply N.ltb_lt. lia.
  - unfold lower_unit, is_upper.
    destruct ((65 <=? c) && (c <=? 90)) eqn:E; [|reflexivity].
    apply andb_true_iff in E. destruct E as [E1 E2].
    apply N.leb_le in E1, E2. lia.
  - unfold is_diacritic. apply andb_false_iff. left. apply N.leb_gt. lia.
  - unfold fora_de_slug. unfold de_slug in H.
    destruct (is_lower c), (is_digit c), (is_hyphen c), (is_space c);
      cbn in *; congruence.
  - unfold is_space.
    repeat (apply orb_false_iff; split);
      try (apply N.eqb_neq; lia);
      apply andb_false_iff;
      destruct (N.le_gt_cases 9 c) as [H9|H9];
      try (left; apply N.leb_gt; lia);
      try (right; apply N.leb_gt; lia).
Qed.

Lemma filtro_nada (cls : N -> bool) s :
  (forall c, In c s -> cls c = false) -> remove_class cls s = s.
Proof.
  unfold remove_class. induction s as [|a r IH]; intros H; [reflexivity|].
  cbn. rewrite (H a (or_introl eq_refl)). cbn. f_equal. apply IH.
  intros c Hc. apply H. now right.
Qed.

Lemma troca_runs_nada (q : N -> bool) por s :
  (forall c, In c s -> q c = false) -> troca_runs q por s = s.
Proof.
  induction s as [|a r IH]; intros H; [reflexivity|].
  cbn [troca_runs]. rewrite (H a (or_introl eq_refl)). f_equal. apply IH.
  intros c Hc. apply H. now right.
Qed.

Lemma colapso_nada s :
  sem_hifen_duplo s = true -> troca_runs is_hyphen hyphen s = s.
Proof.
  induction s as [|a r IH]; intros H; [reflexivity|].
  rewrite sem_hifen_duplo_cons in H. apply andb_true_iff in H.
  destruct H as [Ha Hr]. specialize (IH Hr).
  cbn [troca_runs]. destruct (is_hyphen a) eqn:Ea.
  - assert (a = hyphen) by (apply N.eqb_eq, Ea). subst a.
    destruct r as [|d r']; [reflexivity|].
    cbn [comeca_com] in Ha. rewrite andb_true_l in Ha.
    apply negb_true_iff in Ha. rewrite Ha, IH. reflexivity.
  - rewrite IH. reflexivity.
Qed.

Lemma drop_start_nada (q : N -> bool) s :
  comeca_com q s = false -> drop_start q s = s.
Proof.
  destruct s as [|a r]; [reflexivity|]. cbn. intros ->. reflexivity.
Qed.

Lemma comeca_com_rev (q : N -> bool) s : comeca_com q (rev s) = acaba_com q s.
Proof.
  rewrite <- (rev_involutive s) at 2. symmetry. apply acaba_com_rev.
Qed.

Lemma drop_end_nada (q : N -> bool) s :
  acaba_com q s = false -> drop_end q s = s.
Proof.
  intros H. unfold drop_end. rewrite drop_start_nada, rev_involutive;
    [reflexivity|]. rewrite comeca_com_rev. exact H.
Qed.

Lemma sem_classe_nas_pontas (q : N -> bool) s :
  (forall c, In c s -> q c = false) ->
  comeca_com q s = false /\ acaba_com q s = false.
Proof.
  intros H. split.
  - destruct s as [|a r]; [reflexivity|]. apply H. now left.
  - rewrite <- comeca_com_rev. destruct (rev s) as [|a r] eqn:E; [reflexivity|].
    apply H, in_rev. rewrite E. now left.
Qed.

Lemma pontas_nada s :
  comeca_com is_hyphen s = false -> acaba_com is_hyphen s = false ->
  tira_hifens_pontas s = s.
Proof.
  intros Hi Hf. unfold tira_hifens_pontas, tira_hifen_fim.
  assert (E : forall t, comeca_com is_hyphen t = false -> tira_hifen_inicio t = t).
  { intros [|a r]; [reflexivity|]. cbn. intros ->. reflexivity. }
  rewrite (E s Hi), E, rev_involutive; [reflexivity|].
  rewrite comeca_com_rev. exact Hf.
Qed.

Section Idempotencia.

Variable toLowerCase : jsstring -> jsstring.
Variable normalizeNFD : jsstring -> jsstring.

(** A text already in normal form is left as it is. *)
Lemma normalizarTexto_ponto_fixo n
  (Hl : lowercase_em_ascii toLowerCase) (Hn : nfd_em_ascii normalizeNFD) :
  forallb de_slug n = true -> sem_hifen_duplo n = true ->
  comeca_com is_hyphen n = false -> acaba_com is_hyphen n = false ->
  normalizarTexto toLowerCase normalizeNFD n = n.
Proof.
  intros Ha Hd Hi Hf. destruct n as [|c r]; [reflexivity|].
  set (n := c :: r) in *.
  assert (Hc : forall x, In x n -> de_slug x = true).
  { apply forallb_forall, Ha. }
  assert (Hascii : forallb is_ascii n = true).
  { apply forallb_forall. intros x Hx. apply de_slug_classes, Hc, Hx. }
  assert (Hlow : ascii_lower n = n).
  { unfold ascii_lower. rewrite <- (map_id n) at 2. apply map_ext_in.
    intros x Hx. apply de_slug_classes, Hc, Hx. }
  assert (Hesp : forall x, In x n -> is_space x = false).
  { intros x Hx. apply de_slug_classes, Hc, Hx. }
  unfold normalizarTexto. fold n.
  rewrite (Hl n Hascii), Hlow, (Hn n Hascii).
  rewrite (filtro_nada is_diacritic n)
    by (intros x Hx; apply de_slug_classes, Hc, Hx).
  rewrite (filtro_nada fora_de_slug n)
    by (intros x Hx; apply de_slug_classes, Hc, Hx).
  destruct (sem_classe_nas_pontas is_space n Hesp) as [Hsi Hsf].
  unfold trim, trimStart, trimEnd.
  rewrite (drop_start_nada is_space n Hsi), (drop_end_nada is_space n Hsf).
  rewrite (troca_runs_nada is_space hyphen n Hesp), (colapso_nada n Hd).
  apply pontas_nada; assumption.
Qed.

(** X7. Normalising twice is normalising once, the built-ins acting on
    ASCII text as they do. *)
Theorem normalizarTexto_idempotente texto
  (Hl : lowercase_em_ascii toLowerCase) (Hn : nfd_em_ascii normalizeNFD) :
  normalizarTexto toLowerCase normalizeNFD
    (normalizarTexto toLowerCase normalizeNFD texto)
  = normalizarTexto toLowerCase normalizeNFD texto.
Proof.
  destruct (normalizarTexto_forma toLowerCase normalizeNFD texto)
    as (H1 & H2 & H3 & H4).
  apply normalizarTexto_ponto_fixo; assumption.
Qed.

Lemma starts_with_app a b : starts_with a (a ++ b) = true.
Proof.
  induction a as [|x r IH]; [reflexivity|].
  cbn. rewrite N.eqb_refl. exact IH.
Qed.

(** X8. The builder gives no URL exactly when make, model or model-year is
    missing or empty; a URL it gives starts with the marketplace path and
    holds no whitespace. *)
Theorem gerarUrlOlx_guarda_e_forma v :
  match gerarUrlOlx toLowerCase normalizeNFD v with
  | None => truthy (marca v) && truthy (modelo v) && truthy (anoModelo v) = false
  | Some url =>
      truthy (marca v) && truthy (modelo v) && truthy (anoModelo v) = true
      /\ starts_with olx_base url = true
      /\ forallb (fun c => negb (is_space c)) url = true
  end.
Proof.
  unfold gerarUrlOlx.
  destruct (marca v) as [[|c1 r1]|]; try reflexivity.
  destruct (modelo v) as [[|c2 r2]|]; try reflexivity.
  destruct (anoModelo v) as [[|c3 r3]|]; try reflexivity.
  split; [reflexivity|]. split; [apply starts_with_app|].
  assert (Hs : forall t, forallb (fun c => negb (is_space c))
                           (normalizarTexto toLowerCase normalizeNFD t) = true).
  { intros t. destruct (normalizarTexto_forma toLowerCase normalizeNFD t) as (H & _).
    rewrite forallb_forall in *. intros x Hx.
    destruct (de_slug_classes x (H x Hx)) as (_ & _ & _ & _ & E). rewrite E.
    reflexivity. }
  rewrite !forallb_app, !Hs. cbn [forallb].
  assert (Ha : forallb (fun c => negb (is_space c))
                 (primeiro_segmento (trim (c3 :: r3))) = true).
  { destruct (span_spec (fun c => negb (is_sep c)) (trim (c3 :: r3))) as (_ & H & _).
    unfold primeiro_segmento. rewrite forallb_forall in *. intros x Hx.
    specialize (H x Hx). unfold is_sep in H.
    destruct (is_space x); [discriminate|reflexivity]. }
  rewrite Ha. reflexivity.
Qed.

End Idempotencia.

Lemma normalizarTexto_idempotente_no_gol :
  normalizarTexto ascii_lower ascii_nfd
    (normalizarTexto ascii_lower ascii_nfd (js "  Volkswagen -- Gol  "))
  = normalizarTexto ascii_lower ascii_nfd (js "  Volkswagen -- Gol  ").
Proof.
  apply (normalizarTexto_idempotente ascii_lower ascii_nfd).
  - intros s _. reflexivity.
  - intros s _. reflexivity.
Defined.

End UrlMais.

(* ================================================================== *)
(** ** More facts: the plate lookup client *)
(* ================================================================== *)

Module ApiPlacasMais.

Import ApiPlacas Referencia ReferenciaFipe ApiPlacasFatos.

Local Open Scope N_scope.

Lemma formatoNovo_forma p :
  formatoNovo p = true ->
  List.length p = 7%nat
  /\ forallb (fun c => is_upper c || is_digit c) p = true.
Proof.
  destruct p as [|a [|b [|c [|d [|e [|f [|g [|h r]]]]]]]]; try discriminate.
  cbn [formatoNovo]. intros H.
  do 6 (apply andb_true_iff in H; destruct H as [H ?]).
  split; [reflexivity|]. cbn [forallb].
  repeat match goal with
         | E : ?x = true |- context [?x] => rewrite E
         end.
  cbn. rewrite ?orb_true_r. reflexivity.
Qed.

Lemma formatoAntigo_novo p : formatoAntigo p = true -> formatoNovo p = true.
Proof.
  destruct p as [|a [|b [|c [|d [|e [|f [|g [|h r]]]]]]]]; try discriminate.
  cbn [formatoAntigo formatoNovo]. intros H.
  do 6 (apply andb_true_iff in H; destruct H as [H ?]).
  repeat match goal with
         | E : ?x = true |- context [?x] => rewrite E
         end.
  cbn. rewrite ?orb_true_r. reflexivity.
Qed.

(** X9. A plate the validator accepts has seven characters, each an
    uppercase letter or a digit, and matches the current pattern: the
    legacy pattern accepts nothing that the current one rejects. *)
Theorem validarPlaca_forma p (H : validarPlaca p = true) :
  List.length p = 7%nat
  /\ forallb (fun c => is_upper c || is_digit c) p = true
  /\ formatoNovo p = true.
Proof.
  assert (Hn : formatoNovo p = true).
  { unfold validarPlaca in H. apply orb_true_iff in H.
    destruct H as [H|H]; [apply formatoAntigo_novo, H | exact H]. }
  destruct (formatoNovo_forma p Hn). auto.
Qed.

Lemma validarPlaca_forma_em_ABC1234 :
  List.length (js "ABC1234") = 7%nat
  /\ forallb (fun c => is_upper c || is_digit c) (js "ABC1234") = true
  /\ formatoNovo (js "ABC1234") = true.
Proof.
  apply (validarPlaca_forma (js "ABC1234")). reflexivity.
Defined.

Lemma placa_classes c :
  is_upper c || is_digit c = true ->
  is_ascii c = true /\ upper_unit c = c /\ is_space c = false.
Proof.
  unfold is_upper, is_digit. intros H.
  assert (Hf : (65 <= c /\ c <= 90) \/ (48 <= c /\ c <= 57)).
  { apply orb_true_iff in H. destruct H as [H|H];
      apply andb_true_iff in H; destruct H as [H1 H2];
      apply N.leb_le in H1, H2; auto. }
  repeat split.
  - unfold is_ascii. apply N.ltb_lt. lia.
  - unfold upper_unit, is_lower.
    destruct ((97 <=? c) && (c <=? 122)) eqn:E; [|reflexivity].
    apply andb_true_iff in E. destruct E as [E1 E2].
    apply N.leb_le in E1, E2. lia.
  - unfold is_space.
    repeat (apply orb_false_iff; split);
      try (apply N.eqb_neq; lia);
      apply andb_false_iff;
      destruct (N.le_gt_cases 9 c) as [H9|H9];
      try (left; apply N.leb_gt; lia);
      try (right; apply N.leb_gt; lia).
Qed.

Section ClienteMais.

Variable toUpperCase : jsstring -> jsstring.
Variable baseURL : jsstring.
Variable token : jsstring.
Variable axios_get : jsstring -> result FalhaAxios (option Dados).

Local Notation "'consulta'" :=
  (consultarPlaca toUpperCase baseURL token axios_get).
Local Notation "'url_de'" :=
  (fun placa => url_consulta baseURL token (formatar toUpperCase placa)).

(** An accepted plate is already in the form the client looks up. *)
Lemma formatar_ponto_fixo p
  (Hup : uppercase_em_ascii toUpperCase) :
  validarPlaca p = true -> formatar toUpperCase p = p.
Proof.
  intros H. destruct (validarPlaca_forma p H) as (_ & Hc & _).
  rewrite forallb_forall in Hc. unfold formatar.
  assert (Hs : remove_class is_space p = p).
  { apply UrlMais.filtro_nada. intros c Hx. apply placa_classes, Hc, Hx. }
  rewrite Hs, Hup.
  - unfold ascii_upper. rewrite <- (map_id p) at 2. apply map_ext_in.
    intros c Hx. apply placa_classes, Hc, Hx.
  - apply forallb_forall. intros c Hx. apply placa_classes, Hc, Hx.
Qed.

(** X10. Looking a plate up in its normalised form gives what looking it
    up as typed gives, when that form is a well-formed plate. *)
Theorem consultarPlaca_forma_normalizada p
  (Hup : uppercase_em_ascii toUpperCase)
  (Hv : validarPlaca (formatar toUpperCase p) = true) :
  formatar toUpperCase (formatar toUpperCase p) = formatar toUpperCase p
  /\ consulta (formatar toUpperCase p) = consulta p.
Proof.
  pose proof (formatar_ponto_fixo _ Hup Hv) as E.
  split; [exact E|].
  unfold consultarPlaca, consultarPlaca_try. rewrite E. reflexivity.
Qed.



Lemma or_null_presente o : or_null o <> Some [].
Proof. destruct o as [[|c r]|]; cbn; discriminate. Qed.

Lemma score_ou_null_nao_zero c q :
  score_ou_null c = Some q -> ~ (q == 0)%Q.
Proof.
  unfold score_ou_null. destruct (score c) as [x|]; [|discriminate].
  destruct (Qeq_bool x 0) eqn:E; [discriminate|].
  intros H. injection H as <-. apply Qeq_bool_neq, E.
Qed.

Lemma sort_nao_vazio l : l <> [] -> sort l <> [].
Proof.
  intros Hl Hs. pose proof (sort_perm l) as Hp. rewrite Hs in Hp.
  apply Permutation_sym, Permutation_nil in Hp. contradiction.
Qed.

(** X12. In a record the lookup returns, the plate is never empty, no text
    field is an empty string (a missing or empty field of the response is
    [null]), the score is never 0, the candidate list is never an empty
    list, and without a candidate list there is neither valuation text nor
    score. *)
Theorem consultarPlaca_registro_limpo p v
  (Hok : consultarPlaca toUpperCase baseURL token axios_get p = Ok v) :
  placa v <> []
  /\ Forall (fun o => o <> Some [])
            [marca v; modelo v; ano v; anoModelo v; cor v; chassi v;
             renavam v; uf v; municipio v; situacao v; valorFipe v;
             mensagemRetorno v]
  /\ (forall q, valorFipeScore v = Some q -> ~ (q == 0)%Q)
  /\ dadosFipe v <> Some []
  /\ (dadosFipe v = None -> valorFipe v = None /\ valorFipeScore v = None).
Proof.
  destruct (consultarPlaca_ok _ _ _ _ p v Hok) as (Hv & data & _ & ->).
  destruct (validarPlaca_forma _ Hv) as (Hlen & _).
  unfold montar.
  destruct (processaFipe data) as [[[vf vfs] df] data'] eqn:Ep.
  cbn [placa marca modelo ano anoModelo cor chassi renavam uf municipio
       situacao valorFipe valorFipeScore dadosFipe mensagemRetorno].
  assert (Hf : vf <> Some []
               /\ (forall q, vfs = Some q -> ~ (q == 0)%Q)
               /\ df <> Some []
               /\ (df = None -> vf = None /\ vfs = None)).
  { unfold processaFipe in Ep. destruct (fipe_dados data) as [[|d0 ds]|].
    - injection Ep as <- <- <- <-. repeat split; discriminate.
    - pose proof (sort_nao_vazio (d0 :: ds)) as Hs.
      destruct (sort (d0 :: ds)) as [|c r] eqn:Es.
      + exfalso. apply Hs; [discriminate|reflexivity].
      + injection Ep as <- <- <- <-. cbn [fipe_dados com_fipe_dados].
        repeat split; try discriminate.
        * apply or_null_presente.
        * intros q. apply score_ou_null_nao_zero.
    - injection Ep as <- <- <- <-. repeat split; discriminate. }
  destruct Hf as (Hf1 & Hf2 & Hf3 & Hf4).
  split; [|split; [|split; [|split]]]; try assumption.
  - destruct (or_null (d_placa data')) as [[|c r]|] eqn:E.
    + exfalso. exact (or_null_presente _ E).
    + discriminate.
    + intros E0. rewrite E0 in Hlen. discriminate.
  - repeat constructor; try apply or_null_presente. exact Hf1.
Qed.

(** X13. When the response has no candidate list, or an empty one, the
    record has no valuation text, no score and no candidate list, and keeps
    the response as it came. *)
Theorem consultarPlaca_sem_candidatos p data v
  (Hget : axios_get (url_de p) = Ok (Some data))
  (Hd : fipe_dados data = None \/ fipe_dados data = Some [])
  (Hok : consultarPlaca toUpperCase baseURL token axios_get p = Ok v) :
  valorFipe v = None /\ valorFipeScore v = None /\ dadosFipe v = None
  /\ dadosCompletos v = data.
Proof.
  destruct (consultarPlaca_ok _ _ _ _ p v Hok) as (_ & data' & Hget' & ->).
  rewrite Hget in Hget'. injection Hget' as <-.
  unfold montar, processaFipe. destruct Hd as [-> | ->]; repeat split.
Qed.

End ClienteMais.

Lemma consultarPlaca_forma_normalizada_em_minusculas :
  formatar ascii_upper (formatar ascii_upper (js " abc 1d23 "))
  = formatar ascii_upper (js " abc 1d23 ")
  /\ consultarPlaca ascii_upper base_exemplo token_exemplo
       (provedor_fixo (resposta (Some tres_candidatos)))
       (formatar ascii_upper (js " abc 1d23 "))
     = consultarPlaca ascii_upper base_exemplo token_exemplo
         (provedor_fixo (resposta (Some tres_candidatos))) (js " abc 1d23 ").
Proof.
  apply (consultarPlaca_forma_normalizada ascii_upper base_exemplo token_exemplo
           (provedor_fixo (resposta (Some tres_candidatos))) (js " abc 1d23 ")).
  - intros s _. reflexivity.
  - vm_compute. reflexivity.
Defined.

Lemma consultarPlaca_registro_limpo_em_tres :
  placa registro_tres <> []
  /\ Forall (fun o => o <> Some [])
            [marca registro_tres; modelo registro_tres; ano registro_tres;
             anoModelo registro_tres; cor registro_tres; chassi registro_tres;
             renavam registro_tres; uf registro_tres; municipio registro_tres;
             situacao registro_tres; valorFipe registro_tres;
             mensagemRetorno registro_tres]
  /\ (forall q, valorFipeScore registro_tres = Some q -> ~ (q == 0)%Q)
  /\ dadosFipe registro_tres <> Some []
  /\ (dadosFipe registro_tres = None ->
      valorFipe registro_tres = None /\ valorFipeScore registro_tres = None).
Proof.
  apply (consultarPlaca_registro_limpo ascii_upper base_exemplo token_exemplo
           (provedor_fixo (resposta (Some tres_candidatos))) (js "abc 1234")).
  vm_compute. reflexivity.
Defined.

Lemma consultarPlaca_sem_candidatos_em_lista_vazia :
  valorFipe (montar (js "ABC1234") (resposta (Some []))) = None
  /\ valorFipeScore (montar (js "ABC1234") (resposta (Some []))) = None
  /\ dadosFipe (montar (js "ABC1234") (resposta (Some []))) = None
  /\ dadosCompletos (montar (js "ABC1234") (resposta (Some [])))
     = resposta (Some []).
Proof.
  apply (consultarPlaca_sem_candidatos ascii_upper base_exemplo token_exemplo
           (provedor_fixo (resposta (Some []))) (js "abc1234")
           (resposta (Some []))).
  - reflexivity.
  - right. reflexivity.
  - vm_compute. reflexivity.
Defined.

End ApiPlacasMais.

(* ================================================================== *)
(** ** More facts: the request handlers *)
(* ================================================================== *)

Module ConsultaMais.

Import ApiPlacas Consulta Referencia ReferenciaFipe ReferenciaConsulta.
Import ConsultaFatos.

Local Open Scope Z_scope.

Section ControladorMais.

Variable toUpperCase : jsstring -> jsstring.
Variable baseURL : jsstring.
Variable token : jsstring.

Local Notation "'consultar_'" := (consultar toUpperCase baseURL token).
Local Notation "'forcar_'" := (forcarConsulta toUpperCase baseURL token).
Local Notation "'consultarPlaca_'" := (consultarPlaca toUpperCase baseURL token).
Local Notation "'findLatest'" := (findLatestByPlaca toUpperCase).

(** X14. A forced lookup does not depend on the store's content or on
    whether it can be read: it always invokes the lookup client, answers as
    a plain lookup answers on an empty store, and a record it returns is
    tagged [api]. *)
Theorem forcarConsulta_sem_cache m c r :
  (forall col f,
     resposta_de (forcar_ (com_colecao (com_leitura m f) col) (Some (c :: r)))
     = resposta_de (forcar_ m (Some (c :: r))))
  /\ resposta_de (forcar_ m (Some (c :: r)))
     = resposta_de (consultar_ (com_colecao m []) (Some (c :: r)))
  /\ chamou_api (log_de (forcar_ m (Some (c :: r)))) = true
  /\ (fonte_de (resposta_de (forcar_ m (Some (c :: r)))) = Some api
      \/ fonte_de (resposta_de (forcar_ m (Some (c :: r)))) = None).
Proof.
  split; [|split; [|split]].
  - intros col f. unfold forcarConsulta. cbn [provedor com_colecao com_leitura].
    destruct (consultarPlaca_ (provedor m) (c :: r)) as [v|e]; [|reflexivity].
    unfold gravar. cbn [falha_escrita agora_gravacao com_colecao com_leitura].
    destruct (placa (veiculo (novo_documento toUpperCase v (agora_gravacao m))));
      [reflexivity|].
    destruct (falha_escrita m); reflexivity.
  - rewrite consultar_casos. unfold forcarConsulta, ler_cache.
    cbn [falha_leitura colecao com_colecao provedor].
    assert (E : recente (com_colecao m [])
                  (fst (match falha_leitura m with
                        | Some msg => (None, [EvAviso (aviso_leitura ++ msg)])
                        | None => (findLatest [] (c :: r), [])
                        end)) = None).
    { destruct (falha_leitura m); reflexivity. }
    rewrite E.
    destruct (consultarPlaca_ (provedor m) (c :: r)) as [v|e]; [|reflexivity].
    unfold gravar. cbn [falha_escrita agora_gravacao com_colecao].
    destruct (placa (veiculo (novo_documento toUpperCase v (agora_gravacao m))));
      [reflexivity|].
    destruct (falha_escrita m); reflexivity.
  - unfold forcarConsulta.
    destruct (consultarPlaca_ (provedor m) (c :: r)) as [v|e]; [|reflexivity].
    destruct (gravar toUpperCase m v). reflexivity.
  - unfold forcarConsulta.
    destruct (consultarPlaca_ (provedor m) (c :: r)) as [v|e].
    + destruct (gravar toUpperCase m v). left. reflexivity.
    + right. reflexivity.
Qed.

(** X16. The handlers only ever append to the store: after a plain or a
    forced lookup the collection is the old one followed by at most one new
    document, and a new document is there only when the answer is a record
    tagged [api]. *)
Theorem store_so_acrescenta m p :
  (exists novos,
     colecao_de (consultar_ m p) = colecao m ++ novos
     /\ (List.length novos <= 1)%nat
     /\ (novos <> [] -> fonte_de (resposta_de (consultar_ m p)) = Some api))
  /\ (exists novos,
        colecao_de (forcar_ m p) = colecao m ++ novos
        /\ (List.length novos <= 1)%nat
        /\ (novos <> [] -> fonte_de (resposta_de (forcar_ m p)) = Some api)).
Proof.
  assert (Hg : forall v, exists novos,
             fst (gravar toUpperCase m v) = colecao m ++ novos
             /\ (List.length novos <= 1)%nat).
  { intros v. unfold gravar.
    destruct (placa (veiculo (novo_documento toUpperCase v (agora_gravacao m))));
      [|destruct (falha_escrita m)].
    - exists []. rewrite app_nil_r. split; [reflexivity|apply le_0_n].
    - exists []. rewrite app_nil_r. split; [reflexivity|apply le_0_n].
    - eexists [_]. split; [reflexivity|apply le_n]. }
  assert (Hnada : exists novos : list Documento,
             colecao m = colecao m ++ novos /\ (List.length novos <= 1)%nat
             /\ (novos <> [] -> False)).
  { exists []. rewrite app_nil_r. repeat split; [apply le_0_n|congruence]. }
  split.
  - destruct p as [[|c r]|].
    + destruct Hnada as (n & E & L & F). exists n. repeat split; try assumption.
      intros H. destruct (F H).
    + rewrite consultar_casos.
      destruct (recente m _) as [d|].
      * destruct Hnada as (n & E & L & F). exists n. repeat split; try assumption.
        intros H. destruct (F H).
      * destruct (consultarPlaca_ (provedor m) (c :: r)) as [v|e].
        -- destruct (Hg v) as (n & E & L). exists n. repeat split; assumption.
        -- destruct Hnada as (n & E & L & F). exists n. repeat split; try assumption.
           intros H. destruct (F H).
    + destruct Hnada as (n & E & L & F). exists n. repeat split; try assumption.
      intros H. destruct (F H).
  - destruct p as [[|c r]|].
    + destruct Hnada as (n & E & L & F). exists n. repeat split; try assumption.
      intros H. destruct (F H).
    + unfold forcarConsulta.
      destruct (consultarPlaca_ (provedor m) (c :: r)) as [v|e].
      * destruct (Hg v) as (n & E & L). exists n.
        destruct (gravar toUpperCase m v) as [col lg]. repeat split; assumption.
      * destruct Hnada as (n & E & L & F). exists n. repeat split; try assumption.
        intros H. destruct (F H).
    + destruct Hnada as (n & E & L & F). exists n. repeat split; try assumption.
      intros H. destruct (F H).
Qed.

Lemma findLatest_do_novo col d p :
  placa (veiculo d) = chave toUpperCase p ->
  (forall x, In x col -> placa (veiculo x) = chave toUpperCase p ->
             dataConsulta x < dataConsulta d) ->
  findLatest (col ++ [d]) p = Some d.
Proof.
  intros Hk Hnew.
  pose proof (findLatestByPlaca_spec toUpperCase (col ++ [d]) p) as Hs.
  destruct (findLatest (col ++ [d]) p) as [d'|].
  - destruct Hs as (Hin & Hk' & Hmax). f_equal.
    apply in_app_or in Hin. destruct Hin as [Hin|[<-|[]]]; [|reflexivity].
    specialize (Hnew d' Hin Hk').
    assert (Hd : In d (col ++ [d])) by (apply in_or_app; right; now left).
    specialize (Hmax d Hd Hk). lia.
  - exfalso. apply (Hs d); [|exact Hk].
    apply in_or_app. right. now left.
Qed.

(** X15. What a plain lookup stores, a later plain lookup finds: after an
    answer from the provider was saved (its plate is not empty and the
    write does not fail), a request within 24 hours whose plate is, as the
    store casts it, the plate under which the record was stored is
    answered with that record, tagged [cache], and the lookup client is not
    invoked. *)
Theorem consultar_depois_de_gravar m m2 c r v c2 r2
  (Hmiss : recente m (fst (ler_cache toUpperCase m (c :: r))) = None)
  (Hok : consultarPlaca_ (provedor m) (c :: r) = Ok v)
  (Hplaca : toUpperCase (trim (placa v)) <> [])
  (Hw : falha_escrita m = None)
  (Hcol : colecao m2 = colecao_de (consultar_ m (Some (c :: r))))
  (Hr : falha_leitura m2 = None)
  (Hkey : toUpperCase (trim (toUpperCase (c2 :: r2)))
          = toUpperCase (trim (placa v)))
  (Hnew : forall d, In d (colecao m) ->
                    placa (veiculo d) = toUpperCase (trim (toUpperCase (c2 :: r2))) ->
                    dataConsulta d < agora_gravacao m)
  (Hfresh : agora m2 - agora_gravacao m < um_dia) :
  resposta_de (consultar_ m2 (Some (c2 :: r2)))
  = resposta_cache m2 (novo_documento toUpperCase v (agora_gravacao m))
  /\ chamou_api (log_de (consultar_ m2 (Some (c2 :: r2)))) = false.
Proof.
  assert (Ecol : colecao m2
                 = colecao m ++ [novo_documento toUpperCase v (agora_gravacao m)]).
  { rewrite Hcol, consultar_casos, Hmiss, Hok. unfold gravar. rewrite Hw.
    cbn [placa veiculo novo_documento].
    unfold placa_do_esquema.
    destruct (toUpperCase (trim (placa v))); [congruence|reflexivity]. }
  assert (Ef : findLatest (colecao m2) (c2 :: r2)
               = Some (novo_documento toUpperCase v (agora_gravacao m))).
  { rewrite Ecol. apply findLatest_do_novo.
    - cbn. symmetry. exact Hkey.
    - intros x Hx Hk. cbn [dataConsulta novo_documento]. apply Hnew; assumption. }
  rewrite consultar_casos. unfold ler_cache. rewrite Hr, Ef. cbn [fst snd].
  assert (Erec : recente m2 (Some (novo_documento toUpperCase v (agora_gravacao m)))
                 = Some (novo_documento toUpperCase v (agora_gravacao m))).
  { unfold recente. cbn [dataConsulta novo_documento].
    destruct (agora m2 - um_dia <? agora_gravacao m) eqn:E; [reflexivity|].
    apply Z.ltb_ge in E. lia. }
  rewrite Erec. split; reflexivity.
Qed.

End ControladorMais.

Lemma filter_comprimento_mono {A} (f g : A -> bool) l :
  (forall x, f x = true -> g x = true) ->
  (List.length (filter f l) <= List.length (filter g l))%nat.
Proof.
  intros H. induction l as [|a r IH]; [apply le_n|].
  cbn. destruct (f a) eqn:Ef.
  - rewrite (H a Ef). cbn. apply le_n_S, IH.
  - destruct (g a); cbn; [apply le_S, IH | exact IH].
Qed.

(** X20. The statistics are consistent: today's lookups are among those of
    the last seven days, these among all lookups, there are no more
    distinct plates than lookups, and no plate exactly when there is no
    lookup.  (The local midnight is taken within the last seven days.) *)
Theorem estatisticas_coerentes m meia_noite agora7
  (Hr : falha_leitura m = None)
  (H7 : agora7 - 7 * um_dia <= meia_noite) :
  exists e,
    estatisticas m meia_noite agora7 = EstatisticasSucesso e
    /\ (consultasHoje e <= consultasUltimos7Dias e)%nat
    /\ (consultasUltimos7Dias e <= totalConsultas e)%nat
    /\ (placasUnicas e <= totalConsultas e)%nat
    /\ (placasUnicas e = 0%nat <-> totalConsultas e = 0%nat).
Proof.
  unfold estatisticas. rewrite Hr. eexists. split; [reflexivity|].
  cbn [consultasHoje consultasUltimos7Dias totalConsultas placasUnicas].
  set (ps := map (fun d => placa (veiculo d)) (colecao m)).
  assert (Hlen : List.length ps = List.length (colecao m)) by apply length_map.
  split; [|split; [|split]].
  - apply filter_comprimento_mono. intros x Hx.
    apply Z.leb_le in Hx. apply Z.leb_le. lia.
  - apply filter_length_le.
  - rewrite <- Hlen. apply NoDup_incl_length; [apply NoDup_nodup|].
    intros x Hx. apply nodup_In in Hx. exact Hx.
  - rewrite <- Hlen. split; intros H.
    + destruct ps as [|a r]; [reflexivity|]. exfalso.
      assert (Hin : In a (nodup (list_eq_dec N.eq_dec) (a :: r))).
      { apply nodup_In. now left. }
      destruct (nodup (list_eq_dec N.eq_dec) (a :: r)); [destruct Hin|discriminate].
    + destruct ps; [reflexivity|discriminate].
Qed.


(** *** Listings *)

Lemma firstn_soma {A} (a b : nat) (l : list A) :
  firstn (a + b) l = firstn a l ++ firstn b (skipn a l).
Proof.
  revert l. induction a as [|a IH]; intros l; [reflexivity|].
  destruct l as [|x r]; cbn.
  - rewrite firstn_nil. reflexivity.
  - rewrite IH. reflexivity.
Qed.

(** Consecutive slices of [n] make up a prefix. *)
Lemma fatias {A} (n : nat) (l : list A) (k : nat) :
  flat_map (fun i => firstn n (skipn (i * n) l)) (seq 0 k) = firstn (k * n) l.
Proof.
  induction k as [|k IH]; [reflexivity|].
  rewrite seq_S, flat_map_app, IH. cbn [flat_map plus].
  rewrite app_nil_r. rewrite <- firstn_soma. f_equal. cbn. lia.
Qed.

(** [-((-t) / l)] is the least number of pages of [l] that hold [t]. *)
Lemma teto t l :
  1 <= l -> 0 <= t ->
  t <= - ((- t) / l) * l /\ (- ((- t) / l) - 1) * l < t /\ 0 <= - ((- t) / l).
Proof.
  intros Hl Ht.
  pose proof (Z.div_mod (- t) l ltac:(lia)) as Hd.
  pose proof (Z.mod_pos_bound (- t) l ltac:(lia)) as Hm.
  repeat split; nia.
Qed.

Section Listagens.

Variable toUpperCase : jsstring -> jsstring.
Variable parseInt : jsstring -> option Z.
Variable ordenar : list Documento -> list Documento.
Variable cursor_irregular :
  list Documento -> option Z -> option Z -> result jsstring (list Documento).

Local Notation "'listar_'" := (listar parseInt ordenar cursor_irregular).
Local Notation "'historico_'" :=
  (historico toUpperCase parseInt ordenar cursor_irregular).
Local Notation "'listarConsultas_'" :=
  (listarConsultas toUpperCase parseInt ordenar cursor_irregular).

Lemma listar_regular m filtro padrao lq pq l pg
  (Hr : falha_leitura m = None)
  (Hl : match lq with Some s => parseInt s | None => Some padrao end = Some l)
  (Hp : match pq with Some s => parseInt s | None => Some 1 end = Some pg)
  (Hl1 : 1 <= l) (Hp1 : 1 <= pg) :
  listar_ m filtro padrao lq pq
  = ListaSucesso
      (firstn (Z.to_nat l)
         (skipn (Z.to_nat (pg - 1) * Z.to_nat l)
            (map resumir (ordenar (filter filtro (colecao m))))))
      {| page := Num pg; limit := Num l;
         total := List.length (filter filtro (colecao m));
         totalPages :=
           Num (- ((- Z.of_nat (List.length (filter filtro (colecao m)))) / l)) |}.
Proof.
  unfold listar, buscar_pagina. rewrite Hl, Hp, Hr.
  assert (E1 : (1 <=? l) && (0 <=? (pg - 1) * l) = true).
  { apply andb_true_iff. split; apply Z.leb_le; nia. }
  rewrite E1. unfold Math_ceil_div.
  assert (E2 : (l =? 0) = false) by (apply Z.eqb_neq; lia).
  rewrite E2. cbn [numero].
  rewrite skipn_map, firstn_map. do 3 f_equal.
  rewrite Z2Nat.inj_mul by lia. reflexivity.
Qed.

(** X17. A page of a plate's history, for a limit and a page of at least
    1: the records from position [(page - 1) * limit] on, at most [limit]
    of them, latest first as the store orders them; [totalPages] is the
    least number of pages of that size that hold all the plate's records.
    Without parameters the page is the first, of ten. *)
Theorem historico_pagina m p ls ps l pg
  (Hr : falha_leitura m = None)
  (Hl : parseInt ls = Some l) (Hp : parseInt ps = Some pg)
  (Hl1 : 1 <= l) (Hp1 : 1 <= pg) :
  exists tp,
    historico_ m p (Some ls) (Some ps)
    = ListaSucesso
        (firstn (Z.to_nat l)
           (skipn (Z.to_nat (pg - 1) * Z.to_nat l)
              (map resumir
                 (ordenar (filter (da_placa toUpperCase p) (colecao m))))))
        {| page := Num pg; limit := Num l;
           total := List.length (filter (da_placa toUpperCase p) (colecao m));
           totalPages := Num tp |}
    /\ (List.length (dados_da (historico_ m p (Some ls) (Some ps))) <= Z.to_nat l)%nat
    /\ Z.of_nat (List.length (filter (da_placa toUpperCase p) (colecao m))) <= tp * l
    /\ (tp - 1) * l < Z.of_nat (List.length (filter (da_placa toUpperCase p) (colecao m)))
    /\ dados_da (historico_ m p None None)
       = firstn 10 (map resumir
                      (ordenar (filter (da_placa toUpperCase p) (colecao m)))).
Proof.
  set (t := Z.of_nat (List.length (filter (da_placa toUpperCase p) (colecao m)))).
  exists (- ((- t) / l)).
  destruct (teto t l Hl1 ltac:(subst t; lia)) as (T1 & T2 & _).
  unfold historico.
  rewrite (listar_regular m _ 10 (Some ls) (Some ps) l pg Hr Hl Hp Hl1 Hp1).
  rewrite (listar_regular m _ 10 None None 10 1 Hr eq_refl eq_refl
             ltac:(lia) ltac:(lia)).
  cbn [dados_da]. repeat split; try assumption.
  apply firstn_le_length.
Qed.

(** X18. Asking for the pages 1 to [totalPages] of a plate's history in
    turn gives every record of the plate once, in the store's order: no
    record is skipped and none is repeated. *)
Theorem historico_paginas_cobrem m p l
  (Hr : falha_leitura m = None)
  (Hparse : forall n : N, parseInt (decimal n) = Some (Z.of_N n))
  (Hord : forall x, List.length (ordenar x) = List.length x)
  (Hl1 : (1 <= l)%N) :
  flat_map
    (fun k => dados_da (historico_ m p (Some (decimal l))
                          (Some (decimal (N.of_nat k)))))
    (seq 1 (paginas_da (historico_ m p (Some (decimal l)) None)))
  = map resumir (ordenar (filter (da_placa toUpperCase p) (colecao m))).
Proof.
  set (todos := map resumir (ordenar (filter (da_placa toUpperCase p) (colecao m)))).
  set (t := List.length (filter (da_placa toUpperCase p) (colecao m))).
  assert (Ht : List.length todos = t).
  { subst todos t. rewrite length_map. apply Hord. }
  unfold historico.
  rewrite (listar_regular m _ 10 (Some (decimal l)) None (Z.of_N l) 1 Hr
             (Hparse l) eq_refl ltac:(lia) ltac:(lia)).
  cbn [paginas_da totalPages]. fold t.
  destruct (teto (Z.of_nat t) (Z.of_N l) ltac:(lia) ltac:(lia)) as (T1 & _ & T0).
  set (tp := - (- Z.of_nat t / Z.of_N l)) in *.
  rewrite <- (firstn_all2 (n := Z.to_nat tp * N.to_nat l) todos) by (rewrite Ht; nia).
  rewrite <- fatias, <- seq_shift, flat_map_concat_map, map_map,
    <- flat_map_concat_map.
  apply flat_map_ext. intros k.
  rewrite (listar_regular m _ 10 (Some (decimal l)) (Some (decimal (N.of_nat (Datatypes.S k))))
             (Z.of_N l) (Z.of_N (N.of_nat (Datatypes.S k))) Hr (Hparse l) (Hparse _)
             ltac:(lia) ltac:(lia)).
  cbn [dados_da]. fold todos. f_equal; [lia|]. f_equal. lia.
Qed.

(** X19. The global listing pages the whole collection when no plate is
    given (or an empty one), and the records of the plate otherwise; its
    page without parameters is the first, of twenty. *)
Theorem listarConsultas_pagina m ls ps pq l pg
  (Hr : falha_leitura m = None)
  (Hl : parseInt ls = Some l) (Hp : parseInt ps = Some pg)
  (Hl1 : 1 <= l) (Hp1 : 1 <= pg) :
  dados_da (listarConsultas_ m (Some ls) (Some ps) pq)
  = match pq with
    | Some (c :: r) => dados_da (historico_ m (c :: r) (Some ls) (Some ps))
    | _ => firstn (Z.to_nat l)
             (skipn (Z.to_nat (pg - 1) * Z.to_nat l)
                (map resumir (ordenar (colecao m))))
    end
  /\ dados_da (listarConsultas_ m None None None)
     = firstn 20 (map resumir (ordenar (colecao m))).
Proof.
  assert (Ef : filter (fun _ : Documento => true) (colecao m) = colecao m).
  { apply ResumoFatos.filter_todos. reflexivity. }
  split.
  - unfold listarConsultas, historico.
    destruct pq as [[|c r]|]; try reflexivity;
      rewrite (listar_regular m _ 20 (Some ls) (Some ps) l pg Hr Hl Hp Hl1 Hp1);
      cbn [dados_da]; rewrite Ef; reflexivity.
  - unfold listarConsultas.
    rewrite (listar_regular m _ 20 None None 20 1 Hr eq_refl eq_refl
               ltac:(lia) ltac:(lia)).
    cbn [dados_da]. rewrite Ef. reflexivity.
Qed.

End Listagens.

(** *** On concrete requests *)

(** The record stored for abc1234 answers the request " abc1234 " an hour
    later. *)
Lemma consultar_depois_de_gravar_abc1234 :
  resposta_de (consultar ascii_upper base_exemplo token_exemplo
                 mundo_uma_hora_depois (Some (js " abc1234 ")))
  = resposta_cache mundo_uma_hora_depois
      (novo_documento ascii_upper registro_tres (agora_gravacao mundo_vazio))
  /\ chamou_api (log_de (consultar ascii_upper base_exemplo token_exemplo
                           mundo_uma_hora_depois (Some (js " abc1234 ")))) = false.
Proof.
  apply (consultar_depois_de_gravar ascii_upper base_exemplo token_exemplo
           mundo_vazio mundo_uma_hora_depois
           (N_of_ascii "a") (js "bc1234") registro_tres
           (N_of_ascii " ") (js "abc1234 ")).
  - vm_compute. reflexivity.
  - vm_compute. reflexivity.
  - vm_compute. discriminate.
  - reflexivity.
  - reflexivity.
  - reflexivity.
  - vm_compute. reflexivity.
  - intros d [].
  - vm_compute. reflexivity.
Defined.

Lemma parseInt_decimal_decimal (n : N) :
  parseInt_decimal (decimal n) = Some (Z.of_N n).
Proof.
  unfold parseInt_decimal, decimal, js.
  assert (Hb : forallb (fun c => (c <? 256)%N)
                 (map N_of_ascii
                    (list_ascii_of_string
                       (NilZero.string_of_uint (N.to_uint n)))) = true).
  { apply forallb_forall. intros c Hc. apply in_map_iff in Hc.
    destruct Hc as (a & <- & _). apply N.ltb_lt, N_ascii_bounded. }
  rewrite Hb, map_map.
  rewrite (map_ext _ (fun a => a)) by (intros a; apply ascii_N_embedding).
  rewrite map_id, string_of_list_ascii_of_string.
  pose proof (DecimalN.Unsigned.of_to n) as Hn.
  destruct (N.to_uint n) as [| | | | | | | | | |] eqn:E;
    try (rewrite NilZero.usu by discriminate; rewrite Hn; reflexivity).
  cbn in Hn. subst n. reflexivity.
Qed.

Lemma insere_por_data_comprimento d l :
  List.length (insere_por_data d l) = Datatypes.S (List.length l).
Proof.
  induction l as [|e r IH]; [reflexivity|].
  cbn. destruct (dataConsulta e <=? dataConsulta d); cbn; [reflexivity|].
  rewrite IH. reflexivity.
Qed.

Lemma ordenar_por_data_comprimento l :
  List.length (ordenar_por_data l) = List.length l.
Proof.
  induction l as [|d r IH]; [reflexivity|].
  cbn. rewrite insere_por_data_comprimento, IH. reflexivity.
Qed.

(** Page 2 of 10 over 25 records: 10 records and 3 pages. *)
Lemma historico_pagina_2_de_25 :
  exists tp,
    historico ascii_upper parseInt_decimal ordenar_por_data sem_cursor_irregular
      mundo_de_25 (js " abc1234") (Some (js "10")) (Some (js "2"))
    = ListaSucesso
        (firstn (Z.to_nat 10)
           (skipn (Z.to_nat (2 - 1) * Z.to_nat 10)
              (map resumir
                 (ordenar_por_data
                    (filter (da_placa ascii_upper (js " abc1234"))
                       (colecao mundo_de_25))))))
        {| page := Num 2; limit := Num 10;
           total := List.length (filter (da_placa ascii_upper (js " abc1234"))
                                   (colecao mundo_de_25));
           totalPages := Num tp |}
    /\ (List.length
          (dados_da
             (historico ascii_upper parseInt_decimal ordenar_por_data
                sem_cursor_irregular mundo_de_25 (js " abc1234")
                (Some (js "10")) (Some (js "2")))) <= Z.to_nat 10)%nat
    /\ Z.of_nat (List.length (filter (da_placa ascii_upper (js " abc1234"))
                                (colecao mundo_de_25))) <= tp * 10
    /\ (tp - 1) * 10
       < Z.of_nat (List.length (filter (da_placa ascii_upper (js " abc1234"))
                                  (colecao mundo_de_25)))
    /\ dados_da
         (historico ascii_upper parseInt_decimal ordenar_por_data
            sem_cursor_irregular mundo_de_25 (js " abc1234") None None)
       = firstn 10
           (map resumir
              (ordenar_por_data
                 (filter (da_placa ascii_upper (js " abc1234"))
                    (colecao mundo_de_25)))).
Proof.
  apply (historico_pagina ascii_upper parseInt_decimal ordenar_por_data
           sem_cursor_irregular mundo_de_25 (js " abc1234")
           (js "10") (js "2") 10 2).
  - reflexivity.
  - vm_compute. reflexivity.
  - vm_compute. reflexivity.
  - lia.
  - lia.
Defined.

Lemma historico_paginas_cobrem_25 :
  flat_map
    (fun k => dados_da
                (historico ascii_upper parseInt_decimal ordenar_por_data
                   sem_cursor_irregular mundo_de_25 (js " abc1234")
                   (Some (decimal 10)) (Some (decimal (N.of_nat k)))))
    (seq 1 (paginas_da
              (historico ascii_upper parseInt_decimal ordenar_por_data
                 sem_cursor_irregular mundo_de_25 (js " abc1234")
                 (Some (decimal 10)) None)))
  = map resumir
      (ordenar_por_data
         (filter (da_placa ascii_upper (js " abc1234")) (colecao mundo_de_25))).
Proof.
  apply (historico_paginas_cobrem ascii_upper parseInt_decimal ordenar_por_data
           sem_cursor_irregular mundo_de_25 (js " abc1234") 10).
  - reflexivity.
  - apply parseInt_decimal_decimal.
  - apply ordenar_por_data_comprimento.
  - lia.
Defined.

Lemma listarConsultas_pagina_2_de_25 :
  dados_da (listarConsultas ascii_upper parseInt_decimal ordenar_por_data
              sem_cursor_irregular mundo_de_25
              (Some (js "10")) (Some (js "2")) None)
  = firstn (Z.to_nat 10)
      (skipn (Z.to_nat (2 - 1) * Z.to_nat 10)
         (map resumir (ordenar_por_data (colecao mundo_de_25))))
  /\ dados_da (listarConsultas ascii_upper parseInt_decimal ordenar_por_data
                 sem_cursor_irregular mundo_de_25 None None None)
     = firstn 20 (map resumir (ordenar_por_data (colecao mundo_de_25))).
Proof.
  apply (listarConsultas_pagina ascii_upper parseInt_decimal ordenar_por_data
           sem_cursor_irregular mundo_de_25 (js "10") (js "2") None 10 2).
  - reflexivity.
  - vm_compute. reflexivity.
  - vm_compute. reflexivity.
  - lia.
  - lia.
Defined.

Lemma estatisticas_coerentes_em_25 :
  exists e,
    estatisticas mundo_de_25 20 25 = EstatisticasSucesso e
    /\ (consultasHoje e <= consultasUltimos7Dias e)%nat
    /\ (consultasUltimos7Dias e <= totalConsultas e)%nat
    /\ (placasUnicas e <= totalConsultas e)%nat
    /\ (placasUnicas e = 0%nat <-> totalConsultas e = 0%nat).
Proof.
  apply (estatisticas_coerentes mundo_de_25 20 25).
  - reflexivity.
  - vm_compute. discriminate.
Defined.

End ConsultaMais.

(* ================================================================== *)
(** ** More facts: the extractor on formatted amounts *)
(* ================================================================== *)

Module OlxQuantia.

Import Olx Referencia OlxFatos OlxMais.

Local Open Scope N_scope.

Lemma ate_n_digitos_exato n s resto :
  forallb is_digit s = true -> (List.length s <= n)%nat ->
  comeca_com is_digit resto = false ->
  ate_n_digitos n (s ++ resto) = (s, resto).
Proof.
  revert n. induction s as [|c r IH]; intros n Hd Hn Hr.
  - cbn [app]. destruct n; [reflexivity|].
    destruct resto as [|x y]; [reflexivity|]. cbn in *. rewrite Hr. reflexivity.
  - cbn in Hd. apply andb_true_iff in Hd. destruct Hd as [Hc Hd].
    destruct n as [|n]; [cbn in Hn; lia|].
    cbn [app ate_n_digitos]. rewrite Hc, (IH n Hd ltac:(cbn in Hn; lia) Hr).
    reflexivity.
Qed.

Lemma grupos_milhar_exato gs c1 c2 x :
  forallb grupo_de_digitos gs = true ->
  grupos_milhar (grupos_texto gs ++ comma :: c1 :: c2 :: x)
  = (grupos_texto gs, comma :: c1 :: c2 :: x).
Proof.
  induction gs as [|[[a b] c] r IH]; intros H.
  - cbn [grupos_texto flat_map app]. destruct x as [|y x']; reflexivity.
  - cbn in H. apply andb_true_iff in H. destruct H as [Hg Hr].
    apply andb_true_iff in Hg. destruct Hg as [Hg Hc].
    apply andb_true_iff in Hg. destruct Hg as [Ha Hb].
    change (grupos_texto ((a, b, c) :: r) ++ comma :: c1 :: c2 :: x)
      with (period :: a :: b :: c
              :: (grupos_texto r ++ comma :: c1 :: c2 :: x)).
    cbn [grupos_milhar]. rewrite N.eqb_refl, Ha, Hb, Hc, (IH Hr). reflexivity.
Qed.

Lemma grupos_sem_pontos gs :
  forallb grupo_de_digitos gs = true ->
  remove_class (fun c => c =? period) (grupos_texto gs) = grupos_digitos gs
  /\ forallb is_digit (grupos_digitos gs) = true
  /\ forallb (fun c => negb (fora_de_preco c)) (grupos_texto gs) = true.
Proof.
  induction gs as [|[[a b] c] r IH]; intros H; [repeat split|].
  cbn in H. apply andb_true_iff in H. destruct H as [Hg Hr].
  apply andb_true_iff in Hg. destruct Hg as [Hg Hc].
  apply andb_true_iff in Hg. destruct Hg as [Ha Hb].
  destruct (IH Hr) as (E1 & E2 & E3).
  destruct (digito_nao_pontua a Ha) as [Pa _].
  destruct (digito_nao_pontua b Hb) as [Pb _].
  destruct (digito_nao_pontua c Hc) as [Pc _].
  change (grupos_texto ((a, b, c) :: r))
    with (period :: a :: b :: c :: grupos_texto r).
  change (grupos_digitos ((a, b, c) :: r))
    with (a :: b :: c :: grupos_digitos r).
  split; [|split].
  - unfold remove_class in *. cbn [filter].
    rewrite N.eqb_refl, Pa, Pb, Pc, E1. reflexivity.
  - cbn [forallb]. rewrite Ha, Hb, Hc, E2. reflexivity.
  - cbn [forallb].
    rewrite (digito_fica a Ha), (digito_fica b Hb), (digito_fica c Hc), E3.
    reflexivity.
Qed.

Lemma span_para (q : N -> bool) s x resto :
  forallb q s = true -> q x = false ->
  span q (s ++ x :: resto) = (s, x :: resto).
Proof.
  induction s as [|c r IH]; intros Hs Hx.
  - cbn. rewrite Hx. reflexivity.
  - cbn in Hs. apply andb_true_iff in Hs. destruct Hs as [Hc Hs].
    cbn. rewrite Hc, (IH Hs Hx). reflexivity.
Qed.

Lemma troca_virgula_apos_digitos s resto :
  forallb is_digit s = true ->
  troca_primeira_virgula (s ++ comma :: resto) = s ++ period :: resto.
Proof.
  induction s as [|c r IH]; intros Hs; [reflexivity|].
  cbn in Hs. apply andb_true_iff in Hs. destruct Hs as [Hc Hs].
  destruct (digito_nao_pontua c Hc) as [_ Hv].
  cbn. rewrite Hv, (IH Hs). reflexivity.
Qed.

Lemma filtro_mantem (cls : N -> bool) s :
  forallb (fun c => negb (cls c)) s = true -> remove_class cls s = s.
Proof.
  intros H. apply UrlMais.filtro_nada. intros c Hc.
  rewrite forallb_forall in H. apply negb_true_iff, H, Hc.
Qed.

(** X23. An amount written as Brazilian currency text is read back as the
    number nearest to the amount it denotes, whatever stands before it
    without a digit and whatever follows it. *)
Theorem extrairPreco_quantia_br pre d cabeca gs c1 c2 post
  (Hpre : existsb is_digit pre = false)
  (Hcab : forallb is_digit (d :: cabeca) = true)
  (Hlen : (List.length (d :: cabeca) <= 3)%nat)
  (Hgs : forallb grupo_de_digitos gs = true)
  (H1 : is_digit c1 = true) (H2 : is_digit c2 = true) :
  extrairPreco (pre ++ quantia_br (d :: cabeca) gs c1 c2 ++ post)
  = Some (valor_br (d :: cabeca) gs c1 c2).
Proof.
  destruct (grupos_sem_pontos gs Hgs) as (Eg1 & Eg2 & Eg3).
  destruct (digito_nao_pontua c1 H1) as [P1 _].
  destruct (digito_nao_pontua c2 H2) as [P2 _].
  rewrite (extrairPreco_ignora_prefixo _ _ Hpre), extrairPreco_so_padrao.
  set (x := remove_class fora_de_preco post).
  assert (El : remove_class fora_de_preco
                 (quantia_br (d :: cabeca) gs c1 c2 ++ post)
               = (d :: cabeca) ++ grupos_texto gs ++ comma :: c1 :: c2 :: x).
  { unfold quantia_br, remove_class. rewrite !filter_app.
    fold (remove_class fora_de_preco (d :: cabeca)).
    fold (remove_class fora_de_preco (grupos_texto gs)).
    fold (remove_class fora_de_preco post).
    rewrite (filtro_mantem fora_de_preco (d :: cabeca)),
      (filtro_mantem fora_de_preco (grupos_texto gs)); [| exact Eg3 |].
    - cbn [filter]. rewrite !(digito_fica _ H1), !(digito_fica _ H2).
      rewrite <- !app_assoc. reflexivity.
    - rewrite forallb_forall in *. intros c Hc.
      rewrite (digito_fica c (Hcab c Hc)). reflexivity. }
  rewrite El.
  assert (Ec : casa_preco ((d :: cabeca) ++ grupos_texto gs ++ comma :: c1 :: c2 :: x)
               = Some ((d :: cabeca) ++ grupos_texto gs ++ [comma; c1; c2])).
  { assert (Ea : casa_aqui ((d :: cabeca) ++ grupos_texto gs ++ comma :: c1 :: c2 :: x)
                 = Some ((d :: cabeca) ++ grupos_texto gs ++ [comma; c1; c2])).
    { unfold casa_aqui. rewrite (ate_n_digitos_exato 3 _ _ Hcab Hlen).
      - rewrite (grupos_milhar_exato gs c1 c2 x Hgs).
        cbn [centavos]. rewrite N.eqb_refl, H1, H2. reflexivity.
      - destruct gs as [|[[a b] c] r]; reflexivity. }
    cbn [app] in *. cbn [casa_preco]. rewrite Ea. reflexivity. }
  rewrite Ec.
  assert (Er : remove_class (fun c => c =? period)
                 ((d :: cabeca) ++ grupos_texto gs ++ [comma; c1; c2])
               = ((d :: cabeca) ++ grupos_digitos gs) ++ comma :: [c1; c2]).
  { unfold remove_class. rewrite !filter_app.
    fold (remove_class (fun c => c =? period) (d :: cabeca)).
    fold (remove_class (fun c => c =? period) (grupos_texto gs)).
    rewrite Eg1, (filtro_mantem (fun c => c =? period) (d :: cabeca)).
    - cbn [filter]. rewrite P1, P2. cbn. rewrite <- app_assoc. reflexivity.
    - rewrite forallb_forall in *. intros c Hc.
      destruct (digito_nao_pontua c (Hcab c Hc)) as [E _]. rewrite E. reflexivity. }
  rewrite Er.
  assert (Hds : forallb is_digit ((d :: cabeca) ++ grupos_digitos gs) = true).
  { rewrite forallb_app, Hcab, Eg2. reflexivity. }
  rewrite (troca_virgula_apos_digitos _ _ Hds).
  unfold parseFloat.
  rewrite (span_para is_digit _ period [c1; c2] Hds eq_refl).
  rewrite N.eqb_refl. cbn [span]. rewrite H1, H2. cbn [fst List.length].
  unfold valor_br. cbn [app]. reflexivity.
Qed.

Lemma extrairPreco_quantia_br_em_1_234_567_89 :
  extrairPreco (js "R$ " ++ quantia_br (js "1") [(50, 51, 52); (53, 54, 55)] 56 57
                  ++ js " a vista")
  = Some (valor_br (js "1") [(50, 51, 52); (53, 54, 55)] 56 57).
Proof.
  apply (extrairPreco_quantia_br (js "R$ ") 49 [] [(50, 51, 52); (53, 54, 55)]
           56 57 (js " a vista")); reflexivity || (cbn; lia).
Defined.

(** An amount of more than 53 bits is read as the number nearest to it:
    9007199254740993 is half way between two numbers and goes to the even
    one. *)
Example extrairPreco_alem_de_53_bits :
  extrairPreco (js "R$ 9.007.199.254.740.993,00")
  = Some (inteiro 9007199254740992).
Proof. vm_compute. reflexivity. Qed.

End OlxQuantia.

(* ================================================================== *)
(** ** More facts: cache keys and error answers *)
(* ================================================================== *)

Module ConsultaChave.

Import ApiPlacas Consulta Referencia ReferenciaFipe ReferenciaConsulta.
Import ConsultaFatos.

Local Open Scope Z_scope.

Lemma middleware_preenchido err :
  status (middleware err) <> 0
  /\ exists e, corpo (middleware err) = Falha e None /\ e <> [].
Proof.
  unfold middleware. cbn [status corpo]. split.
  - destruct (status_do_erro err) as [st|]; [|discriminate].
    destruct (st =? 0) eqn:E; [discriminate|]. apply Z.eqb_neq, E.
  - destruct (mensagem err) as [|c r]; eexists; split; try reflexivity;
      discriminate.
Qed.

Section Chave.

Variable toUpperCase : jsstring -> jsstring.
Variable baseURL : jsstring.
Variable token : jsstring.

Local Notation "'consultar_'" := (consultar toUpperCase baseURL token).
Local Notation "'forcar_'" := (forcarConsulta toUpperCase baseURL token).
Local Notation "'consultarPlaca_'" := (consultarPlaca toUpperCase baseURL token).
Local Notation "'findLatest'" := (findLatestByPlaca toUpperCase).

(** X22. The cache is searched under the plate of the request uppercased
    and trimmed at its ends, whitespace inside it included, while the
    lookup client strips all whitespace: when every stored plate is
    well-formed and that text is not, the lookup client is invoked and the
    answer is not tagged [cache], whatever the store holds. *)
Theorem consultar_chave_malformada m c r
  (Hstore : forall d, In d (colecao m) ->
                      validarPlaca (placa (veiculo d)) = true)
  (Hkey : validarPlaca (toUpperCase (trim (toUpperCase (c :: r)))) = false) :
  chamou_api (log_de (consultar_ m (Some (c :: r)))) = true
  /\ fonte_de (resposta_de (consultar_ m (Some (c :: r)))) <> Some cache.
Proof.
  assert (Hmiss : recente m (fst (ler_cache toUpperCase m (c :: r))) = None).
  { unfold ler_cache. destruct (falha_leitura m); [reflexivity|]. cbn [fst].
    pose proof (findLatestByPlaca_spec toUpperCase (colecao m) (c :: r)) as Hs.
    destruct (findLatest (colecao m) (c :: r)) as [d|]; [|reflexivity].
    destruct Hs as (Hin & Hk & _). specialize (Hstore d Hin).
    rewrite Hk in Hstore. unfold chave, placa_do_esquema in Hstore.
    congruence. }
  rewrite consultar_casos, Hmiss.
  destruct (consultarPlaca_ (provedor m) (c :: r)) as [v|e]; split;
    unfold log_de, chamou_api; cbn [snd];
    rewrite ?existsb_app; cbn; rewrite ?orb_true_r; try reflexivity;
    discriminate.
Qed.

(** X21. An answer with a record has status 200, and an error answer of a
    plain or forced lookup never has an empty error text or the status 0:
    an error without message or status is answered with the defaults. *)
Theorem respostas_preenchidas m p :
  match corpo (resposta_de (consultar_ m p)) with
  | Sucesso _ _ => status (resposta_de (consultar_ m p)) = 200
  | Falha e _ => e <> [] /\ status (resposta_de (consultar_ m p)) <> 0
  end
  /\ match corpo (resposta_de (forcar_ m p)) with
     | Sucesso _ _ => status (resposta_de (forcar_ m p)) = 200
     | Falha e _ => e <> [] /\ status (resposta_de (forcar_ m p)) <> 0
     end.
Proof.
  assert (Hm : forall err,
             match corpo (middleware err) with
             | Sucesso _ _ => status (middleware err) = 200
             | Falha e _ => e <> [] /\ status (middleware err) <> 0
             end).
  { intros err. destruct (middleware_preenchido err) as (Hs & e & -> & He). auto. }
  split.
  - destruct p as [[|c r]|]; try (cbn; split; discriminate).
    rewrite consultar_casos.
    destruct (recente m _); [reflexivity|].
    destruct (consultarPlaca_ (provedor m) (c :: r)) as [v|err];
      [reflexivity | apply Hm].
  - destruct p as [[|c r]|]; try (cbn; split; discriminate).
    unfold forcarConsulta.
    destruct (consultarPlaca_ (provedor m) (c :: r)) as [v|err]; [|apply Hm].
    destruct (gravar toUpperCase m v). reflexivity.
Qed.

End Chave.

(** A fresh record of ABC1234 is stored; the request "abc 1234" is
    well-formed for the lookup client and still not served from the cache. *)
Lemma consultar_chave_malformada_com_espaco :
  chamou_api (log_de (consultar ascii_upper base_exemplo token_exemplo
                        (mundo_com_registro (30 * hora) (29 * hora))
                        (Some (js "abc 1234")))) = true
  /\ fonte_de (resposta_de (consultar ascii_upper base_exemplo token_exemplo
                             (mundo_com_registro (30 * hora) (29 * hora))
                             (Some (js "abc 1234")))) <> Some cache.
Proof.
  apply (consultar_chave_malformada ascii_upper base_exemplo token_exemplo
           (mundo_com_registro (30 * hora) (29 * hora))
           (N_of_ascii "a") (js "bc 1234")).
  - intros d [<-|[]]. vm_compute. reflexivity.
  - vm_compute. reflexivity.
Defined.

(** A provider that answers 200 with the body [null]: the lookup is
    answered with status 500 and the message of the [TypeError]. *)
Example consultar_corpo_nulo :
  resposta_de (consultar ascii_upper base_exemplo token_exemplo
                 {| colecao := []; falha_leitura := None; falha_escrita := None;
                    agora := 0; agora_gravacao := 0; carimbo := [];
                    provedor := fun _ => Ok None |}
                 (Some (js "ABC1234")))
  = {| status := 500; corpo := Falha msg_corpo_nulo None |}.
Proof. vm_compute. reflexivity. Qed.

End ConsultaChave.
